(** * pdf_merger: ordering and assembly pipeline

    A shallow embedding of [pdf_merger/pdf_merger.py]: index extraction from
    file names, the two planning strategies, and the page-offset bookkeeping
    of the assembler, followed by the properties the specification states
    about them.

    Python values are represented as follows: [str] is [string], [int] is
    [Z], a [list] is a [list], a [dict] is an insertion-ordered association
    list with pairwise distinct keys, [None] is the [None] of [option].
    Exceptions are the [Raise] branch of [Result].  Characters are ASCII. *)

From Stdlib Require Import ZArith List String Ascii Bool Arith Lia.
From Stdlib Require Import Permutation Sorted DecimalString DecimalPos.
Import ListNotations.

Local Open Scope string_scope.
Local Open Scope list_scope.
Local Open Scope nat_scope.

(** ** Python string primitives used by the program *)

Module PyStr.

(** [s[n:]] *)
Fixpoint drop (n : nat) (s : string) : string :=
  match n, s with
  | O, _ => s
  | S _, EmptyString => EmptyString
  | S n', String _ r => drop n' r
  end.

(** [s[:n]] *)
Fixpoint take (n : nat) (s : string) : string :=
  match n, s with
  | O, _ => EmptyString
  | S _, EmptyString => EmptyString
  | S n', String c r => String c (take n' r)
  end.

(** [s.startswith(p)] *)
Definition startswith (s p : string) : bool := String.prefix p s.

(** [s.endswith(suffix)] *)
Definition endswith (s suffix : string) : bool :=
  if String.length suffix <=? String.length s
  then String.eqb (drop (String.length s - String.length suffix) s) suffix
  else false.

(** Truth value of a string: non-empty. *)
Definition truthy (s : string) : bool :=
  match s with EmptyString => false | String _ _ => true end.

(** [c.isspace()] on ASCII: tab, LF, VT, FF, CR, FS, GS, RS, US, space. *)
Definition is_space (c : ascii) : bool :=
  let n := nat_of_ascii c in
  ((9 <=? n) && (n <=? 13)) || ((28 <=? n) && (n <=? 32)).

Definition is_digit (c : ascii) : bool :=
  let n := nat_of_ascii c in (48 <=? n) && (n <=? 57).

Definition digit_val (c : ascii) : Z := Z.of_nat (nat_of_ascii c - 48).

Fixpoint lstrip (s : string) : string :=
  match s with
  | EmptyString => EmptyString
  | String c r => if is_space c then lstrip r else s
  end.

Fixpoint rstrip (s : string) : string :=
  match s with
  | EmptyString => EmptyString
  | String c r =>
      match rstrip r with
      | EmptyString => if is_space c then EmptyString else String c EmptyString
      | r' => String c r'
      end
  end.

(** [s.strip()] *)
Definition strip (s : string) : string := rstrip (lstrip s).

Definition lower_char (c : ascii) : ascii :=
  let n := nat_of_ascii c in
  if (65 <=? n) && (n <=? 90) then ascii_of_nat (n + 32) else c.

(** [s.lower()] *)
Fixpoint lower (s : string) : string :=
  match s with
  | EmptyString => EmptyString
  | String c r => String (lower_char c) (lower r)
  end.

(** [s.split(sep)] for a one-character separator. *)
Fixpoint split (sep : ascii) (s : string) : list string :=
  match s with
  | EmptyString => [EmptyString]
  | String c r =>
      if Ascii.eqb c sep then EmptyString :: split sep r
      else match split sep r with
           | [] => [String c EmptyString]
           | w :: ws => String c w :: ws
           end
  end.

(** [s.rfind(c)], with [None] for Python's [-1]. *)
Fixpoint rfind (c : ascii) (s : string) : option nat :=
  match s with
  | EmptyString => None
  | String a r =>
      match rfind c r with
      | Some i => Some (S i)
      | None => if Ascii.eqb a c then Some O else None
      end
  end.

(** Digits with single underscores between them, as [int] accepts. *)
Fixpoint digits_acc (s : string) (acc : Z) (prev_digit : bool) : option Z :=
  match s with
  | EmptyString => if prev_digit then Some acc else None
  | String c r =>
      if is_digit c then digits_acc r (10 * acc + digit_val c)%Z true
      else if Ascii.eqb c "_"
           then (if prev_digit then digits_acc r acc false else None)
           else None
  end.

(** The white space [int] skips around a numeral: tab, LF, VT, FF, CR and
    space.  Unlike [str.strip] it does not skip FS, GS, RS and US. *)
Definition is_c_space (c : ascii) : bool :=
  let n := nat_of_ascii c in
  ((9 <=? n) && (n <=? 13)) || (n =? 32).

Fixpoint lstrip_by (p : ascii -> bool) (s : string) : string :=
  match s with
  | EmptyString => EmptyString
  | String c r => if p c then lstrip_by p r else s
  end.

Fixpoint rstrip_by (p : ascii -> bool) (s : string) : string :=
  match s with
  | EmptyString => EmptyString
  | String c r =>
      match rstrip_by p r with
      | EmptyString => if p c then EmptyString else String c EmptyString
      | r' => String c r'
      end
  end.

(** [int(s)] in base 10; [None] stands for [ValueError]. *)
Definition int (s : string) : option Z :=
  match rstrip_by is_c_space (lstrip_by is_c_space s) with
  | EmptyString => None
  | String c r =>
      if Ascii.eqb c "+" then digits_acc r 0%Z false
      else if Ascii.eqb c "-" then option_map Z.opp (digits_acc r 0%Z false)
      else digits_acc (String c r) 0%Z false
  end.

(** [str(z)] *)
Definition of_int (z : Z) : string := NilZero.string_of_int (Z.to_int z).

End PyStr.

(** ** Exceptions and results *)

Inductive exn : Type :=
| IndexError                 (* [match.group(n)]: no such group *)
| TypeError                  (* [int(None)] *)
| AttributeError             (* an object without the attribute asked for *)
| ValueError (msg : string)
| OSError (path : string)    (* [os.listdir], [open] *)
| PdfReadError (path : string) (* [PdfMerger.append] cannot read the file *)
| EOFError.                  (* [input] at end of input *)

Inductive Result (A : Type) : Type :=
| Ok (a : A)
| Raise (e : exn).
Arguments Ok {A} a.
Arguments Raise {A} e.

Definition invalid_literal : exn :=
  ValueError "invalid literal for int() with base 10".

(** [int(x)] where [x] is a string or [None]. *)
Definition py_int (x : option string) : Result Z :=
  match x with
  | None => Raise TypeError
  | Some s => match PyStr.int s with
              | Some z => Ok z
              | None => Raise invalid_literal
              end
  end.

(** ** The regular-expression engine ([re.search], [match.group])

    Patterns are kept in abstract syntax; the default pattern [(\d+)] is
    [Group (Plus Digit)].  Matching is by backtracking: alternatives are
    tried left to right, repetitions are greedy, a group keeps the text of
    its last successful iteration, and a repetition whose body matched the
    empty string goes on with the rest of the pattern instead of iterating
    again. *)

Module Re.

Inductive regex : Type :=
| Eps
| Chr (c : ascii)
| Any                       (* [.] *)
| Digit                     (* [\d] *)
| Seq (r1 r2 : regex)
| Alt (r1 r2 : regex)
| Star (r : regex)
| Plus (r : regex)
| Opt (r : regex)
| Group (r : regex).        (* capturing parentheses *)

(** Number of capturing groups, numbered by opening parenthesis. *)
Fixpoint ngroups (r : regex) : nat :=
  match r with
  | Eps | Chr _ | Any | Digit => 0
  | Seq r1 r2 | Alt r1 r2 => ngroups r1 + ngroups r2
  | Star r1 | Plus r1 | Opt r1 => ngroups r1
  | Group r1 => S (ngroups r1)
  end.

(** Text of each group, [None] for a group that did not take part. *)
Definition captures : Type := list (option string).

Fixpoint set_cap (g : nat) (x : option string) (caps : captures) : captures :=
  match caps, g with
  | [], _ => []
  | _ :: cs, O => x :: cs
  | c :: cs, S g' => c :: set_cap g' x cs
  end.

Definition cont : Type := string -> captures -> option (string * captures).

(** Greedy iteration of [body]; [n] bounds the number of iterations that
    consume input. *)
Fixpoint iterate (body : string -> captures -> cont -> option (string * captures))
         (k : cont) (n : nat) (s : string) (caps : captures)
  : option (string * captures) :=
  match n with
  | O => k s caps
  | S n' =>
      match body s caps
              (fun s' caps' =>
                 if String.length s' <? String.length s
                 then iterate body k n' s' caps'
                 else k s' caps') with
      | Some x => Some x
      | None => k s caps
      end
  end.

(** [rmatch r g s caps k]: match [r] at the head of [s], then continue
    with [k] on the rest; [g] groups were opened to the left of [r]. *)
Fixpoint rmatch (r : regex) (g : nat) (s : string) (caps : captures) (k : cont)
  : option (string * captures) :=
  match r with
  | Eps => k s caps
  | Chr c =>
      match s with
      | String a s' => if Ascii.eqb a c then k s' caps else None
      | EmptyString => None
      end
  | Any =>
      match s with
      | String a s' => if Ascii.eqb a "010" then None else k s' caps
      | EmptyString => None
      end
  | Digit =>
      match s with
      | String a s' => if PyStr.is_digit a then k s' caps else None
      | EmptyString => None
      end
  | Seq r1 r2 =>
      rmatch r1 g s caps (fun s' caps' => rmatch r2 (g + ngroups r1) s' caps' k)
  | Alt r1 r2 =>
      match rmatch r1 g s caps k with
      | Some x => Some x
      | None => rmatch r2 (g + ngroups r1) s caps k
      end
  | Star r1 => iterate (rmatch r1 g) k (S (String.length s)) s caps
  | Plus r1 =>
      rmatch r1 g s caps
        (fun s' caps' =>
           if String.length s' <? String.length s
           then iterate (rmatch r1 g) k (S (String.length s')) s' caps'
           else k s' caps')
  | Opt r1 =>
      match rmatch r1 g s caps k with
      | Some x => Some x
      | None => k s caps
      end
  | Group r1 =>
      rmatch r1 (S g) s caps
        (fun s' caps' =>
           k s' (set_cap g (Some (PyStr.take (String.length s - String.length s') s)) caps'))
  end.

(** A match anchored at the head of [s]: the rest of [s] and the groups. *)
Definition match_here (r : regex) (s : string) : option (string * captures) :=
  rmatch r 0 s (repeat None (ngroups r)) (fun s' caps => Some (s', caps)).

(** The match object. *)
Record Match : Type := mkMatch {
  m_start : nat;
  m_group0 : string;
  m_groups : captures
}.

Fixpoint search_from (r : regex) (s : string) (pos : nat) : option Match :=
  match match_here r s with
  | Some (s', caps) =>
      Some (mkMatch pos (PyStr.take (String.length s - String.length s') s) caps)
  | None =>
      match s with
      | EmptyString => None
      | String _ s' => search_from r s' (S pos)
      end
  end.

(** [re.search(r, s)]: the match at the leftmost position that has one. *)
Definition search (r : regex) (s : string) : option Match := search_from r s 0.

(** [m.group(n)] *)
Definition group (m : Match) (n : nat) : Result (option string) :=
  match n with
  | O => Ok (Some (m_group0 m))
  | S n' => match nth_error (m_groups m) n' with
            | Some x => Ok x
            | None => Raise IndexError
            end
  end.

End Re.

(** The default of [--index_pattern], [r'(\d+)']. *)
Definition default_index_pattern : Re.regex := Re.Group (Re.Plus Re.Digit).

(** ** The environment of a run: file system, PDF library, console *)

(** [Path(folder) / name], for a [name] that is a single path component, as
    [os.listdir] yields them. *)
Record Path : Type := mkPath { p_dir : string; p_name : string }.

Definition path_div (folder name : string) : Path := mkPath folder name.

(** [path.stem]: the final component without its last suffix. *)
Definition stem (p : Path) : string :=
  let name := p_name p in
  match PyStr.rfind "." name with
  | Some i =>
      if (0 <? i) && (i <? String.length name - 1) then PyStr.take i name else name
  | None => name
  end.

(** Modelled from the spec: the [PdfMerger] of the external PDF library, whose
    code is not part of the repository.  Its state is the documents appended
    so far with their page counts, and the outline items added so far, both
    in order. *)
Record PdfMerger : Type := mkMerger {
  inputs : list (Path * Z);
  outline : list (string * Z)
}.

Record World : Type := mkWorld {
  fs_listdir : string -> option (list string); (* entries of a directory *)
  fs_pdf : Path -> option Z;         (* page count of a readable PDF *)
  fs_writable : string -> bool;      (* [open(path, 'wb')] succeeds *)
  fs_written : list (string * PdfMerger); (* files written, oldest first *)
  stdin : list string;               (* lines still to be read *)
  stdout : list string               (* what was printed, oldest first *)
}.

Definition with_stdout (w : World) (out : list string) : World :=
  mkWorld (fs_listdir w) (fs_pdf w) (fs_writable w) (fs_written w) (stdin w) out.

Definition with_stdin (w : World) (inp : list string) : World :=
  mkWorld (fs_listdir w) (fs_pdf w) (fs_writable w) (fs_written w) inp (stdout w).

Definition with_written (w : World) (ws : list (string * PdfMerger)) : World :=
  mkWorld (fs_listdir w) (fs_pdf w) (fs_writable w) ws (stdin w) (stdout w).

(** ** Computations: exceptions alone, and exceptions over the world *)

Definition rbind {A B : Type} (c : Result A) (k : A -> Result B) : Result B :=
  match c with
  | Ok a => k a
  | Raise e => Raise e
  end.

Definition M (A : Type) : Type := World -> Result A * World.

Definition ret {A : Type} (a : A) : M A := fun w => (Ok a, w).

Definition bind {A B : Type} (c : M A) (k : A -> M B) : M B :=
  fun w => match c w with
           | (Ok a, w') => k a w'
           | (Raise e, w') => (Raise e, w')
           end.

Definition lift {A : Type} (r : Result A) : M A := fun w => (r, w).

Declare Scope py_scope.
Delimit Scope py_scope with py.
Notation "x <- c ;; k" := (bind c (fun x => k))
  (at level 61, c at next level, right associativity) : py_scope.
Notation "c ;; k" := (bind c (fun _ => k))
  (at level 61, right associativity) : py_scope.
Notation "x <-- c ;; k" := (rbind c (fun x => k))
  (at level 61, c at next level, right associativity) : py_scope.
Local Open Scope py_scope.

(** [print(line)] *)
Definition print (line : string) : M unit :=
  fun w => (Ok tt, with_stdout w (stdout w ++ [line])).

(** [input(prompt)] *)
Definition input (prompt : string) : M string :=
  fun w =>
    let w1 := with_stdout w (stdout w ++ [prompt]) in
    match stdin w1 with
    | [] => (Raise EOFError, w1)
    | line :: rest => (Ok line, with_stdin w1 rest)
    end.

(** [os.listdir(folder)] *)
Definition listdir (folder : string) : M (list string) :=
  fun w => match fs_listdir w folder with
           | Some names => (Ok names, w)
           | None => (Raise (OSError folder), w)
           end.

(** Modelled from the spec: [merger.append(str(path))], the library's
    "append document by path"; it fails on a file it cannot read. *)
Definition append (merger : PdfMerger) (path : Path) : M PdfMerger :=
  fun w => match fs_pdf w path with
           | Some n => (Ok (mkMerger (inputs merger ++ [(path, n)]) (outline merger)), w)
           | None => (Raise (PdfReadError (p_name path)), w)
           end.

(** Modelled from the spec: [merger.add_outline_item(title, page)], the
    library's "add a flat outline entry at a given absolute page index". *)
Definition add_outline_item (merger : PdfMerger) (title : string) (page : Z) : PdfMerger :=
  mkMerger (inputs merger) (outline merger ++ [(title, page)]).

(** [merger.pages[-1].numPages].  [merger.pages] holds one entry for each
    page merged so far, so [pages[-1]] raises [IndexError] while no appended
    document has a page; and such an entry is a single page, which has no
    attribute [numPages], so the expression raises [AttributeError] in every
    other case.  It never yields a number. *)
Definition last_numPages (merger : PdfMerger) : Result Z :=
  if existsb (fun d => (0 <? snd d)%Z) (inputs merger)
  then Raise AttributeError
  else Raise IndexError.

(** Modelled from the spec: [with open(output_file, 'wb') as f_out:
    merger.write(f_out)], the library's "serialize the merged document to a
    destination path", one atomic write. *)
Definition write_to (merger : PdfMerger) (output_file : string) : M unit :=
  fun w => if fs_writable w output_file
           then (Ok tt, with_written w (fs_written w ++ [(output_file, merger)]))
           else (Raise (OSError output_file), w).

(** ** Dictionaries and sorting *)

Definition dict : Type := list (string * Z).

(** [d[k] = v]: a present key keeps its place and takes the new value, a new
    key goes to the end. *)
Fixpoint dict_set (k : string) (v : Z) (d : dict) : dict :=
  match d with
  | [] => [(k, v)]
  | (k', v') :: d' =>
      if String.eqb k k' then (k', v) :: d' else (k', v') :: dict_set k v d'
  end.

(** [d.update(pairs)]; from the empty dictionary this is the comprehension
    [{k: v for k, v in pairs}]. *)
Definition dict_update (d : dict) (pairs : list (string * Z)) : dict :=
  fold_left (fun d '(k, v) => dict_set k v d) pairs d.

(** [d.items()] *)
Definition items (d : dict) : list (string * Z) := d.

Section Sorted.
Context {A : Type} (key : A -> Z).

Fixpoint insert_by (x : A) (l : list A) : list A :=
  match l with
  | [] => [x]
  | y :: l' => if (key x <=? key y)%Z then x :: y :: l' else y :: insert_by x l'
  end.

(** [sorted(l, key=key)]: the stable ascending sort. *)
Definition sorted (l : list A) : list A := fold_right insert_by [] l.
End Sorted.

(** [enumerate(l)] *)
Definition enumerate {A : Type} (l : list A) : list (nat * A) :=
  combine (seq 0 (List.length l)) l.

(** ** The program *)

Definition nl : string := String "010" EmptyString.

Definition list_pdf_files (input_folder : string) : M (list string) :=
  names <- listdir input_folder ;;
  ret (filter (fun f => PyStr.endswith f ".pdf") names).

Definition clean_name (filename prefix : string) : string :=
  if PyStr.startswith filename prefix
  then PyStr.drop (String.length prefix) filename
  else filename.

(** The body of [extract_index_from_filename], for a pattern given by what
    [re.search] finds with it in a subject. *)
Definition extract_index_with
           (search : string -> option Re.Match) (filename prefix : string)
  : Result (option Z) :=
  match search (clean_name filename prefix) with
  | Some m =>
      g <-- Re.group m 1 ;;
      z <-- py_int g ;;
      Ok (Some z)
  | None => Ok None
  end.

Definition extract_index_from_filename
           (filename prefix : string) (index_pattern : Re.regex) : Result (option Z) :=
  extract_index_with (Re.search index_pattern) filename prefix.

Definition warning (pdf_file : string) : string :=
  "Warning: No index found for file " ++ pdf_file ++ ". Skipping.".

(** The [for] loop of [get_sorted_pdfs_by_index]. *)
Fixpoint index_loop (pdf_files : list string) (prefix : string)
         (index_pattern : Re.regex) (pdf_with_indices : dict) : M dict :=
  match pdf_files with
  | [] => ret pdf_with_indices
  | pdf_file :: rest =>
      index <- lift (extract_index_from_filename pdf_file prefix index_pattern) ;;
      match index with
      | Some i =>
          index_loop rest prefix index_pattern (dict_set pdf_file i pdf_with_indices)
      | None =>
          print (warning pdf_file) ;;
          index_loop rest prefix index_pattern pdf_with_indices
      end
  end.

Definition get_sorted_pdfs_by_index
           (pdf_files : list string) (prefix : string) (index_pattern : Re.regex)
  : M (list (string * Z)) :=
  pdf_with_indices <- index_loop pdf_files prefix index_pattern [] ;;
  ret (sorted snd (items pdf_with_indices)).

Definition order_count_mismatch : exn :=
  ValueError "The number of files does not match the number of custom order positions.".

Definition get_sorted_pdfs_by_order
           (pdf_files : list string) (custom_order : list Z) : Result (list (string * Z)) :=
  if negb (List.length pdf_files =? List.length custom_order)
  then Raise order_count_mismatch
  else
    let pdf_with_order := dict_update [] (combine pdf_files custom_order) in
    Ok (sorted snd (items pdf_with_order)).

Fixpoint print_plan (sorted_pdfs : list (string * Z)) : M unit :=
  match sorted_pdfs with
  | [] => ret tt
  | (pdf_file, order_or_index) :: rest =>
      print (pdf_file ++ " (Order/Index: " ++ PyStr.of_int order_or_index ++ ")") ;;
      print_plan rest
  end.

Definition confirm_merge (sorted_pdfs : list (string * Z)) : M bool :=
  print (nl ++ "The following PDFs will be merged in this order:") ;;
  print_plan sorted_pdfs ;;
  answer <- input (nl ++ "Do you want to proceed with merging these files? (yes/no): ") ;;
  ret (String.eqb (PyStr.lower (PyStr.strip answer)) "yes").

(** [custom_titles[idx] if custom_titles and idx < len(custom_titles)
     else pdf_path.stem] *)
Definition bookmark_title_of
           (custom_titles : option (list string)) (idx : nat) (pdf_path : Path) : string :=
  match custom_titles with
  | Some titles =>
      if negb (List.length titles =? 0) && (idx <? List.length titles)
      then nth idx titles EmptyString
      else stem pdf_path
  | None => stem pdf_path
  end.

(** The line [merge_pdfs] prints for a file it has appended. *)
Definition adding_line (pdf_file bookmark_title : string) : string :=
  "Adding " ++ pdf_file ++ " to the merged PDF with bookmark title: '"
    ++ bookmark_title ++ "'.".

(** The line [merge_pdfs] prints once the output is written. *)
Definition saved_line (output_file : string) : string :=
  "Merged PDF saved as " ++ output_file ++ " with Table of Contents (Bookmarks).".

(** The body of the [for] loop of [merge_pdfs] up to the print: the file is
    appended, its bookmark is added at the current page, and the line is
    printed. *)
Definition merge_entry (input_folder : string) (custom_titles : option (list string))
           (idx : nat) (pdf_file : string) (merger : PdfMerger) (current_page : Z)
  : M PdfMerger :=
  let pdf_path := path_div input_folder pdf_file in
  merger <- append merger pdf_path ;;
  let bookmark_title := bookmark_title_of custom_titles idx pdf_path in
  let merger := add_outline_item merger bookmark_title current_page in
  print (adding_line pdf_file bookmark_title) ;;
  ret merger.

(** The [for] loop of [merge_pdfs]: each turn runs the body above and then
    updates the page counter from [merger.pages[-1].numPages]. *)
Fixpoint merge_loop (input_folder : string) (custom_titles : option (list string))
         (entries : list (nat * (string * Z)))
         (merger : PdfMerger) (current_page : Z) : M PdfMerger :=
  match entries with
  | [] => ret merger
  | (idx, (pdf_file, _)) :: rest =>
      merger <- merge_entry input_folder custom_titles idx pdf_file
                            merger current_page ;;
      n <- lift (last_numPages merger) ;;
      let current_page := (current_page + n)%Z in
      merge_loop input_folder custom_titles rest merger current_page
  end.

Definition merge_pdfs (input_folder output_file : string)
           (sorted_pdfs : list (string * Z)) (custom_titles : option (list string))
  : M unit :=
  let merger := mkMerger [] [] in
  let current_page := 0%Z in
  merger <- merge_loop input_folder custom_titles (enumerate sorted_pdfs)
                       merger current_page ;;
  write_to merger output_file ;;
  print (saved_line output_file).

Fixpoint parse_ints (parts : list string) : Result (list Z) :=
  match parts with
  | [] => Ok []
  | order :: rest =>
      z <-- py_int (Some order) ;;
      zs <-- parse_ints rest ;;
      Ok (z :: zs)
  end.

Definition parse_custom_order (order_str : string) : Result (list Z) :=
  parse_ints (PyStr.split "," order_str).

(** The parsed command line. *)
Module Args.
Record t : Type := mk {
  input_folder : string;
  output_file : string;
  prefix : string;
  index_pattern : Re.regex;
  custom_titles : option string;
  custom_order : option string;
  force_merge : bool
}.
End Args.

(** Truth value of an optional string argument. *)
Definition given (x : option string) : bool :=
  match x with
  | Some s => PyStr.truthy s
  | None => false
  end.

(** [main], after [parser.parse_args()]. *)
Definition main (args : Args.t) : M unit :=
  pdf_files <- list_pdf_files (Args.input_folder args) ;;
  match pdf_files with
  | [] =>
      print ("No PDF files found in the directory: " ++ Args.input_folder args)
  | _ :: _ =>
      sorted_pdfs <-
        (match Args.custom_order args with
         | Some order_str =>
             if PyStr.truthy order_str
             then custom_order <- lift (parse_custom_order order_str) ;;
                  lift (get_sorted_pdfs_by_order pdf_files custom_order)
             else get_sorted_pdfs_by_index pdf_files (Args.prefix args)
                                           (Args.index_pattern args)
         | None => get_sorted_pdfs_by_index pdf_files (Args.prefix args)
                                            (Args.index_pattern args)
         end) ;;
      match sorted_pdfs with
      | [] => print "No valid PDFs with index found. Exiting."
      | _ :: _ =>
          let custom_titles :=
            match Args.custom_titles args with
            | Some titles => if PyStr.truthy titles
                             then Some (PyStr.split "," titles) else None
            | None => None
            end in
          proceed <- (if Args.force_merge args then ret true
                      else confirm_merge sorted_pdfs) ;;
          if proceed
          then merge_pdfs (Args.input_folder args) (Args.output_file args)
                          sorted_pdfs custom_titles
          else print "Merge operation aborted by the user."
      end
  end.


(** ** Vocabulary of the specification *)

(** [a] stands somewhere to the left of [b] in the list. *)
Inductive before {A : Type} : list A -> A -> A -> Prop :=
| before_here (a b : A) (l : list A) : In b l -> before (a :: l) a b
| before_later (c a b : A) (l : list A) : before l a b -> before (c :: l) a b.

(** [l.index(x)]: the place of the first [x], or the length when there is
    none. *)
Fixpoint index_of (x : string) (l : list string) : nat :=
  match l with
  | [] => 0
  | y :: l' => if String.eqb x y then 0 else S (index_of x l')
  end.

(** Ascending order of keys. *)
Definition le_by {A : Type} (key : A -> Z) (a b : A) : Prop := (key a <= key b)%Z.

(** The (file, key) pairs of the files that yield a key, in listing order. *)
Definition keyed_pairs (prefix : string) (index_pattern : Re.regex)
           (pdf_files : list string) : list (string * Z) :=
  flat_map (fun f => match extract_index_from_filename f prefix index_pattern with
                     | Ok (Some i) => [(f, i)]
                     | _ => []
                     end) pdf_files.

(** The file yields a key. *)
Definition has_key (prefix : string) (index_pattern : Re.regex) (f : string) : bool :=
  match extract_index_from_filename f prefix index_pattern with
  | Ok (Some _) => true
  | _ => false
  end.

(** The (stripped) file name does not match the pattern. *)
Definition no_match (prefix : string) (index_pattern : Re.regex) (f : string) : bool :=
  match Re.search index_pattern (clean_name f prefix) with
  | None => true
  | Some _ => false
  end.

(** The same command line with another prefix and pattern. *)
Definition with_index_options (args : Args.t) (prefix : string)
           (index_pattern : Re.regex) : Args.t :=
  Args.mk (Args.input_folder args) (Args.output_file args) prefix index_pattern
          (Args.custom_titles args) (Args.custom_order args) (Args.force_merge args).

(** The listing kept by [list_pdf_files]. *)
Definition pdf_names (names : list string) : list string :=
  filter (fun f => PyStr.endswith f ".pdf") names.

(** A directory [in] with three PDFs of 5, 2 and 3 pages and a text file;
    every path is writable and the user answers yes. *)
Definition example_world : World :=
  mkWorld
    (fun d => if String.eqb d "in"
              then Some ["doc_2.pdf"; "doc_10.pdf"; "notes.txt"; "doc_1.pdf"]
              else None)
    (fun p => if String.eqb (p_name p) "doc_2.pdf" then Some 5%Z
              else if String.eqb (p_name p) "doc_10.pdf" then Some 2%Z
              else if String.eqb (p_name p) "doc_1.pdf" then Some 3%Z
              else None)
    (fun _ => true) [] ["yes"] [].

(** The explicit strategy was asked for: [args.custom_order] is truthy. *)
Definition explicit_requested (args : Args.t) : bool := given (Args.custom_order args).

(** A continuation that hands on capture lists of length [L]. *)
Definition keeps (L : nat) (k : Re.cont) : Prop :=
  forall s caps res,
    List.length caps = L -> k s caps = Some res -> List.length (snd res) = L.

(** The leading decimal digits of a string, and what follows them. *)
Fixpoint take_digits (s : string) : string :=
  match s with
  | EmptyString => EmptyString
  | String c r => if PyStr.is_digit c then String c (take_digits r) else EmptyString
  end.

Fixpoint skip_digits (s : string) : string :=
  match s with
  | EmptyString => EmptyString
  | String c r => if PyStr.is_digit c then skip_digits r else s
  end.

Fixpoint all_digits (s : string) : bool :=
  match s with
  | EmptyString => true
  | String c r => PyStr.is_digit c && all_digits r
  end.

(** The second world differs from the first in the console only: the
    directories, the PDFs and the files written are the same. *)
Definition only_console (w w' : World) : Prop :=
  fs_listdir w' = fs_listdir w /\ fs_pdf w' = fs_pdf w /\
  fs_writable w' = fs_writable w /\ fs_written w' = fs_written w.

(** The value of a decimal numeral on top of [acc], most significant digit
    first. *)
Fixpoint horner (d : Decimal.uint) (acc : Z) : Z :=
  match d with
  | Decimal.Nil => acc
  | Decimal.D0 d' => horner d' (10 * acc)
  | Decimal.D1 d' => horner d' (10 * acc + 1)
  | Decimal.D2 d' => horner d' (10 * acc + 2)
  | Decimal.D3 d' => horner d' (10 * acc + 3)
  | Decimal.D4 d' => horner d' (10 * acc + 4)
  | Decimal.D5 d' => horner d' (10 * acc + 5)
  | Decimal.D6 d' => horner d' (10 * acc + 6)
  | Decimal.D7 d' => horner d' (10 * acc + 7)
  | Decimal.D8 d' => horner d' (10 * acc + 8)
  | Decimal.D9 d' => horner d' (10 * acc + 9)
  end%Z.

(** No character of the string is a decimal digit. *)
Fixpoint no_digits (s : string) : bool :=
  match s with
  | EmptyString => true
  | String c r => negb (PyStr.is_digit c) && no_digits r
  end.

(** No character of the string is white space. *)
Fixpoint no_spaces (s : string) : bool :=
  match s with
  | EmptyString => true
  | String c r => negb (PyStr.is_space c) && no_spaces r
  end.

(** The string does not begin with a decimal digit. *)
Definition no_leading_digit (s : string) : bool :=
  match s with
  | EmptyString => true
  | String c _ => negb (PyStr.is_digit c)
  end.

(** The character does not occur in the string. *)
Fixpoint lacks (c : ascii) (s : string) : bool :=
  match s with
  | EmptyString => true
  | String a r => negb (Ascii.eqb a c) && lacks c r
  end.

(** Every character of the string is white space. *)
Fixpoint all_spaces (s : string) : bool :=
  match s with
  | EmptyString => true
  | String c r => PyStr.is_space c && all_spaces r
  end.

(** The second world is the first after some lines were printed. *)
Definition prints (w w' : World) : Prop :=
  exists out, w' = with_stdout w (stdout w ++ out).

(** The line [confirm_merge] shows for a plan entry. *)
Definition plan_line (e : string * Z) : string :=
  fst e ++ " (Order/Index: " ++ PyStr.of_int (snd e) ++ ")".

(** What [confirm_merge] prints before it reads the answer. *)
Definition confirmation_text (sorted_pdfs : list (string * Z)) : list string :=
  [(nl ++ "The following PDFs will be merged in this order:")%string]
    ++ map plan_line sorted_pdfs
    ++ [(nl ++ "Do you want to proceed with merging these files? (yes/no): ")%string].

(** Step 2 of [main]: the plan, by explicit order when one is given and by
    index otherwise. *)
Definition plan_of (args : Args.t) (pdf_files : list string) : M (list (string * Z)) :=
  match Args.custom_order args with
  | Some order_str =>
      if PyStr.truthy order_str
      then custom_order <- lift (parse_custom_order order_str) ;;
           lift (get_sorted_pdfs_by_order pdf_files custom_order)
      else get_sorted_pdfs_by_index pdf_files (Args.prefix args)
                                    (Args.index_pattern args)
  | None => get_sorted_pdfs_by_index pdf_files (Args.prefix args)
                                     (Args.index_pattern args)
  end.

(** Step 3 of [main]: the custom titles, when given. *)
Definition titles_of (args : Args.t) : option (list string) :=
  match Args.custom_titles args with
  | Some titles => if PyStr.truthy titles
                   then Some (PyStr.split "," titles) else None
  | None => None
  end.

(** White space as [int] skips it around a literal: tab, line feed,
    vertical tab, form feed, carriage return and space. *)
Definition blank (c : ascii) : bool :=
  existsb (Ascii.eqb c) [" "; "009"; "010"; "011"; "012"; "013"]%char.

(** Every character of the string satisfies the test. *)
Fixpoint all_chars (p : ascii -> bool) (s : string) : bool :=
  match s with
  | EmptyString => true
  | String c r => p c && all_chars p r
  end.

(** The value of a string of decimal digits on top of [acc], most
    significant digit first. *)
Fixpoint dec_acc (s : string) (acc : Z) : Z :=
  match s with
  | EmptyString => acc
  | String c r => dec_acc r (10 * acc + PyStr.digit_val c)%Z
  end.

(** The integer literals of Python, base ten, and their values: optional
    white space, an optional sign, one or more non-empty groups of decimal
    digits joined by single underscores, optional white space.  The value
    is that of the digits, read as the standard library reads a decimal
    numeral, with the sign applied. *)
Definition int_literal (s : string) (z : Z) : Prop :=
  exists (pad1 sign : string) (groups : list string) (pad2 : string)
         (u : Decimal.uint),
    s = (pad1 ++ sign ++ String.concat "_" groups ++ pad2)%string /\
    all_chars blank pad1 = true /\ all_chars blank pad2 = true /\
    groups <> [] /\ Forall (fun g => g <> ""%string) groups /\
    NilEmpty.uint_of_string (String.concat "" groups) = Some u /\
    ((sign = ""%string \/ sign = "+"%string) /\ z = Z.of_uint u \/
     sign = "-"%string /\ z = (- Z.of_uint u)%Z).

(** * Properties *)

(** ** Strings *)

Lemma drop_app (p r : string) : PyStr.drop (String.length p) (p ++ r)%string = r.
Proof. induction p as [|c p IH]; simpl; auto. Qed.

Lemma prefix_app (p r : string) : String.prefix p (p ++ r)%string = true.
Proof.
  induction p as [|c p IH]; simpl.
  - destruct r; reflexivity.
  - destruct (ascii_dec c c); [assumption | congruence].
Qed.

Lemma prefix_split (p s : string) :
  String.prefix p s = true -> s = (p ++ PyStr.drop (String.length p) s)%string.
Proof.
  revert s; induction p as [|c p IH]; intros s H; simpl.
  - reflexivity.
  - destruct s as [|a s]; simpl in H; [discriminate|].
    destruct (ascii_dec c a); [subst; f_equal; auto | discriminate].
Qed.

Lemma length_append (a b : string) :
  String.length (a ++ b)%string = String.length a + String.length b.
Proof. induction a; simpl; auto. Qed.

Lemma length_drop (n : nat) (s : string) :
  String.length (PyStr.drop n s) = String.length s - n.
Proof.
  revert s; induction n; intros [|c s]; simpl; auto.
Qed.

Lemma drop_drop (n m : nat) (s : string) :
  PyStr.drop n (PyStr.drop m s) = PyStr.drop (m + n) s.
Proof.
  revert s; induction m; intros s; simpl; auto.
  destruct s; simpl; auto. destruct n; reflexivity.
Qed.

Lemma drop_S (n : nat) (c : ascii) (s : string) :
  PyStr.drop (S n) (String c s) = PyStr.drop n s.
Proof. reflexivity. Qed.

Lemma append_assoc (a b c : string) : ((a ++ b) ++ c)%string = (a ++ b ++ c)%string.
Proof. induction a as [|x a IH]; simpl; [reflexivity | now rewrite IH]. Qed.

Lemma append_empty_r (s : string) : (s ++ "")%string = s.
Proof. induction s as [|c s IH]; simpl; [reflexivity | now rewrite IH]. Qed.

(** ** The regular-expression engine *)

Lemma search_from_eq (r : Re.regex) (s : string) (pos : nat) :
  Re.search_from r s pos =
  match Re.match_here r s with
  | Some (s', caps) =>
      Some (Re.mkMatch pos (PyStr.take (String.length s - String.length s') s) caps)
  | None =>
      match s with
      | EmptyString => None
      | String _ s' => Re.search_from r s' (S pos)
      end
  end.
Proof. destruct s; reflexivity. Qed.

(** The search returns the match at the leftmost position that has one. *)
Lemma search_from_first (r : Re.regex) :
  forall i s pos rest caps,
    i <= String.length s ->
    Re.match_here r (PyStr.drop i s) = Some (rest, caps) ->
    (forall j, j < i -> Re.match_here r (PyStr.drop j s) = None) ->
    Re.search_from r s pos =
    Some (Re.mkMatch (pos + i)
            (PyStr.take (String.length (PyStr.drop i s) - String.length rest)
                        (PyStr.drop i s)) caps).
Proof.
  induction i as [|i IH]; intros s pos rest caps Hi Hm Hfirst.
  - simpl in Hm. rewrite search_from_eq, Hm. now rewrite Nat.add_0_r.
  - destruct s as [|c s]; [simpl in Hi; lia|].
    rewrite search_from_eq.
    pose proof (Hfirst 0 ltac:(lia)) as H0. simpl in H0. rewrite H0.
    rewrite drop_S in *.
    rewrite (IH s (S pos) rest caps); simpl in *; try lia; auto.
    + do 2 f_equal. lia.
    + intros j Hj. apply (Hfirst (S j)). lia.
Qed.

Lemma search_from_none (r : Re.regex) :
  forall s pos,
    (forall i, i <= String.length s -> Re.match_here r (PyStr.drop i s) = None) ->
    Re.search_from r s pos = None.
Proof.
  induction s as [|c s IH]; intros pos H; rewrite search_from_eq.
  - pose proof (H 0 ltac:(simpl; lia)) as H0. simpl in H0. now rewrite H0.
  - pose proof (H 0 ltac:(simpl; lia)) as H0. simpl in H0. rewrite H0.
    apply IH. intros i Hi. apply (H (S i)). simpl; lia.
Qed.

Lemma search_from_inv (r : Re.regex) :
  forall s pos m,
    Re.search_from r s pos = Some m ->
    exists i rest,
      i <= String.length s /\
      Re.match_here r (PyStr.drop i s) = Some (rest, Re.m_groups m) /\
      (forall j, j < i -> Re.match_here r (PyStr.drop j s) = None).
Proof.
  induction s as [|c s IH]; intros pos m H; rewrite search_from_eq in H.
  - destruct (Re.match_here r "") as [[rest caps]|] eqn:E; [|discriminate].
    injection H as <-. exists 0, rest. simpl. repeat split; auto. intros; lia.
  - destruct (Re.match_here r (String c s)) as [[rest caps]|] eqn:E.
    + injection H as <-. exists 0, rest. simpl. repeat split; auto; try lia.
    + destruct (IH _ _ H) as (i & rest & Hi & Hm & Hfirst).
      exists (S i), rest. simpl. repeat split; auto; try lia.
      intros [|j] Hj; simpl; auto. apply Hfirst. lia.
Qed.

Lemma length_set_cap (g : nat) (x : option string) (caps : Re.captures) :
  List.length (Re.set_cap g x caps) = List.length caps.
Proof.
  revert g; induction caps as [|c caps IH]; intros [|g]; simpl; auto.
Qed.

Lemma iterate_keeps (L : nat)
      (body : string -> Re.captures -> Re.cont -> option (string * Re.captures)) :
  (forall k, keeps L k -> keeps L (fun s caps => body s caps k)) ->
  forall n k, keeps L k -> keeps L (Re.iterate body k n).
Proof.
  intros Hbody n; induction n as [|n IH]; intros k Hk s caps res Hlen H; simpl in H.
  - eapply Hk; eauto.
  - destruct (body s caps _) as [x|] eqn:E.
    + injection H as <-.
      refine (Hbody _ _ s caps x Hlen E).
      intros s' caps' res' Hlen' H'.
      destruct (String.length s' <? String.length s).
      * eapply IH; eauto.
      * eapply Hk; eauto.
    + eapply Hk; eauto.
Qed.

Lemma rmatch_keeps (L : nat) :
  forall r g k, keeps L k -> keeps L (fun s caps => Re.rmatch r g s caps k).
Proof.
  induction r; intros g k Hk s caps res Hlen H;
    cbn [Re.rmatch] in H.
  - eapply Hk; eauto.
  - destruct s as [|a s]; [discriminate|].
    destruct (Ascii.eqb a c); [eapply Hk; eauto | discriminate].
  - destruct s as [|a s]; [discriminate|].
    destruct (Ascii.eqb a "010"); [discriminate | eapply Hk; eauto].
  - destruct s as [|a s]; [discriminate|].
    destruct (PyStr.is_digit a); [eapply Hk; eauto | discriminate].
  - refine (IHr1 g _ _ s caps res Hlen H). now apply IHr2.
  - destruct (Re.rmatch r1 g s caps k) as [x|] eqn:E.
    + injection H as <-. eapply (IHr1 g k Hk); eauto.
    + eapply (IHr2 _ k Hk); eauto.
  - exact (iterate_keeps L (Re.rmatch r g) (fun k Hk => IHr g k Hk)
                         _ k Hk s caps res Hlen H).
  - refine (IHr g _ _ s caps res Hlen H).
    intros s' caps' res' Hlen' H'.
    destruct (String.length s' <? String.length s).
    + exact (iterate_keeps L (Re.rmatch r g) (fun k Hk => IHr g k Hk)
                           _ k Hk s' caps' res' Hlen' H').
    + eapply Hk; eauto.
  - destruct (Re.rmatch r g s caps k) as [x|] eqn:E.
    + injection H as <-. eapply (IHr g k Hk); eauto.
    + eapply Hk; eauto.
  - refine (IHr (S g) _ _ s caps res Hlen H).
    intros s' caps' res' Hlen' H'.
    eapply Hk; [|exact H']. now rewrite length_set_cap.
Qed.

(** A match carries one entry per group of the pattern. *)
Lemma match_here_groups (r : Re.regex) (s rest : string) (caps : Re.captures) :
  Re.match_here r s = Some (rest, caps) -> List.length caps = Re.ngroups r.
Proof.
  intros H.
  refine (rmatch_keeps (Re.ngroups r) r 0 _ _ s _ (rest, caps) _ H).
  - intros s' caps' res Hlen E. now injection E as <-.
  - apply repeat_length.
Qed.

Lemma search_groups (r : Re.regex) (s : string) (m : Re.Match) :
  Re.search r s = Some m -> List.length (Re.m_groups m) = Re.ngroups r.
Proof.
  intros H. destruct (search_from_inv _ _ _ _ H) as (i & rest & _ & Hm & _).
  eapply match_here_groups; eauto.
Qed.

(** ** The bound on iterations is never reached

    A repetition starts with more fuel than the subject has characters and
    spends one unit only on an iteration that consumed a character, so the
    result does not depend on the amount of fuel. *)

Lemma iterate_ext (body : string -> Re.captures -> Re.cont -> option (string * Re.captures)) :
  (forall s caps k k',
      (forall s' caps', String.length s' <= String.length s -> k s' caps' = k' s' caps') ->
      body s caps k = body s caps k') ->
  forall n s caps k k',
    (forall s' caps', String.length s' <= String.length s -> k s' caps' = k' s' caps') ->
    Re.iterate body k n s caps = Re.iterate body k' n s caps.
Proof.
  intros Hbody n; induction n as [|n IH]; intros s caps k k' Hk; simpl.
  - apply Hk. lia.
  - rewrite (Hk s caps) by lia.
    erewrite Hbody; [reflexivity|].
    intros s' caps' Hle. cbv beta.
    destruct (Nat.ltb_spec (String.length s') (String.length s)).
    + apply IH. intros s'' caps'' Hle'. apply Hk. lia.
    + apply Hk. lia.
Qed.

Lemma rmatch_ext :
  forall r g s caps k k',
    (forall s' caps', String.length s' <= String.length s -> k s' caps' = k' s' caps') ->
    Re.rmatch r g s caps k = Re.rmatch r g s caps k'.
Proof.
  induction r; intros g s caps k k' Hk; cbn [Re.rmatch].
  - apply Hk. lia.
  - destruct s as [|a s]; [reflexivity|].
    destruct (Ascii.eqb a c); [apply Hk; simpl; lia | reflexivity].
  - destruct s as [|a s]; [reflexivity|].
    destruct (Ascii.eqb a "010"); [reflexivity | apply Hk; simpl; lia].
  - destruct s as [|a s]; [reflexivity|].
    destruct (PyStr.is_digit a); [apply Hk; simpl; lia | reflexivity].
  - apply IHr1. intros s' caps' Hle. apply IHr2.
    intros s'' caps'' Hle'. apply Hk. lia.
  - rewrite (IHr1 g s caps k k' Hk), (IHr2 (g + Re.ngroups r1) s caps k k' Hk).
    reflexivity.
  - apply (iterate_ext (Re.rmatch r g) (IHr g)). exact Hk.
  - apply IHr. intros s' caps' Hle. cbv beta.
    destruct (Nat.ltb_spec (String.length s') (String.length s)).
    + apply (iterate_ext (Re.rmatch r g) (IHr g)).
      intros s'' caps'' Hle'. apply Hk. lia.
    + apply Hk. lia.
  - rewrite (IHr g s caps k k' Hk), (Hk s caps) by lia. reflexivity.
  - apply IHr. intros s' caps' Hle. cbv beta. apply Hk. lia.
Qed.

Lemma iterate_fuel (r : Re.regex) (g : nat) (k : Re.cont) :
  forall n m s caps,
    String.length s < n -> String.length s < m ->
    Re.iterate (Re.rmatch r g) k n s caps = Re.iterate (Re.rmatch r g) k m s caps.
Proof.
  induction n as [|n IH]; intros m s caps Hn Hm; [lia|].
  destruct m as [|m]; [lia|]. simpl.
  erewrite rmatch_ext; [reflexivity|].
  intros s' caps' Hle. cbv beta.
  destruct (Nat.ltb_spec (String.length s') (String.length s)); [|reflexivity].
  apply IH; lia.
Qed.


(** ** The default pattern *)

Lemma iterate_digit (g : nat) (k : Re.cont) :
  (forall s caps, k s caps <> None) ->
  forall n s caps,
    String.length s < n ->
    Re.iterate (Re.rmatch Re.Digit g) k n s caps = k (skip_digits s) caps.
Proof.
  intros Hk n; induction n as [|n IH]; intros s caps Hn; [lia|].
  destruct s as [|a s]; simpl.
  - destruct (k "" caps); reflexivity.
  - destruct (PyStr.is_digit a).
    + assert (Hlt : (String.length s <? S (String.length s)) = true)
        by (apply Nat.ltb_lt; lia).
      rewrite Hlt, IH by (simpl in Hn; lia).
      destruct (k (skip_digits s) caps) eqn:E; [reflexivity|].
      now apply Hk in E.
    + reflexivity.
Qed.

Lemma take_skip_digits (s : string) :
  String.length (skip_digits s) <= String.length s /\
  PyStr.take (String.length s - String.length (skip_digits s)) s = take_digits s.
Proof.
  induction s as [|c s [IHl IHt]]; [simpl; auto|].
  cbn [skip_digits take_digits].
  destruct (PyStr.is_digit c); cbn [String.length].
  - split; [lia|].
    replace (S (String.length s) - String.length (skip_digits s))
      with (S (String.length s - String.length (skip_digits s))) by lia.
    cbn [PyStr.take]. now rewrite IHt.
  - split; [lia|]. now rewrite Nat.sub_diag.
Qed.

(** [(\d+)] at the head of a string: the longest run of digits there. *)
Lemma match_here_default (s : string) :
  Re.match_here default_index_pattern s =
  match s with
  | String a r =>
      if PyStr.is_digit a
      then Some (skip_digits r, [Some (String a (take_digits r))])
      else None
  | EmptyString => None
  end.
Proof.
  destruct s as [|a r]; [reflexivity|].
  unfold Re.match_here, default_index_pattern. cbn [Re.rmatch Re.ngroups repeat].
  destruct (PyStr.is_digit a); [|reflexivity].
  assert (Hlt : (String.length r <? String.length (String a r)) = true)
    by (apply Nat.ltb_lt; simpl; lia).
  rewrite Hlt.
  etransitivity; [apply (iterate_digit 1); [discriminate | lia]|].
  destruct (take_skip_digits r) as [Hl Ht].
  cbn [Re.set_cap String.length].
  replace (S (String.length r) - String.length (skip_digits r))
    with (S (String.length r - String.length (skip_digits r))) by lia.
  cbn [PyStr.take]. now rewrite Ht.
Qed.

Lemma all_digits_take_digits (s : string) : all_digits (take_digits s) = true.
Proof.
  induction s as [|c s IH]; simpl; [reflexivity|].
  destruct (PyStr.is_digit c) eqn:E; simpl; [now rewrite E|reflexivity].
Qed.

Lemma digit_not_sign (c : ascii) :
  PyStr.is_digit c = true -> Ascii.eqb c "+" = false /\ Ascii.eqb c "-" = false /\
                             Ascii.eqb c "_" = false.
Proof.
  intros H. repeat split.
  all: destruct (Ascii.eqb_spec c "+"), (Ascii.eqb_spec c "-"), (Ascii.eqb_spec c "_");
    subst; try reflexivity; discriminate.
Qed.

(** ** Integer literals *)

Lemma is_c_space_blank (c : ascii) : PyStr.is_c_space c = blank c.
Proof.
  destruct c as [[|] [|] [|] [|] [|] [|] [|] [|]]; reflexivity.
Qed.

Lemma all_chars_ext (p q : ascii -> bool) (s : string) :
  (forall c, p c = q c) -> all_chars p s = all_chars q s.
Proof.
  intros H. induction s as [|c s IH]; simpl; [reflexivity|]. now rewrite H, IH.
Qed.

Lemma all_chars_app (p : ascii -> bool) (a b : string) :
  all_chars p (a ++ b) = all_chars p a && all_chars p b.
Proof.
  induction a as [|c a IH]; simpl; [reflexivity|]. now rewrite IH, andb_assoc.
Qed.

Lemma lstrip_by_pad (p : ascii -> bool) (pad t : string) :
  all_chars p pad = true ->
  PyStr.lstrip_by p (pad ++ t) = PyStr.lstrip_by p t.
Proof.
  induction pad as [|c pad IH]; simpl; intros H; [reflexivity|].
  apply andb_true_iff in H as [-> H]. now apply IH.
Qed.

Lemma lstrip_by_head (p : ascii -> bool) (c : ascii) (r : string) :
  p c = false -> PyStr.lstrip_by p (String c r) = String c r.
Proof. intros H. simpl. now rewrite H. Qed.

Lemma rstrip_by_all (p : ascii -> bool) (pad : string) :
  all_chars p pad = true -> PyStr.rstrip_by p pad = "".
Proof.
  induction pad as [|c pad IH]; simpl; intros H; [reflexivity|].
  apply andb_true_iff in H as [Hc H]. now rewrite (IH H), Hc.
Qed.

Lemma rstrip_by_core (p : ascii -> bool) (core pad : string) :
  all_chars (fun c => negb (p c)) core = true -> all_chars p pad = true ->
  PyStr.rstrip_by p (core ++ pad) = core.
Proof.
  intros Hcore Hpad. induction core as [|c core IH]; simpl.
  - now apply rstrip_by_all.
  - simpl in Hcore. apply andb_true_iff in Hcore as [Hc Hcore].
    rewrite (IH Hcore). apply negb_true_iff in Hc. rewrite Hc.
    now destruct core.
Qed.

(** A core without white space is what is left of it once padded. *)
Lemma strip_by_padded (p : ascii -> bool) (pad1 core pad2 : string) :
  all_chars p pad1 = true -> all_chars (fun c => negb (p c)) core = true ->
  all_chars p pad2 = true ->
  PyStr.rstrip_by p (PyStr.lstrip_by p (pad1 ++ core ++ pad2)) = core.
Proof.
  intros H1 Hc H2. rewrite lstrip_by_pad by assumption.
  destruct core as [|c core].
  - simpl. clear H1 Hc. induction pad2 as [|c pad2 IH]; [reflexivity|].
    simpl in *. apply andb_true_iff in H2 as [-> H2]. now apply IH.
  - pose proof Hc as Hc'. simpl in Hc'. apply andb_true_iff in Hc' as [Hh _].
    apply negb_true_iff in Hh.
    change ((String c core ++ pad2)%string) with (String c (core ++ pad2)).
    rewrite lstrip_by_head by assumption.
    change (String c (core ++ pad2)) with ((String c core ++ pad2)%string).
    now apply rstrip_by_core.
Qed.

Lemma lstrip_by_decompose (p : ascii -> bool) (s : string) :
  exists pad, s = (pad ++ PyStr.lstrip_by p s)%string /\ all_chars p pad = true.
Proof.
  induction s as [|c s (pad & IH & Hpad)]; simpl.
  - exists ""%string. split; reflexivity.
  - destruct (p c) eqn:Hc.
    + exists (String c pad). simpl. rewrite Hc, Hpad. split; [now f_equal | reflexivity].
    + exists ""%string. split; reflexivity.
Qed.

Lemma rstrip_by_decompose (p : ascii -> bool) (s : string) :
  exists pad, s = (PyStr.rstrip_by p s ++ pad)%string /\ all_chars p pad = true.
Proof.
  induction s as [|c s (pad & IH & Hpad)]; simpl.
  - exists ""%string. split; reflexivity.
  - destruct (PyStr.rstrip_by p s) as [|c' r'] eqn:E.
    + destruct (p c) eqn:Hc.
      * exists (String c pad). simpl in IH. subst s. simpl. rewrite Hc, Hpad.
        split; reflexivity.
      * exists pad. simpl in *. split; [now f_equal | assumption].
    + exists pad. split; [|assumption]. simpl. f_equal. exact IH.
Qed.

(** What [int] strips is white space on both sides. *)
Lemma strip_by_decompose (p : ascii -> bool) (s : string) :
  exists pad1 pad2,
    s = (pad1 ++ PyStr.rstrip_by p (PyStr.lstrip_by p s) ++ pad2)%string /\
    all_chars p pad1 = true /\ all_chars p pad2 = true.
Proof.
  destruct (lstrip_by_decompose p s) as (pad1 & H1 & Hp1).
  destruct (rstrip_by_decompose p (PyStr.lstrip_by p s)) as (pad2 & H2 & Hp2).
  exists pad1, pad2. split; [|split; assumption].
  rewrite <- H2. exact H1.
Qed.

Lemma digit_not_blank (c : ascii) : PyStr.is_digit c = true -> blank c = false.
Proof.
  destruct c as [[|] [|] [|] [|] [|] [|] [|] [|]]; intros H;
    try discriminate H; reflexivity.
Qed.

Lemma all_digits_app (a b : string) :
  all_digits (a ++ b) = all_digits a && all_digits b.
Proof.
  induction a as [|c a IH]; simpl; [reflexivity|]. now rewrite IH, andb_assoc.
Qed.

Lemma dec_acc_app (a b : string) :
  forall acc, dec_acc (a ++ b) acc = dec_acc b (dec_acc a acc).
Proof. induction a as [|c a IH]; intros acc; simpl; [reflexivity | apply IH]. Qed.

Lemma take_skip_append (s : string) : (take_digits s ++ skip_digits s)%string = s.
Proof.
  induction s as [|c s IH]; [reflexivity|]. simpl.
  destruct (PyStr.is_digit c); simpl; [now rewrite IH | reflexivity].
Qed.

Lemma skip_digits_head (s : string) (c : ascii) (r : string) :
  skip_digits s = String c r ->
  PyStr.is_digit c = false /\ String.length r < String.length s.
Proof.
  induction s as [|a s IH]; simpl; [discriminate|].
  destruct (PyStr.is_digit a) eqn:Ha.
  - intros H. destruct (IH H). split; [assumption | lia].
  - intros [= -> ->]. split; [assumption | lia].
Qed.

(** [int] reads a group of digits in one go. *)
Lemma digits_acc_group (g rest : string) :
  forall acc prev,
    all_digits g = true ->
    PyStr.digits_acc (g ++ rest) acc prev
    = PyStr.digits_acc rest (dec_acc g acc)
                       (match g with EmptyString => prev | _ => true end).
Proof.
  induction g as [|c g IH]; intros acc prev H; [reflexivity|].
  simpl in H. apply andb_true_iff in H as [Hc Hg].
  change (String c g ++ rest)%string with (String c (g ++ rest)).
  cbn [PyStr.digits_acc dec_acc]. rewrite Hc, (IH _ _ Hg).
  now destruct g.
Qed.

Lemma concat_cons (sep g : string) (groups : list string) :
  groups <> [] ->
  String.concat sep (g :: groups) = (g ++ sep ++ String.concat sep groups)%string.
Proof. destruct groups; [congruence | reflexivity]. Qed.

Lemma all_digits_concat (groups : list string) :
  Forall (fun g => g <> ""%string /\ all_digits g = true) groups ->
  all_digits (String.concat "" groups) = true.
Proof.
  induction 1 as [|g groups [_ Hg] _ IH]; [reflexivity|].
  destruct groups as [|g' groups]; [exact Hg|].
  rewrite concat_cons by discriminate. rewrite all_digits_app, Hg. exact IH.
Qed.

Lemma dec_acc_concat (g : string) (groups : list string) (acc : Z) :
  dec_acc (String.concat "" (g :: groups)) acc
  = dec_acc (String.concat "" groups) (dec_acc g acc).
Proof.
  destruct groups as [|g' groups]; [reflexivity|].
  rewrite concat_cons by discriminate. now rewrite dec_acc_app.
Qed.

(** Groups of digits joined by underscores are read as their digits. *)
Lemma digits_acc_groups (groups : list string) :
  forall acc,
    groups <> [] ->
    Forall (fun g => g <> ""%string /\ all_digits g = true) groups ->
    PyStr.digits_acc (String.concat "_" groups) acc false
    = Some (dec_acc (String.concat "" groups) acc).
Proof.
  induction groups as [|g groups IH]; intros acc Hne H; [congruence|].
  inversion H as [|? ? [Hg Hd] Hrest]; subst.
  rewrite dec_acc_concat.
  destruct groups as [|g' groups].
  - cbn [String.concat].
    rewrite <- (append_empty_r g) at 1.
    rewrite digits_acc_group by assumption.
    destruct g; [congruence | reflexivity].
  - rewrite concat_cons by discriminate.
    rewrite digits_acc_group by assumption.
    destruct g as [|c g]; [congruence|].
    cbn [append PyStr.digits_acc]. change (PyStr.is_digit "_") with false.
    change (Ascii.eqb "_" "_") with true. cbv iota.
    apply IH; [discriminate | assumption].
Qed.

(** Conversely, what [int] reads is made of such groups. *)
Lemma digits_acc_inv (n : nat) :
  forall body acc z,
    String.length body <= n ->
    PyStr.digits_acc body acc false = Some z ->
    exists groups,
      groups <> [] /\
      Forall (fun g => g <> ""%string /\ all_digits g = true) groups /\
      body = String.concat "_" groups /\
      z = dec_acc (String.concat "" groups) acc.
Proof.
  induction n as [|n IH]; intros body acc z Hlen H.
  - destruct body; [discriminate H | simpl in Hlen; lia].
  - destruct body as [|c r]; [discriminate H|].
    destruct (PyStr.is_digit c) eqn:Hc.
    2:{ simpl in H. rewrite Hc in H. destruct (Ascii.eqb c "_"); discriminate H. }
    set (body := String c r) in *.
    assert (Hg : all_digits (take_digits body) = true) by apply all_digits_take_digits.
    assert (Hne : take_digits body <> ""%string)
      by (unfold body; simpl; rewrite Hc; discriminate).
    rewrite <- (take_skip_append body) in H.
    rewrite digits_acc_group in H by assumption.
    destruct (take_digits body) as [|c0 g0] eqn:Eg; [congruence|].
    destruct (skip_digits body) as [|c' r'] eqn:Es.
    + simpl in H. injection H as <-.
      exists [String c0 g0]. split; [discriminate|].
      split; [constructor; [split; [discriminate | assumption] | constructor]|].
      split; [|reflexivity].
      rewrite <- (take_skip_append body), Eg, Es. cbn [String.concat].
      now rewrite append_empty_r.
    + destruct (skip_digits_head _ _ _ Es) as [Hc' Hlt].
      cbn [PyStr.digits_acc] in H. rewrite Hc' in H.
      destruct (Ascii.eqb_spec c' "_") as [-> | ]; [|discriminate H].
      assert (Hr : String.length r' <= n) by lia.
      destruct (IH r' _ z Hr H) as (groups & Hgne & Hall & Hbody & Hz).
      exists (String c0 g0 :: groups). split; [discriminate|].
      split; [constructor; [split; [discriminate | assumption] | assumption]|].
      split.
      * rewrite concat_cons by assumption.
        rewrite <- (take_skip_append body), Eg, Es. now rewrite Hbody.
      * now rewrite dec_acc_concat.
Qed.

Lemma horner_pos (d : Decimal.uint) :
  forall acc, Z.pos (Pos.of_uint_acc d acc) = horner d (Z.pos acc).
Proof.
  induction d; intros acc; cbn [Pos.of_uint_acc horner]; rewrite ?IHd;
    try reflexivity; f_equal; lia.
Qed.

Lemma horner_of_uint (d : Decimal.uint) : Z.of_uint d = horner d 0.
Proof.
  unfold Z.of_uint.
  induction d; simpl; try assumption; try reflexivity; apply horner_pos.
Qed.

Lemma all_digits_string_of_uint (d : Decimal.uint) :
  all_digits (NilEmpty.string_of_uint d) = true.
Proof. induction d; simpl; auto. Qed.

Lemma dec_acc_uint (d : Decimal.uint) :
  forall acc, dec_acc (NilEmpty.string_of_uint d) acc = horner d acc.
Proof.
  induction d; intros acc;
    try (cbn [NilEmpty.string_of_uint dec_acc horner];
         rewrite IHd; f_equal; unfold PyStr.digit_val; simpl; lia).
  reflexivity.
Qed.

Lemma digits_acc_uint (d : Decimal.uint) :
  forall acc prev,
    d <> Decimal.Nil \/ prev = true ->
    PyStr.digits_acc (NilEmpty.string_of_uint d) acc prev = Some (horner d acc).
Proof.
  induction d; intros acc prev H;
    try (cbn [NilEmpty.string_of_uint PyStr.digits_acc horner];
         match goal with
         | |- context [PyStr.is_digit ?c] =>
             change (PyStr.is_digit c) with true; cbv iota
         end;
         rewrite IHd by auto; do 2 f_equal;
         unfold PyStr.digit_val; simpl; lia).
  simpl. destruct H as [H | ->]; [congruence | reflexivity].
Qed.

Lemma is_digit_char (c : ascii) (d : Decimal.uint) :
  PyStr.is_digit c = true -> exists d', uint_of_char c (Some d) = Some d'.
Proof.
  destruct c as [[|] [|] [|] [|] [|] [|] [|] [|]]; intros H;
    try discriminate H; simpl; eauto.
Qed.

Lemma all_digits_numeral (s : string) :
  all_digits s = true -> exists u, NilEmpty.uint_of_string s = Some u.
Proof.
  induction s as [|c s IH]; simpl; intros H; [eauto|].
  apply andb_true_iff in H as [Hc Hs].
  destruct (IH Hs) as [u ->]. now apply is_digit_char.
Qed.

(** A string the standard library reads as a decimal numeral is made of
    digits, and its value is the one [int] accumulates. *)
Lemma numeral_dec_acc (s : string) (u : Decimal.uint) :
  NilEmpty.uint_of_string s = Some u ->
  all_digits s = true /\ dec_acc s 0 = Z.of_uint u.
Proof.
  intros H. apply NilEmpty.sus in H. subst s. split.
  - apply all_digits_string_of_uint.
  - now rewrite dec_acc_uint, horner_of_uint.
Qed.

Lemma digits_groups (groups : list string) :
  Forall (fun g => g <> ""%string) groups ->
  all_digits (String.concat "" groups) = true ->
  Forall (fun g => g <> ""%string /\ all_digits g = true) groups.
Proof.
  induction 1 as [|g groups Hg _ IH]; intros H; [constructor|].
  destruct groups as [|g' groups].
  - constructor; [split; assumption | constructor].
  - rewrite concat_cons in H by discriminate.
    rewrite all_digits_app in H. apply andb_true_iff in H as [H1 H2].
    constructor; [split; assumption | now apply IH].
Qed.

Lemma groups_not_blank (groups : list string) :
  Forall (fun g => g <> ""%string /\ all_digits g = true) groups ->
  all_chars (fun c => negb (PyStr.is_c_space c)) (String.concat "_" groups) = true.
Proof.
  assert (Hd : forall g, all_digits g = true ->
                         all_chars (fun c => negb (PyStr.is_c_space c)) g = true).
  { induction g as [|c g IHg]; simpl; intros H; [reflexivity|].
    apply andb_true_iff in H as [Hc Hg].
    now rewrite is_c_space_blank, (digit_not_blank c Hc), IHg. }
  induction 1 as [|g groups [_ Hg] _ IH]; [reflexivity|].
  destruct groups as [|g' groups]; [now apply Hd|].
  rewrite concat_cons by discriminate.
  rewrite !all_chars_app, (Hd g Hg), IH. reflexivity.
Qed.

Lemma groups_head (groups : list string) :
  groups <> [] ->
  Forall (fun g => g <> ""%string /\ all_digits g = true) groups ->
  exists c r, String.concat "_" groups = String c r /\ PyStr.is_digit c = true.
Proof.
  intros Hne H. destruct H as [|g groups [Hg Hd] _]; [congruence|].
  destruct g as [|c g]; [congruence|].
  simpl in Hd. apply andb_true_iff in Hd as [Hc _].
  destruct groups as [|g' groups].
  - exists c, g. split; [reflexivity | assumption].
  - rewrite concat_cons by discriminate. exists c. eexists. split; [reflexivity | assumption].
Qed.

(** [int] accepts exactly the integer literals, with their values. *)
Lemma int_spec (s : string) (z : Z) : PyStr.int s = Some z <-> int_literal s z.
Proof.
  split.
  - intros H. unfold PyStr.int in H.
    destruct (strip_by_decompose PyStr.is_c_space s) as (pad1 & pad2 & Hs & Hp1 & Hp2).
    rewrite (all_chars_ext _ blank) in Hp1, Hp2 by apply is_c_space_blank.
    destruct (PyStr.rstrip_by PyStr.is_c_space (PyStr.lstrip_by PyStr.is_c_space s))
      as [|c r] eqn:Ecore; [discriminate H|].
    assert (Hread : forall body z',
               PyStr.digits_acc body 0 false = Some z' ->
               exists groups u,
                 body = String.concat "_" groups /\ groups <> [] /\
                 Forall (fun g => g <> ""%string) groups /\
                 NilEmpty.uint_of_string (String.concat "" groups) = Some u /\
                 z' = Z.of_uint u).
    { intros body z' Hz.
      destruct (digits_acc_inv _ body 0 z' (le_n _) Hz)
        as (groups & Hne & Hall & Hbody & Hval).
      destruct (all_digits_numeral _ (all_digits_concat _ Hall)) as [u Hu].
      exists groups, u. split; [assumption|]. split; [assumption|].
      split; [eapply Forall_impl; [|exact Hall]; now intros g [Hg _]|].
      split; [assumption|].
      rewrite Hval. now apply numeral_dec_acc. }
    destruct (Ascii.eqb_spec c "+") as [-> | Hplus].
    + destruct (Hread _ _ H) as (groups & u & Hbody & Hne & Hall & Hu & Hz).
      exists pad1, "+"%string, groups, pad2, u.
      split; [rewrite Hs, Hbody; reflexivity|].
      repeat (split; [assumption|]). left. split; [now right | assumption].
    + destruct (Ascii.eqb_spec c "-") as [-> | Hminus].
      * destruct (PyStr.digits_acc r 0 false) as [z'|] eqn:Ez; [|discriminate H].
        simpl in H. injection H as <-.
        destruct (Hread _ _ Ez) as (groups & u & Hbody & Hne & Hall & Hu & Hz).
        exists pad1, "-"%string, groups, pad2, u.
        split; [rewrite Hs, Hbody; reflexivity|].
        repeat (split; [assumption|]). right. split; [reflexivity | now rewrite Hz].
      * destruct (Hread _ _ H) as (groups & u & Hbody & Hne & Hall & Hu & Hz).
        exists pad1, ""%string, groups, pad2, u.
        split; [rewrite Hs, Hbody; reflexivity|].
        repeat (split; [assumption|]). left. split; [now left | assumption].
  - intros (pad1 & sign & groups & pad2 & u & -> & Hp1 & Hp2 & Hne & Hall & Hu & Hz).
    rewrite (all_chars_ext _ PyStr.is_c_space) in Hp1, Hp2
      by (intros c; symmetry; apply is_c_space_blank).
    destruct (numeral_dec_acc _ _ Hu) as [Hdig Hval].
    pose proof (digits_groups _ Hall Hdig) as Hgroups.
    pose proof (groups_not_blank _ Hgroups) as Hnb.
    pose proof (digits_acc_groups groups 0 Hne Hgroups) as Hacc.
    rewrite Hval in Hacc.
    destruct (groups_head _ Hne Hgroups) as (c & r & Hbody & Hc).
    destruct (digit_not_sign c Hc) as (Hplus & Hminus & _).
    unfold PyStr.int.
    destruct Hz as [[[-> | ->] ->] | [-> ->]].
    + change (""%string ++ String.concat "_" groups ++ pad2)%string
        with (String.concat "_" groups ++ pad2)%string.
      rewrite strip_by_padded by assumption.
      rewrite Hbody in *. now rewrite Hplus, Hminus.
    + rewrite <- (append_assoc "+" _ pad2).
      rewrite strip_by_padded; [| assumption | | assumption].
      * change ("+" ++ String.concat "_" groups)%string
          with (String "+" (String.concat "_" groups)).
        change (Ascii.eqb "+" "+") with true. cbv iota. exact Hacc.
      * rewrite all_chars_app, Hnb. reflexivity.
    + rewrite <- (append_assoc "-" _ pad2).
      rewrite strip_by_padded; [| assumption | | assumption].
      * change ("-" ++ String.concat "_" groups)%string
          with (String "-" (String.concat "_" groups)).
        change (Ascii.eqb "-" "+") with false.
        change (Ascii.eqb "-" "-") with true. cbv iota. now rewrite Hacc.
      * rewrite all_chars_app, Hnb. reflexivity.
Qed.

(** [int] accepts every non-empty run of decimal digits. *)
Lemma int_digits (s : string) :
  s <> "" -> all_digits s = true -> exists z, PyStr.int s = Some z.
Proof.
  intros Hne H. destruct (all_digits_numeral s H) as [u Hu].
  exists (Z.of_uint u). apply int_spec.
  exists ""%string, ""%string, [s], ""%string, u.
  cbn [String.concat]. change (""%string ++ ?x)%string with x. rewrite append_empty_r.
  split; [reflexivity|]. split; [reflexivity|]. split; [reflexivity|].
  split; [discriminate|]. split; [now constructor|]. split; [assumption|].
  left. split; [now left | reflexivity].
Qed.

(** [int] reads an unsigned decimal numeral as the standard library does. *)
Lemma int_numeral (ds : string) (u : Decimal.uint) :
  NilZero.uint_of_string ds = Some u ->
  all_digits ds = true /\ ds <> "" /\
  PyStr.digits_acc ds 0 false = Some (Z.of_uint u) /\
  PyStr.int ds = Some (Z.of_uint u).
Proof.
  intros H.
  assert (Hne : ds <> "") by (intros ->; discriminate).
  assert (Hs : NilEmpty.string_of_uint u = ds).
  { apply NilEmpty.sus. destruct ds; [congruence | exact H]. }
  assert (Hu : u <> Decimal.Nil).
  { intros ->. simpl in Hs. congruence. }
  assert (Hall : all_digits ds = true)
    by (rewrite <- Hs; apply all_digits_string_of_uint).
  assert (Hacc : PyStr.digits_acc ds 0 false = Some (Z.of_uint u)).
  { rewrite <- Hs, digits_acc_uint by auto. now rewrite horner_of_uint. }
  repeat split; auto.
  apply int_spec.
  exists ""%string, ""%string, [ds], ""%string, u.
  cbn [String.concat]. change (""%string ++ ?x)%string with x. rewrite append_empty_r.
  split; [reflexivity|]. split; [reflexivity|]. split; [reflexivity|].
  split; [discriminate|]. split; [now constructor|].
  split; [destruct ds; [congruence | exact H]|].
  left. split; [now left | reflexivity].
Qed.

Lemma uint_string (d : Decimal.uint) :
  exists u, NilZero.uint_of_string (NilZero.string_of_uint d) = Some u /\
            Z.of_uint u = Z.of_uint d.
Proof.
  destruct (Decimal.uint_eq_dec d Decimal.Nil) as [-> | Hd].
  - exists (Decimal.D0 Decimal.Nil). split; reflexivity.
  - exists d. split; [now apply NilZero.usu | reflexivity].
Qed.

(** [int] reads back what [str] prints. *)
Lemma int_of_int (z : Z) : PyStr.int (PyStr.of_int z) = Some z.
Proof.
  unfold PyStr.of_int. destruct z as [|p|p]; [reflexivity| |].
  - cbn [Z.to_int NilZero.string_of_int].
    destruct (uint_string (Pos.to_uint p)) as (u & Hu & Hval).
    destruct (int_numeral _ _ Hu) as (_ & _ & _ & ->).
    rewrite Hval. unfold Z.of_uint. now rewrite DecimalPos.Unsigned.of_to.
  - cbn [Z.to_int NilZero.string_of_int].
    destruct (uint_string (Pos.to_uint p)) as (u & Hu & Hval).
    destruct (int_numeral _ _ Hu) as (Hall & Hne & _ & _).
    apply int_spec.
    exists ""%string, "-"%string, [NilZero.string_of_uint (Pos.to_uint p)],
      ""%string, u.
    cbn [String.concat]. change (""%string ++ ?x)%string with x. rewrite append_empty_r.
    split; [reflexivity|]. split; [reflexivity|]. split; [reflexivity|].
    split; [discriminate|]. split; [now constructor|].
    split.
    + destruct (NilZero.string_of_uint (Pos.to_uint p)); [congruence | exact Hu].
    + right. split; [reflexivity|]. rewrite Hval. unfold Z.of_uint.
      now rewrite DecimalPos.Unsigned.of_to.
Qed.

(** ** Index extraction *)

Lemma clean_name_prefix (prefix rest : string) :
  clean_name (prefix ++ rest) prefix = rest.
Proof.
  unfold clean_name, PyStr.startswith. now rewrite prefix_app, drop_app.
Qed.

Lemma clean_name_other (filename prefix : string) :
  (forall rest, filename <> (prefix ++ rest)%string) ->
  clean_name filename prefix = filename.
Proof.
  intros H. unfold clean_name, PyStr.startswith.
  destruct (String.prefix prefix filename) eqn:E; [|reflexivity].
  exfalso. exact (H _ (prefix_split _ _ E)).
Qed.

Lemma extract_no_match (filename prefix : string) (pat : Re.regex) :
  Re.search pat (clean_name filename prefix) = None ->
  extract_index_from_filename filename prefix pat = Ok None.
Proof. unfold extract_index_from_filename, extract_index_with. now intros ->. Qed.

Lemma extract_match (filename prefix : string) (pat : Re.regex) (m : Re.Match) :
  Re.search pat (clean_name filename prefix) = Some m ->
  extract_index_from_filename filename prefix pat =
  match nth_error (Re.m_groups m) 0 with
  | None => Raise IndexError
  | Some None => Raise TypeError
  | Some (Some text) =>
      match PyStr.int text with
      | Some z => Ok (Some z)
      | None => Raise invalid_literal
      end
  end.
Proof.
  unfold extract_index_from_filename, extract_index_with. intros ->. unfold Re.group.
  destruct (nth_error (Re.m_groups m) 0) as [[text|]|];
    cbn [rbind py_int]; try reflexivity.
  destruct (PyStr.int text); reflexivity.
Qed.

(** With the default pattern the extraction never raises, and it finds a key
    exactly when the search finds a match. *)
Lemma extract_default (filename prefix : string) :
  (Re.search default_index_pattern (clean_name filename prefix) = None /\
   extract_index_from_filename filename prefix default_index_pattern = Ok None) \/
  (exists m z,
      Re.search default_index_pattern (clean_name filename prefix) = Some m /\
      extract_index_from_filename filename prefix default_index_pattern = Ok (Some z)).
Proof.
  destruct (Re.search default_index_pattern (clean_name filename prefix)) as [m|] eqn:E.
  - right. rewrite (extract_match _ _ _ _ E).
    destruct (search_from_inv _ _ _ _ E) as (i & rest & _ & Hm & _).
    rewrite match_here_default in Hm.
    destruct (PyStr.drop i (clean_name filename prefix)) as [|a r]; [discriminate|].
    destruct (PyStr.is_digit a) eqn:Ha; [|discriminate].
    injection Hm as _ <-. simpl.
    destruct (int_digits (String a (take_digits r))) as [z Hz].
    + discriminate.
    + simpl. now rewrite Ha, all_digits_take_digits.
    + rewrite Hz. eauto.
  - left. split; [reflexivity|]. now apply extract_no_match.
Qed.

(** C3: when the file name starts with the prefix, exactly the prefix is
    removed, otherwise the name is matched unchanged; the result is the
    first group of the leftmost match read as a base-10 integer literal
    (and [ValueError] when that text is no such literal), and no key when
    the pattern matches at no position of the (stripped) name.  The reading
    of the group does not depend on how the search is carried out: for
    every search procedure, no match gives no key, and a match whose first
    group is an integer literal gives the value of that literal. *)
Theorem extract_index_from_filename_spec
        (filename prefix : string) (index_pattern : Re.regex) :
  (forall rest, filename = (prefix ++ rest)%string ->
                clean_name filename prefix = rest) /\
  ((forall rest, filename <> (prefix ++ rest)%string) ->
   clean_name filename prefix = filename) /\
  (forall i rest caps text z,
      i <= String.length (clean_name filename prefix) ->
      Re.match_here index_pattern (PyStr.drop i (clean_name filename prefix))
        = Some (rest, caps) ->
      (forall j, j < i ->
         Re.match_here index_pattern (PyStr.drop j (clean_name filename prefix)) = None) ->
      nth_error caps 0 = Some (Some text) ->
      int_literal text z ->
      extract_index_from_filename filename prefix index_pattern = Ok (Some z)) /\
  (forall i rest caps text,
      i <= String.length (clean_name filename prefix) ->
      Re.match_here index_pattern (PyStr.drop i (clean_name filename prefix))
        = Some (rest, caps) ->
      (forall j, j < i ->
         Re.match_here index_pattern (PyStr.drop j (clean_name filename prefix)) = None) ->
      nth_error caps 0 = Some (Some text) ->
      (forall z, ~ int_literal text z) ->
      extract_index_from_filename filename prefix index_pattern
      = Raise invalid_literal) /\
  ((forall i, i <= String.length (clean_name filename prefix) ->
      Re.match_here index_pattern (PyStr.drop i (clean_name filename prefix)) = None) ->
   extract_index_from_filename filename prefix index_pattern = Ok None) /\
  (forall search : string -> option Re.Match,
      search (clean_name filename prefix) = None ->
      extract_index_with search filename prefix = Ok None) /\
  (forall (search : string -> option Re.Match) m text z,
      search (clean_name filename prefix) = Some m ->
      nth_error (Re.m_groups m) 0 = Some (Some text) ->
      int_literal text z ->
      extract_index_with search filename prefix = Ok (Some z)).
Proof.
  split; [|split; [|split; [|split; [|split; [|split]]]]].
  - intros rest ->. apply clean_name_prefix.
  - apply clean_name_other.
  - intros i rest caps text z Hi Hm Hfirst Hg Hz.
    pose proof (search_from_first index_pattern i _ 0 rest caps Hi Hm Hfirst) as Hs.
    rewrite (extract_match _ _ _ _ Hs). cbn [Re.m_groups].
    apply int_spec in Hz. now rewrite Hg, Hz.
  - intros i rest caps text Hi Hm Hfirst Hg Hz.
    pose proof (search_from_first index_pattern i _ 0 rest caps Hi Hm Hfirst) as Hs.
    rewrite (extract_match _ _ _ _ Hs). cbn [Re.m_groups]. rewrite Hg.
    destruct (PyStr.int text) as [z|] eqn:E; [|reflexivity].
    apply int_spec in E. now apply Hz in E.
  - intros H. apply extract_no_match. now apply search_from_none.
  - intros search H. unfold extract_index_with. now rewrite H.
  - intros search m text z H Hg Hz. unfold extract_index_with, Re.group.
    rewrite H. cbn [Nat.sub]. rewrite Hg. cbn [rbind py_int].
    apply int_spec in Hz. now rewrite Hz.
Qed.

Lemma extract_index_from_filename_spec_witness :
  clean_name "doc_10.pdf" "doc_" = "10.pdf" /\
  clean_name "doc_10.pdf" "x_" = "doc_10.pdf" /\
  extract_index_from_filename "doc_10.pdf" "doc_" default_index_pattern = Ok (Some 10%Z) /\
  extract_index_from_filename "v1_0.pdf" "v" (Re.Group (Re.Plus (Re.Alt Re.Digit (Re.Chr "_"))))
  = Ok (Some 10%Z) /\
  extract_index_from_filename "a_.pdf" "a" (Re.Group (Re.Chr "_"))
  = Raise invalid_literal /\
  extract_index_from_filename "notes.pdf" "" default_index_pattern = Ok None /\
  extract_index_with (fun _ => None) "doc_10.pdf" "doc_" = Ok None /\
  extract_index_with (fun s => Some (Re.mkMatch 0 s [Some " -7 "%string]))
                     "doc_10.pdf" "doc_" = Ok (Some (-7)%Z).
Proof.
  split; [|split; [|split; [|split; [|split; [|split; [|split]]]]]].
  - apply (proj1 (extract_index_from_filename_spec
                    "doc_10.pdf" "doc_" default_index_pattern)).
    reflexivity.
  - apply (proj1 (proj2 (extract_index_from_filename_spec
                           "doc_10.pdf" "x_" default_index_pattern))).
    intros rest H. simpl in H. discriminate.
  - apply (proj1 (proj2 (proj2 (extract_index_from_filename_spec
                                  "doc_10.pdf" "doc_" default_index_pattern)))
             0 ".pdf" [Some "10"] "10" 10%Z).
    + simpl. lia.
    + reflexivity.
    + intros j Hj. lia.
    + reflexivity.
    + exists ""%string, ""%string, ["10"%string], ""%string,
        (Decimal.D1 (Decimal.D0 Decimal.Nil)).
      split; [reflexivity|]. split; [reflexivity|]. split; [reflexivity|].
      split; [discriminate|].
      split; [constructor; [discriminate | constructor]|].
      split; [reflexivity|]. left. split; [now left | reflexivity].
  - apply (proj1 (proj2 (proj2 (extract_index_from_filename_spec
                                  "v1_0.pdf" "v"
                                  (Re.Group (Re.Plus (Re.Alt Re.Digit (Re.Chr "_")))))))
             0 ".pdf" [Some "1_0"] "1_0" 10%Z).
    + simpl. lia.
    + reflexivity.
    + intros j Hj. lia.
    + reflexivity.
    + exists ""%string, ""%string, ["1"%string; "0"%string], ""%string,
        (Decimal.D1 (Decimal.D0 Decimal.Nil)).
      split; [reflexivity|]. split; [reflexivity|]. split; [reflexivity|].
      split; [discriminate|].
      split; [constructor; [discriminate | constructor; [discriminate | constructor]]|].
      split; [reflexivity|]. left. split; [now left | reflexivity].
  - apply (proj1 (proj2 (proj2 (proj2 (extract_index_from_filename_spec
                                  "a_.pdf" "a" (Re.Group (Re.Chr "_"))))))
             0 ".pdf" [Some "_"] "_").
    + simpl. lia.
    + reflexivity.
    + intros j Hj. lia.
    + reflexivity.
    + intros z Hz. apply int_spec in Hz. discriminate Hz.
  - apply (proj1 (proj2 (proj2 (proj2 (proj2 (extract_index_from_filename_spec
                                  "notes.pdf" "" default_index_pattern)))))).
    intros i Hi. simpl in Hi.
    do 10 (destruct i as [|i]; [reflexivity|]). lia.
  - apply (proj1 (proj2 (proj2 (proj2 (proj2 (proj2
             (extract_index_from_filename_spec
                "doc_10.pdf" "doc_" default_index_pattern))))))
             (fun _ => None)).
    reflexivity.
  - apply (proj2 (proj2 (proj2 (proj2 (proj2 (proj2
             (extract_index_from_filename_spec
                "doc_10.pdf" "doc_" default_index_pattern))))))
             (fun s => Some (Re.mkMatch 0 s [Some " -7 "%string]))
             (Re.mkMatch 0 "10.pdf" [Some " -7 "%string]) " -7 "%string (-7)%Z).
    + reflexivity.
    + reflexivity.
    + exists " "%string, "-"%string, ["7"%string], " "%string,
        (Decimal.D7 Decimal.Nil).
      split; [reflexivity|]. split; [reflexivity|]. split; [reflexivity|].
      split; [discriminate|].
      split; [constructor; [discriminate | constructor]|].
      split; [reflexivity|]. right. split; reflexivity.
Defined.

(** C10: the extraction is total for the default pattern, which has a
    capture group; a pattern without capture groups makes it raise
    [IndexError] on every name the pattern matches, so a key is only ever
    returned for a pattern with at least one group. *)
Theorem extract_total_needs_group :
  (forall filename prefix,
      exists k, extract_index_from_filename filename prefix default_index_pattern = Ok k) /\
  Re.ngroups default_index_pattern = 1 /\
  (forall filename prefix index_pattern,
      Re.ngroups index_pattern = 0 ->
      Re.search index_pattern (clean_name filename prefix) <> None ->
      extract_index_from_filename filename prefix index_pattern = Raise IndexError) /\
  (forall filename prefix index_pattern k,
      extract_index_from_filename filename prefix index_pattern = Ok (Some k) ->
      1 <= Re.ngroups index_pattern) /\
  (exists filename prefix index_pattern,
      Re.ngroups index_pattern = 0 /\
      Re.search index_pattern (clean_name filename prefix) <> None /\
      extract_index_from_filename filename prefix index_pattern = Raise IndexError).
Proof.
  assert (Hraise : forall filename prefix index_pattern,
             Re.ngroups index_pattern = 0 ->
             Re.search index_pattern (clean_name filename prefix) <> None ->
             extract_index_from_filename filename prefix index_pattern = Raise IndexError).
  { intros filename prefix pat Hg Hs.
    destruct (Re.search pat (clean_name filename prefix)) as [m|] eqn:E; [|congruence].
    rewrite (extract_match _ _ _ _ E).
    pose proof (search_groups _ _ _ E) as Hlen. rewrite Hg in Hlen.
    destruct (Re.m_groups m); [reflexivity | discriminate]. }
  split; [|split; [|split; [|split]]].
  - intros filename prefix.
    destruct (extract_default filename prefix) as [[_ H] | (m & z & _ & H)]; eauto.
  - reflexivity.
  - exact Hraise.
  - intros filename prefix pat k H.
    destruct (Re.ngroups pat) eqn:Hg; [|lia].
    destruct (Re.search pat (clean_name filename prefix)) eqn:E.
    + rewrite Hraise in H; [discriminate | assumption | congruence].
    + rewrite extract_no_match in H by assumption. discriminate.
  - exists "doc_1.pdf", "doc_", (Re.Plus Re.Digit).
    split; [reflexivity|]. split; [discriminate | reflexivity].
Qed.

Lemma extract_total_needs_group_witness :
  extract_index_from_filename "doc_1.pdf" "doc_" (Re.Plus Re.Digit) = Raise IndexError /\
  1 <= Re.ngroups default_index_pattern.
Proof.
  destruct extract_total_needs_group as (_ & _ & Hraise & Hgroup & _).
  split.
  - apply Hraise; [reflexivity | discriminate].
  - apply (Hgroup "doc_1.pdf" "doc_" default_index_pattern 1%Z). reflexivity.
Defined.

(** ** Lists: order of occurrence *)

Section Before.
Context {A : Type}.

Lemma before_in (l : list A) (a b : A) : before l a b -> In a l /\ In b l.
Proof.
  induction 1 as [a b l Hb | c a b l _ [IHa IHb]]; simpl; auto.
Qed.

Lemma nth_error_before (l : list A) :
  forall i j a b,
    i < j -> nth_error l i = Some a -> nth_error l j = Some b -> before l a b.
Proof.
  induction l as [|x l IH]; intros i j a b Hij Ha Hb.
  - destruct i; discriminate.
  - destruct j as [|j]; [lia|]. simpl in Hb.
    destruct i as [|i]; simpl in Ha.
    + injection Ha as ->. constructor. eapply nth_error_In; eauto.
    + apply before_later. apply (IH i j); auto. lia.
Qed.

Lemma before_app_single (l : list A) (k a b : A) :
  before (l ++ [k]) a b -> before l a b \/ (In a l /\ b = k).
Proof.
  induction l as [|x l IH]; simpl; intros H.
  - inversion H as [? ? ? Hin | ? ? ? ? Hb]; subst.
    + destruct Hin.
    + inversion Hb.
  - inversion H as [? ? ? Hin | ? ? ? ? Hb]; subst.
    + apply in_app_or in Hin as [Hin | [-> | []]].
      * left. now constructor.
      * right. auto.
    + destruct (IH Hb) as [Hl | [Ha ->]].
      * left. now apply before_later.
      * right. auto.
Qed.

Lemma before_map {B : Type} (f : A -> B) (l : list A) (a b : A) :
  before l a b -> before (map f l) (f a) (f b).
Proof.
  induction 1; simpl.
  - constructor. now apply in_map.
  - now apply before_later.
Qed.
End Before.

Lemma index_of_in_lt (z : string) (l : list string) :
  In z l -> index_of z l < List.length l.
Proof.
  induction l as [|y l IH]; simpl; [tauto|].
  intros [-> | H].
  - rewrite String.eqb_refl. lia.
  - destruct (String.eqb z y); [lia | apply IH in H; lia].
Qed.

Lemma index_of_app_in (z : string) (l m : list string) :
  In z l -> index_of z (l ++ m) = index_of z l.
Proof.
  induction l as [|y l IH]; simpl; [tauto|].
  intros [-> | H].
  - now rewrite String.eqb_refl.
  - destruct (String.eqb z y); auto.
Qed.

Lemma index_of_app_notin (z : string) (l m : list string) :
  ~ In z l -> index_of z (l ++ m) = List.length l + index_of z m.
Proof.
  induction l as [|y l IH]; simpl; [reflexivity|].
  intros H. destruct (String.eqb_spec z y) as [-> | _].
  - exfalso. auto.
  - f_equal. apply IH. tauto.
Qed.

Lemma index_of_filter_lt (p : string -> bool) (a b : string) (l : list string) :
  p a = true -> p b = true ->
  index_of a (filter p l) < index_of b (filter p l) ->
  index_of a l < index_of b l.
Proof.
  intros Ha Hb. induction l as [|y l IH]; simpl; [lia|].
  destruct (p y) eqn:Hy; simpl.
  - destruct (String.eqb a y), (String.eqb b y); lia.
  - destruct (String.eqb_spec a y) as [-> | _]; [congruence|].
    destruct (String.eqb_spec b y) as [-> | _]; [congruence|].
    intros H. apply IH in H. lia.
Qed.

(** ** The stable sort *)

Section SortedFacts.
Context {A : Type} (key : A -> Z).

Lemma insert_by_perm (x : A) (l : list A) :
  Permutation (insert_by key x l) (x :: l).
Proof.
  induction l as [|y l IH]; simpl; [reflexivity|].
  destruct (key x <=? key y)%Z; [reflexivity|].
  rewrite IH. apply perm_swap.
Qed.

Lemma sorted_perm (l : list A) : Permutation (sorted key l) l.
Proof.
  induction l as [|x l IH]; simpl; [reflexivity|].
  unfold sorted in IH. now rewrite insert_by_perm, IH.
Qed.

Lemma sorted_length (l : list A) : List.length (sorted key l) = List.length l.
Proof. apply Permutation_length, sorted_perm. Qed.

Lemma sorted_in (a : A) (l : list A) : In a (sorted key l) <-> In a l.
Proof.
  split; apply Permutation_in;
    [apply sorted_perm | apply Permutation_sym, sorted_perm].
Qed.

Lemma insert_by_in (a x : A) (l : list A) :
  In a (insert_by key x l) <-> a = x \/ In a l.
Proof.
  split; intros H.
  - apply (Permutation_in _ (insert_by_perm x l)) in H. destruct H; auto.
  - apply (Permutation_in _ (Permutation_sym (insert_by_perm x l))).
    destruct H; [left | right]; auto.
Qed.

Lemma insert_by_sorted (x : A) (l : list A) :
  StronglySorted (le_by key) l -> StronglySorted (le_by key) (insert_by key x l).
Proof.
  induction 1 as [|y l Hs IH Hall]; simpl.
  - constructor; constructor.
  - destruct (Z.leb_spec (key x) (key y)) as [Hle | Hgt].
    + constructor; [now constructor|].
      constructor; [exact Hle|].
      eapply Forall_impl; [|exact Hall].
      unfold le_by. intros; lia.
    + constructor; [exact IH|].
      apply Forall_forall. intros z Hz.
      apply insert_by_in in Hz as [-> | Hz].
      * unfold le_by; lia.
      * rewrite Forall_forall in Hall. auto.
Qed.

Lemma sorted_sorted (l : list A) : StronglySorted (le_by key) (sorted key l).
Proof.
  induction l as [|x l IH]; simpl; [constructor|].
  now apply insert_by_sorted.
Qed.

(** An element put in place only moves past elements of smaller key. *)
Lemma before_insert_by (x a b : A) (l : list A) :
  before (insert_by key x l) a b ->
  before l a b \/ (a = x /\ In b l) \/ (b = x /\ In a l /\ (key a < key x)%Z).
Proof.
  induction l as [|y l IH]; simpl; intros H.
  - inversion H as [? ? ? Hin | ? ? ? ? Hb]; subst; [destruct Hin | inversion Hb].
  - destruct (Z.leb_spec (key x) (key y)) as [Hle | Hgt].
    + inversion H as [? ? ? Hin | ? ? ? ? Hb]; subst; auto.
    + inversion H as [? ? ? Hin | ? ? ? ? Hb]; subst.
      * apply insert_by_in in Hin as [-> | Hin].
        -- right; right. simpl. auto.
        -- left. now constructor.
      * destruct (IH Hb) as [Hl | [[-> Hin] | (-> & Hin & Hlt)]].
        -- left. now apply before_later.
        -- right; left. simpl; auto.
        -- right; right. simpl; auto.
Qed.

(** Stability: elements of equal key keep their relative order. *)
Lemma sorted_stable (l : list A) (a b : A) :
  before (sorted key l) a b -> key a = key b -> before l a b.
Proof.
  intros H Hk. induction l as [|x l IH]; simpl in H.
  - inversion H.
  - apply before_insert_by in H as [Hl | [[-> Hin] | (-> & _ & Hlt)]].
    + apply before_later. auto.
    + constructor. now apply sorted_in.
    + lia.
Qed.
End SortedFacts.

(** ** Dictionaries *)

Lemma dict_set_present (k : string) (v : Z) (d : dict) :
  In k (map fst d) -> map fst (dict_set k v d) = map fst d.
Proof.
  induction d as [|[k' v'] d IH]; simpl; [tauto|].
  intros H. destruct (String.eqb_spec k k') as [-> | Hne]; simpl; [reflexivity|].
  f_equal. apply IH. destruct H; congruence.
Qed.

Lemma dict_set_absent (k : string) (v : Z) (d : dict) :
  ~ In k (map fst d) -> dict_set k v d = d ++ [(k, v)].
Proof.
  induction d as [|[k' v'] d IH]; simpl; [reflexivity|].
  intros H. destruct (String.eqb_spec k k') as [-> | Hne]; [tauto|].
  f_equal. apply IH. tauto.
Qed.

Lemma dict_set_keys (k : string) (v : Z) (d : dict) (z : string) :
  In z (map fst (dict_set k v d)) <-> In z (map fst d) \/ z = k.
Proof.
  induction d as [|[k' v'] d IH]; simpl.
  - intuition.
  - destruct (String.eqb_spec k k') as [-> | Hne]; simpl; intuition.
Qed.

Lemma dict_set_entries (k : string) (v : Z) (d : dict) (e : string * Z) :
  In e (dict_set k v d) -> e = (k, v) \/ In e d.
Proof.
  induction d as [|[k' v'] d IH]; simpl.
  - intros [<- | []]. auto.
  - destruct (String.eqb_spec k k') as [-> | Hne]; simpl.
    + intros [<- | H]; auto.
    + intros [<- | H]; auto. destruct (IH H); auto.
Qed.

Lemma dict_update_snoc (d : dict) (l : list (string * Z)) (k : string) (v : Z) :
  dict_update d (l ++ [(k, v)]) = dict_set k v (dict_update d l).
Proof. unfold dict_update. now rewrite fold_left_app. Qed.

Lemma dict_update_cons (d : dict) (l : list (string * Z)) (k : string) (v : Z) :
  dict_update d ((k, v) :: l) = dict_update (dict_set k v d) l.
Proof. reflexivity. Qed.

Lemma dict_update_keys (l : list (string * Z)) :
  forall d z,
    In z (map fst (dict_update d l)) <-> In z (map fst d) \/ In z (map fst l).
Proof.
  induction l as [|[k v] l IH]; intros d z.
  - simpl. tauto.
  - rewrite dict_update_cons, IH, dict_set_keys. simpl. intuition.
Qed.

Lemma dict_update_entries (l : list (string * Z)) :
  forall d e, In e (dict_update d l) -> In e d \/ In e l.
Proof.
  induction l as [|[k v] l IH]; intros d e H.
  - auto.
  - rewrite dict_update_cons in H. apply IH in H as [H | H].
    + apply dict_set_entries in H as [-> | H]; simpl; auto.
    + simpl; auto.
Qed.

(** With pairwise distinct keys nothing is overwritten. *)
Lemma dict_update_distinct (l : list (string * Z)) :
  forall d, NoDup (map fst d ++ map fst l) -> dict_update d l = d ++ l.
Proof.
  induction l as [|[k v] l IH]; intros d H.
  - simpl. now rewrite app_nil_r.
  - rewrite dict_update_cons. simpl in H.
    pose proof (NoDup_remove_2 _ _ _ H) as Hk.
    rewrite dict_set_absent by (intros Hin; apply Hk, in_or_app; auto).
    rewrite IH.
    + now rewrite <- app_assoc.
    + rewrite map_app, <- app_assoc. simpl.
      replace (map fst d ++ k :: map fst l)
        with (map fst d ++ [k] ++ map fst l) in H by reflexivity.
      exact H.
Qed.

(** The keys of a dictionary stand in the order of their first insertion. *)
Lemma dict_update_order (l : list (string * Z)) (a b : string) :
  before (map fst (dict_update [] l)) a b ->
  index_of a (map fst l) < index_of b (map fst l).
Proof.
  induction l as [|[k v] l IH] using rev_ind; intros H.
  - inversion H.
  - rewrite dict_update_snoc in H. rewrite map_app. simpl.
    destruct (in_dec string_dec k (map fst (dict_update [] l))) as [Hin | Hnin].
    + rewrite dict_set_present in H by assumption.
      destruct (before_in _ _ _ H) as [Ha Hb].
      apply dict_update_keys in Ha as [[] | Ha].
      apply dict_update_keys in Hb as [[] | Hb].
      rewrite !index_of_app_in by assumption. auto.
    + rewrite dict_set_absent in H by assumption.
      rewrite map_app in H. simpl in H.
      apply before_app_single in H as [H | [Ha ->]].
      * destruct (before_in _ _ _ H) as [Ha Hb].
        apply dict_update_keys in Ha as [[] | Ha].
        apply dict_update_keys in Hb as [[] | Hb].
        rewrite !index_of_app_in by assumption. auto.
      * apply dict_update_keys in Ha as [[] | Ha].
        rewrite index_of_app_in by assumption.
        rewrite index_of_app_notin.
        -- pose proof (index_of_in_lt _ _ Ha). lia.
        -- intros Hk. apply Hnin. apply dict_update_keys. auto.
Qed.

(** ** The world *)

Lemma with_stdout_same (w : World) : with_stdout w (stdout w) = w.
Proof. destruct w; reflexivity. Qed.

Lemma with_stdout_twice (w : World) (a b : list string) :
  with_stdout (with_stdout w a) b = with_stdout w b.
Proof. reflexivity. Qed.

(** ** Planning by index *)

Lemma extract_none_iff (f prefix : string) (pat : Re.regex) :
  extract_index_from_filename f prefix pat = Ok None <-> no_match prefix pat f = true.
Proof.
  unfold no_match.
  destruct (Re.search pat (clean_name f prefix)) as [m|] eqn:E.
  - rewrite (extract_match _ _ _ _ E).
    destruct (nth_error (Re.m_groups m) 0) as [[text|]|];
      [destruct (PyStr.int text)|..]; split; discriminate.
  - rewrite (extract_no_match _ _ _ E). tauto.
Qed.

Lemma keyed_pairs_keys (prefix : string) (pat : Re.regex) (files : list string) :
  map fst (keyed_pairs prefix pat files) = filter (has_key prefix pat) files.
Proof.
  induction files as [|f files IH]; simpl; [reflexivity|].
  unfold has_key at 1.
  destruct (extract_index_from_filename f prefix pat) as [[i|]|e]; simpl;
    now rewrite IH.
Qed.

Lemma keyed_pairs_in (prefix : string) (pat : Re.regex) (files : list string)
      (f : string) (k : Z) :
  In (f, k) (keyed_pairs prefix pat files) <->
  In f files /\ extract_index_from_filename f prefix pat = Ok (Some k).
Proof.
  unfold keyed_pairs. rewrite in_flat_map. split.
  - intros (g & Hg & H).
    destruct (extract_index_from_filename g prefix pat) as [[i|]|e] eqn:E;
      simpl in H; try tauto.
    destruct H as [H | []]. injection H as -> ->. auto.
  - intros [Hf E]. exists f. rewrite E. simpl; auto.
Qed.

(** The loop, when no extraction raises: the keyed files are stored in
    listing order and one warning is printed for each of the others. *)
Lemma index_loop_ok (prefix : string) (pat : Re.regex) (files : list string) :
  forall d w,
    (forall f, In f files -> exists k, extract_index_from_filename f prefix pat = Ok k) ->
    index_loop files prefix pat d w =
    (Ok (dict_update d (keyed_pairs prefix pat files)),
     with_stdout w (stdout w ++ map warning (filter (no_match prefix pat) files))).
Proof.
  induction files as [|f files IH]; intros d w H.
  - simpl. unfold ret. now rewrite app_nil_r, with_stdout_same.
  - cbn [index_loop]. unfold bind, lift.
    destruct (H f (or_introl eq_refl)) as [k Hk].
    pose proof (extract_none_iff f prefix pat) as Hnone.
    cbn [keyed_pairs flat_map filter]. rewrite Hk in *.
    destruct k as [i|].
    + destruct (no_match prefix pat f).
      * destruct Hnone as [_ Hn]. discriminate (Hn eq_refl).
      * rewrite IH by (intros; apply H; simpl; auto). reflexivity.
    + destruct Hnone as [Hn _]. rewrite (Hn eq_refl).
      unfold print. rewrite IH by (intros; apply H; simpl; auto).
      cbn [map]. rewrite with_stdout_twice. cbn [stdout with_stdout].
      now rewrite <- app_assoc.
Qed.

(** The loop delivers a dictionary only if no extraction raised. *)
Lemma index_loop_inv (prefix : string) (pat : Re.regex) (files : list string) :
  forall d w d' w',
    index_loop files prefix pat d w = (Ok d', w') ->
    forall f, In f files -> exists k, extract_index_from_filename f prefix pat = Ok k.
Proof.
  induction files as [|f files IH]; intros d w d' w' H g Hg; [destruct Hg|].
  cbn [index_loop] in H. unfold bind, lift in H.
  destruct (extract_index_from_filename f prefix pat) as [k|e] eqn:E; [|discriminate].
  destruct Hg as [<- | Hg]; [eauto|].
  destruct k as [i|].
  - eapply IH; eauto.
  - unfold print in H. eapply IH; eauto.
Qed.

Lemma get_sorted_pdfs_by_index_ok (prefix : string) (pat : Re.regex)
      (files : list string) (w : World) :
  (forall f, In f files -> exists k, extract_index_from_filename f prefix pat = Ok k) ->
  get_sorted_pdfs_by_index files prefix pat w =
  (Ok (sorted snd (dict_update [] (keyed_pairs prefix pat files))),
   with_stdout w (stdout w ++ map warning (filter (no_match prefix pat) files))).
Proof.
  intros H. unfold get_sorted_pdfs_by_index, bind, ret, items.
  now rewrite index_loop_ok.
Qed.

Lemma get_sorted_pdfs_by_index_inv (prefix : string) (pat : Re.regex)
      (files : list string) (w w' : World) (plan : list (string * Z)) :
  get_sorted_pdfs_by_index files prefix pat w = (Ok plan, w') ->
  plan = sorted snd (dict_update [] (keyed_pairs prefix pat files)) /\
  w' = with_stdout w (stdout w ++ map warning (filter (no_match prefix pat) files)).
Proof.
  intros H.
  assert (Hok : forall f, In f files ->
                  exists k, extract_index_from_filename f prefix pat = Ok k).
  { unfold get_sorted_pdfs_by_index, bind in H.
    destruct (index_loop files prefix pat [] w) as [[d|e] w1] eqn:E; [|discriminate].
    eapply index_loop_inv; eauto. }
  rewrite get_sorted_pdfs_by_index_ok in H by assumption.
  injection H as <- <-. auto.
Qed.

Lemma filter_all {A : Type} (p : A -> bool) (l : list A) :
  (forall x, In x l -> p x = true) -> filter p l = l.
Proof.
  induction l as [|x l IH]; simpl; intros H; [reflexivity|].
  rewrite (H x) by auto. f_equal. auto.
Qed.

Lemma filter_none {A : Type} (p : A -> bool) (l : list A) :
  (forall x, In x l -> p x = false) -> filter p l = [].
Proof.
  induction l as [|x l IH]; simpl; intros H; [reflexivity|].
  rewrite (H x) by auto. auto.
Qed.

Lemma keyed_pairs_none (prefix : string) (pat : Re.regex) (files : list string) :
  (forall f, In f files -> no_match prefix pat f = true) ->
  keyed_pairs prefix pat files = [].
Proof.
  induction files as [|f files IH]; simpl; intros H; [reflexivity|].
  destruct (extract_none_iff f prefix pat) as [_ Hn].
  rewrite Hn by auto. simpl. auto.
Qed.

(** Under the default pattern a matching name has a key. *)
Lemma default_match_has_key (prefix f : string) :
  no_match prefix default_index_pattern f = false ->
  exists z, extract_index_from_filename f prefix default_index_pattern = Ok (Some z).
Proof.
  unfold no_match. intros H.
  destruct (extract_default f prefix) as [[Hs _] | (m & z & _ & Hz)]; [|eauto].
  rewrite Hs in H. discriminate.
Qed.

(** C4: for every set of file names, given as a listing without repeats as
    a directory yields it, that all match the default pattern, the index
    plan has as many entries as the listing and its keys are in
    non-decreasing order, and no warning is printed; the listing doc_2.pdf,
    doc_10.pdf, doc_1.pdf with prefix [doc_] gives doc_1.pdf(1),
    doc_2.pdf(2), doc_10.pdf(10). *)
Theorem index_plan_complete_and_sorted :
  (forall files prefix w,
      NoDup files ->
      (forall f, In f files -> no_match prefix default_index_pattern f = false) ->
      exists plan,
        get_sorted_pdfs_by_index files prefix default_index_pattern w = (Ok plan, w) /\
        List.length plan = List.length files /\
        StronglySorted (le_by snd) plan) /\
  (forall w,
      get_sorted_pdfs_by_index ["doc_2.pdf"; "doc_10.pdf"; "doc_1.pdf"] "doc_"
                               default_index_pattern w =
      (Ok [("doc_1.pdf", 1%Z); ("doc_2.pdf", 2%Z); ("doc_10.pdf", 10%Z)], w)).
Proof.
  split; [|reflexivity].
  intros files prefix w Hnd Hall.
  assert (Hkey : forall f, In f files -> has_key prefix default_index_pattern f = true).
  { intros f Hf. unfold has_key.
    destruct (default_match_has_key prefix f (Hall f Hf)) as [z ->]. reflexivity. }
  rewrite get_sorted_pdfs_by_index_ok.
  2:{ intros f Hf. destruct (default_match_has_key prefix f (Hall f Hf)); eauto. }
  rewrite (filter_none _ _ Hall). cbn [map]. rewrite app_nil_r, with_stdout_same.
  eexists. split; [reflexivity|].
  pose proof (keyed_pairs_keys prefix default_index_pattern files) as Hk.
  rewrite (filter_all _ _ Hkey) in Hk.
  split; [|apply sorted_sorted].
  rewrite sorted_length, dict_update_distinct by (simpl; now rewrite Hk).
  simpl. now rewrite <- (length_map fst), Hk.
Qed.

Lemma index_plan_complete_and_sorted_witness :
  exists plan,
    get_sorted_pdfs_by_index ["doc_2.pdf"; "doc_10.pdf"; "doc_1.pdf"] "doc_"
                             default_index_pattern example_world
    = (Ok plan, example_world) /\
    List.length plan = 3 /\ StronglySorted (le_by snd) plan.
Proof.
  apply (proj1 index_plan_complete_and_sorted
               ["doc_2.pdf"; "doc_10.pdf"; "doc_1.pdf"] "doc_" example_world).
  - repeat constructor; simpl; intuition discriminate.
  - intros f [<- | [<- | [<- | []]]]; reflexivity.
Defined.

(** ** The main program *)

Lemma main_listing (args : Args.t) (w : World) (names : list string) :
  fs_listdir w (Args.input_folder args) = Some names ->
  list_pdf_files (Args.input_folder args) w = (Ok (pdf_names names), w).
Proof.
  intros H. unfold list_pdf_files, bind, listdir, ret. now rewrite H.
Qed.

Lemma not_requested (args : Args.t) :
  explicit_requested args = false ->
  Args.custom_order args = None \/ Args.custom_order args = Some "".
Proof.
  unfold explicit_requested, given.
  destruct (Args.custom_order args) as [[|c s]|]; simpl; auto. discriminate.
Qed.

(** C5: a plan delivered by the index strategy holds only listed files with
    the key extracted from their name, holds no file whose name does not
    match the pattern, and one warning was printed for each such file of the
    listing; when no listed PDF matches, the run prints the warnings and the
    report that no valid PDF was found, and ends without writing a file. *)
Theorem index_plan_excludes_unmatched :
  (forall files prefix index_pattern w plan w',
      get_sorted_pdfs_by_index files prefix index_pattern w = (Ok plan, w') ->
      (forall f k, In (f, k) plan ->
                   In f files /\
                   extract_index_from_filename f prefix index_pattern = Ok (Some k)) /\
      (forall f, no_match prefix index_pattern f = true -> ~ In f (map fst plan)) /\
      w' = with_stdout w (stdout w ++
                          map warning (filter (no_match prefix index_pattern) files))) /\
  (forall args w names,
      fs_listdir w (Args.input_folder args) = Some names ->
      pdf_names names <> [] ->
      explicit_requested args = false ->
      (forall f, In f (pdf_names names) ->
                 no_match (Args.prefix args) (Args.index_pattern args) f = true) ->
      exists w',
        main args w = (Ok tt, w') /\
        stdout w' = stdout w ++ map warning (pdf_names names)
                             ++ ["No valid PDFs with index found. Exiting."] /\
        fs_written w' = fs_written w).
Proof.
  split.
  - intros files prefix pat w plan w' H.
    apply get_sorted_pdfs_by_index_inv in H as [-> ->].
    assert (Hin : forall f k,
               In (f, k) (sorted snd (dict_update [] (keyed_pairs prefix pat files))) ->
               In f files /\ extract_index_from_filename f prefix pat = Ok (Some k)).
    { intros f k H. apply sorted_in in H.
      apply dict_update_entries in H as [[] | H]. now apply keyed_pairs_in. }
    split; [exact Hin|]. split; [|reflexivity].
    intros f Hno Hf. apply in_map_iff in Hf as ([f' k] & <- & Hf).
    apply Hin in Hf as [_ Hf]. simpl in Hno.
    apply extract_none_iff in Hno. congruence.
  - intros args w names Hdir Hne Hreq Hall.
    unfold main, bind. rewrite (main_listing _ _ _ Hdir).
    destruct (pdf_names names) as [|f0 files] eqn:Hfiles; [congruence|].
    assert (Hplan : get_sorted_pdfs_by_index (f0 :: files) (Args.prefix args)
                      (Args.index_pattern args) w =
                    (Ok [], with_stdout w (stdout w ++ map warning (f0 :: files)))).
    { rewrite get_sorted_pdfs_by_index_ok.
      - rewrite (keyed_pairs_none _ _ _ Hall), (filter_all _ _ Hall). reflexivity.
      - intros f Hf. exists None. apply extract_none_iff. auto. }
    destruct (not_requested args Hreq) as [-> | ->]; cbn [PyStr.truthy];
      rewrite Hplan; unfold print; eexists; (split; [reflexivity|]);
      cbn [stdout with_stdout fs_written]; now rewrite <- app_assoc.
Qed.

Lemma index_plan_excludes_unmatched_witness :
  (exists w',
      main (Args.mk "in" "out.pdf" "" (Re.Chr "x") None None true) example_world
      = (Ok tt, w') /\
      stdout w' = stdout example_world
                    ++ map warning ["doc_2.pdf"; "doc_10.pdf"; "doc_1.pdf"]
                    ++ ["No valid PDFs with index found. Exiting."] /\
      fs_written w' = fs_written example_world) /\
  ~ In "notes.pdf" (map fst [("doc_1.pdf", 1%Z)]).
Proof.
  split.
  - apply (proj2 index_plan_excludes_unmatched
                 (Args.mk "in" "out.pdf" "" (Re.Chr "x") None None true) example_world
                 ["doc_2.pdf"; "doc_10.pdf"; "notes.txt"; "doc_1.pdf"]).
    + reflexivity.
    + discriminate.
    + reflexivity.
    + intros f [<- | [<- | [<- | []]]]; reflexivity.
  - apply (proj1 (proj2 (proj1 index_plan_excludes_unmatched
                   ["notes.pdf"; "doc_1.pdf"] "doc_" default_index_pattern example_world
                   [("doc_1.pdf", 1%Z)]
                   (with_stdout example_world [warning "notes.pdf"]) eq_refl))).
    reflexivity.
Defined.

(** ** Planning by explicit order *)

Lemma get_sorted_pdfs_by_order_eq (files : list string) (orders : list Z) :
  get_sorted_pdfs_by_order files orders =
  if List.length files =? List.length orders
  then Ok (sorted snd (dict_update [] (combine files orders)))
  else Raise order_count_mismatch.
Proof.
  unfold get_sorted_pdfs_by_order, items.
  destruct (List.length files =? List.length orders); reflexivity.
Qed.

Lemma combine_fst {A B : Type} (l : list A) :
  forall l' : list B, List.length l = List.length l' -> map fst (combine l l') = l.
Proof.
  induction l as [|x l IH]; intros [|y l'] H; simpl in *; try discriminate; auto.
  f_equal. auto.
Qed.

(** C6: planning by explicit order raises the count-mismatch error exactly
    when the number of order values differs from the number of files, and
    delivers a plan otherwise; when the run is given an order list of the
    wrong length, [main] ends with that error and leaves the world as it
    was: nothing is printed and no file is written. *)
Theorem order_count_mismatch_iff :
  (forall files orders,
      get_sorted_pdfs_by_order files orders = Raise order_count_mismatch <->
      List.length orders <> List.length files) /\
  (forall files orders,
      List.length orders = List.length files <->
      exists plan, get_sorted_pdfs_by_order files orders = Ok plan) /\
  (forall args w names order_str orders,
      fs_listdir w (Args.input_folder args) = Some names ->
      pdf_names names <> [] ->
      Args.custom_order args = Some order_str ->
      PyStr.truthy order_str = true ->
      parse_custom_order order_str = Ok orders ->
      List.length orders <> List.length (pdf_names names) ->
      main args w = (Raise order_count_mismatch, w)).
Proof.
  split; [|split].
  - intros files orders. rewrite get_sorted_pdfs_by_order_eq.
    destruct (Nat.eqb_spec (List.length files) (List.length orders)); split;
      try discriminate; try congruence; auto.
  - intros files orders. rewrite get_sorted_pdfs_by_order_eq.
    destruct (Nat.eqb_spec (List.length files) (List.length orders)); split;
      eauto; try congruence.
    intros [plan H]. discriminate.
  - intros args w names order_str orders Hdir Hne Hco Htruthy Hparse Hlen.
    unfold main, bind. rewrite (main_listing _ _ _ Hdir).
    destruct (pdf_names names) as [|f0 files] eqn:Hfiles; [congruence|].
    rewrite Hco, Htruthy. unfold lift. rewrite Hparse.
    rewrite get_sorted_pdfs_by_order_eq.
    destruct (Nat.eqb_spec (List.length (f0 :: files)) (List.length orders));
      [congruence | reflexivity].
Qed.

Lemma order_count_mismatch_iff_witness :
  get_sorted_pdfs_by_order ["file1.pdf"; "file2.pdf"; "file3.pdf"] [3%Z; 1%Z]
  = Raise order_count_mismatch /\
  (exists plan,
      get_sorted_pdfs_by_order ["file1.pdf"; "file2.pdf"; "file3.pdf"] [3%Z; 1%Z; 2%Z]
      = Ok plan) /\
  main (Args.mk "in" "out.pdf" "doc_" default_index_pattern None (Some "3,1") true)
       example_world
  = (Raise order_count_mismatch, example_world).
Proof.
  destruct order_count_mismatch_iff as (Hraise & Hplan & Hmain).
  split; [|split].
  - apply Hraise. simpl. lia.
  - apply Hplan. reflexivity.
  - apply (Hmain _ example_world
                 ["doc_2.pdf"; "doc_10.pdf"; "notes.txt"; "doc_1.pdf"] "3,1" [3%Z; 1%Z]).
    + reflexivity.
    + discriminate.
    + reflexivity.
    + reflexivity.
    + reflexivity.
    + simpl. lia.
Defined.

(** C7: for every listing of N files, without repeats as a directory
    yields it, and every order list of length N, the plan pairs each file
    with its order value, is a permutation of these pairs (so its files are
    a permutation of the listing), and is sorted ascending by order value;
    and when the explicit order is requested, the run does not depend on
    the prefix or the pattern: the index strategy is not consulted. *)
Theorem order_plan_sorted_permutation :
  (forall files orders,
      NoDup files ->
      List.length orders = List.length files ->
      exists plan,
        get_sorted_pdfs_by_order files orders = Ok plan /\
        Permutation plan (combine files orders) /\
        Permutation (map fst plan) files /\
        StronglySorted (le_by snd) plan) /\
  (forall args prefix index_pattern w,
      explicit_requested args = true ->
      main (with_index_options args prefix index_pattern) w = main args w).
Proof.
  split.
  - intros files orders Hnd Hlen.
    rewrite get_sorted_pdfs_by_order_eq.
    rewrite (proj2 (Nat.eqb_eq _ _)) by auto.
    eexists. split; [reflexivity|].
    assert (Hd : dict_update [] (combine files orders) = combine files orders).
    { rewrite dict_update_distinct; [reflexivity|].
      simpl. now rewrite combine_fst by auto. }
    rewrite Hd. split; [apply sorted_perm|]. split; [|apply sorted_sorted].
    rewrite <- (combine_fst files orders) at 2 by auto.
    apply Permutation_map, sorted_perm.
  - intros args prefix pat w Hreq.
    unfold explicit_requested, given in Hreq.
    unfold main, with_index_options. cbn [Args.input_folder Args.output_file
      Args.prefix Args.index_pattern Args.custom_titles Args.custom_order
      Args.force_merge].
    destruct (Args.custom_order args) as [order_str|]; [|discriminate].
    rewrite Hreq. reflexivity.
Qed.

Lemma order_plan_sorted_permutation_witness :
  (exists plan,
      get_sorted_pdfs_by_order ["file1.pdf"; "file2.pdf"; "file3.pdf"] [3%Z; 1%Z; 2%Z]
      = Ok plan /\
      Permutation plan
        (combine ["file1.pdf"; "file2.pdf"; "file3.pdf"] [3%Z; 1%Z; 2%Z]) /\
      Permutation (map fst plan) ["file1.pdf"; "file2.pdf"; "file3.pdf"] /\
      StronglySorted (le_by snd) plan) /\
  main (with_index_options
          (Args.mk "in" "out.pdf" "" default_index_pattern None (Some "3,1,2") true)
          "doc_" (Re.Chr "x")) example_world
  = main (Args.mk "in" "out.pdf" "" default_index_pattern None (Some "3,1,2") true)
         example_world.
Proof.
  split.
  - apply (proj1 order_plan_sorted_permutation).
    + repeat constructor; simpl; intuition discriminate.
    + reflexivity.
  - apply (proj2 order_plan_sorted_permutation). reflexivity.
Defined.

(** ** Stability *)

Lemma plan_order (l : list (string * Z)) (i j : nat) (a b : string * Z) :
  i < j ->
  nth_error (sorted snd (dict_update [] l)) i = Some a ->
  nth_error (sorted snd (dict_update [] l)) j = Some b ->
  snd a = snd b ->
  In (fst a) (map fst l) /\ In (fst b) (map fst l) /\
  index_of (fst a) (map fst l) < index_of (fst b) (map fst l).
Proof.
  intros Hij Ha Hb Hk.
  pose proof (nth_error_before _ _ _ _ _ Hij Ha Hb) as H.
  apply sorted_stable in H; [|exact Hk].
  apply (before_map fst) in H.
  destruct (before_in _ _ _ H) as [Hia Hib].
  apply dict_update_keys in Hia as [[] | Hia].
  apply dict_update_keys in Hib as [[] | Hib].
  repeat split; auto. now apply dict_update_order.
Qed.

(** C8: in a plan of either strategy, of two entries with equal keys the one
    that stands first is the one whose file is listed first (by first
    occurrence of its name in the listing). *)
Theorem plan_is_stable :
  (forall files prefix index_pattern w plan w' i j a b,
      get_sorted_pdfs_by_index files prefix index_pattern w = (Ok plan, w') ->
      i < j -> nth_error plan i = Some a -> nth_error plan j = Some b ->
      snd a = snd b ->
      index_of (fst a) files < index_of (fst b) files) /\
  (forall files orders plan i j a b,
      get_sorted_pdfs_by_order files orders = Ok plan ->
      i < j -> nth_error plan i = Some a -> nth_error plan j = Some b ->
      snd a = snd b ->
      index_of (fst a) files < index_of (fst b) files).
Proof.
  split.
  - intros files prefix pat w plan w' i j a b H Hij Ha Hb Hk.
    apply get_sorted_pdfs_by_index_inv in H as [-> _].
    destruct (plan_order _ _ _ _ _ Hij Ha Hb Hk) as (Hia & Hib & Hlt).
    rewrite keyed_pairs_keys in *.
    apply filter_In in Hia as [_ Hia]. apply filter_In in Hib as [_ Hib].
    eapply index_of_filter_lt; eauto.
  - intros files orders plan i j a b H Hij Ha Hb Hk.
    rewrite get_sorted_pdfs_by_order_eq in H.
    destruct (Nat.eqb_spec (List.length files) (List.length orders)) as [Hlen|];
      [|discriminate].
    injection H as <-.
    destruct (plan_order _ _ _ _ _ Hij Ha Hb Hk) as (_ & _ & Hlt).
    now rewrite combine_fst in Hlt.
Qed.

Lemma plan_is_stable_witness :
  index_of "b7.pdf" ["b7.pdf"; "a3.pdf"; "a7.pdf"]
  < index_of "a7.pdf" ["b7.pdf"; "a3.pdf"; "a7.pdf"] /\
  index_of "y.pdf" ["y.pdf"; "x.pdf"; "z.pdf"]
  < index_of "x.pdf" ["y.pdf"; "x.pdf"; "z.pdf"].
Proof.
  split.
  - apply (proj1 plan_is_stable ["b7.pdf"; "a3.pdf"; "a7.pdf"] "" default_index_pattern
                 example_world
                 [("a3.pdf", 3%Z); ("b7.pdf", 7%Z); ("a7.pdf", 7%Z)] example_world
                 1 2 ("b7.pdf", 7%Z) ("a7.pdf", 7%Z));
      try reflexivity. lia.
  - apply (proj2 plan_is_stable ["y.pdf"; "x.pdf"; "z.pdf"] [2%Z; 2%Z; 1%Z]
                 [("z.pdf", 1%Z); ("y.pdf", 2%Z); ("x.pdf", 2%Z)]
                 1 2 ("y.pdf", 2%Z) ("x.pdf", 2%Z));
      try reflexivity. lia.
Defined.

(** ** The assembler *)

(** The body of the loop on a file that can be read: the file is appended,
    its bookmark is added at the current page and its line is printed. *)
Lemma merge_entry_readable (folder : string) (titles : option (list string))
      (idx : nat) (f : string) (merger : PdfMerger) (cur : Z) (w : World) (p : Z) :
  fs_pdf w (path_div folder f) = Some p ->
  merge_entry folder titles idx f merger cur w =
  (Ok (mkMerger (inputs merger ++ [(path_div folder f, p)])
                (outline merger
                   ++ [(bookmark_title_of titles idx (path_div folder f), cur)])),
   with_stdout w (stdout w
                    ++ [adding_line f (bookmark_title_of titles idx
                                                         (path_div folder f))])).
Proof.
  intros Hf. unfold merge_entry, bind, append. rewrite Hf.
  unfold print, ret, add_outline_item. reflexivity.
Qed.

(** The body of the loop on a file that cannot be read. *)
Lemma merge_entry_unreadable (folder : string) (titles : option (list string))
      (idx : nat) (f : string) (merger : PdfMerger) (cur : Z) (w : World) :
  fs_pdf w (path_div folder f) = None ->
  merge_entry folder titles idx f merger cur w = (Raise (PdfReadError f), w).
Proof.
  intros Hf. unfold merge_entry, bind, append. now rewrite Hf.
Qed.

(** The update of the page counter never yields a number. *)
Lemma last_numPages_raises (merger : PdfMerger) :
  last_numPages merger = Raise AttributeError \/
  last_numPages merger = Raise IndexError.
Proof.
  unfold last_numPages.
  destruct (existsb _ (inputs merger)); [now left | now right].
Qed.

(** A turn of the loop on a file that can be read ends in the update of the
    page counter, which raises; the rest of the plan is not looked at. *)
Lemma merge_loop_readable (folder : string) (titles : option (list string))
      (idx : nat) (f : string) (k : Z) (rest : list (nat * (string * Z)))
      (merger : PdfMerger) (cur : Z) (w : World) (p : Z) :
  fs_pdf w (path_div folder f) = Some p ->
  merge_loop folder titles ((idx, (f, k)) :: rest) merger cur w =
  (Raise (if existsb (fun d => (0 <? snd d)%Z)
                     (inputs merger ++ [(path_div folder f, p)])
          then AttributeError else IndexError),
   with_stdout w (stdout w
                    ++ [adding_line f (bookmark_title_of titles idx
                                                         (path_div folder f))])).
Proof.
  intros Hf. cbn [merge_loop]. unfold bind at 1.
  rewrite (merge_entry_readable _ _ _ _ _ _ _ _ Hf).
  unfold bind, lift, last_numPages. cbn [inputs].
  now destruct (existsb _ _).
Qed.

Lemma merge_loop_unreadable (folder : string) (titles : option (list string))
      (idx : nat) (f : string) (k : Z) (rest : list (nat * (string * Z)))
      (merger : PdfMerger) (cur : Z) (w : World) :
  fs_pdf w (path_div folder f) = None ->
  merge_loop folder titles ((idx, (f, k)) :: rest) merger cur w
  = (Raise (PdfReadError f), w).
Proof.
  intros Hf. cbn [merge_loop]. unfold bind at 1.
  now rewrite (merge_entry_unreadable _ _ _ _ _ _ _ Hf).
Qed.

(** Every run of [merge_pdfs]: the empty plan is written as an empty
    document when the output can be opened; any other plan ends at its first
    file, with the read error of that file or, when the file was appended,
    with the error of the page-counter update. *)
Lemma merge_pdfs_run (folder output : string) (plan : list (string * Z))
      (titles : option (list string)) (w : World) :
  merge_pdfs folder output plan titles w =
  match plan with
  | [] =>
      if fs_writable w output
      then (Ok tt,
            with_stdout (with_written w (fs_written w ++ [(output, mkMerger [] [])]))
                        (stdout w ++ [saved_line output]))
      else (Raise (OSError output), w)
  | (f, _) :: _ =>
      match fs_pdf w (path_div folder f) with
      | Some p =>
          (Raise (if (0 <? p)%Z then AttributeError else IndexError),
           with_stdout w (stdout w
                            ++ [adding_line f (bookmark_title_of titles 0
                                                 (path_div folder f))]))
      | None => (Raise (PdfReadError f), w)
      end
  end.
Proof.
  unfold merge_pdfs. destruct plan as [|[f k] plan].
  - unfold enumerate, bind. cbn [merge_loop List.length seq combine ret].
    unfold write_to, print. destruct (fs_writable w output); reflexivity.
  - unfold enumerate. cbn [List.length seq combine]. unfold bind at 1.
    destruct (fs_pdf w (path_div folder f)) as [p|] eqn:Hf.
    + rewrite (merge_loop_readable _ _ _ _ _ _ _ _ _ _ Hf).
      cbn [inputs app existsb snd orb]. now rewrite orb_false_r.
    + now rewrite (merge_loop_unreadable _ _ _ _ _ _ _ _ _ Hf).
Qed.

(** No run of [merge_pdfs] on a plan that is not empty writes a file, and
    no such run succeeds. *)
Lemma merge_pdfs_nonempty (folder output : string) (plan : list (string * Z))
      (titles : option (list string)) (w : World) :
  plan <> [] ->
  exists e w',
    merge_pdfs folder output plan titles w = (Raise e, w') /\
    fs_written w' = fs_written w.
Proof.
  intros Hne. rewrite merge_pdfs_run.
  destruct plan as [|[f k] plan]; [congruence|].
  destruct (fs_pdf w (path_div folder f)); eexists; eexists; split; reflexivity.
Qed.




Lemma bookmark_title_in_range (ts : list string) (i : nat) (p : Path) (t : string) :
  nth_error ts i = Some t -> bookmark_title_of (Some ts) i p = t.
Proof.
  intros H. unfold bookmark_title_of.
  assert (Hlt : i < List.length ts) by (apply nth_error_Some; congruence).
  rewrite (proj2 (Nat.ltb_lt _ _) Hlt).
  destruct ts as [|t0 ts]; [simpl in Hlt; lia|].
  cbn [List.length Nat.eqb negb andb]. now apply nth_error_nth.
Qed.


(** C1: the running page counter is never advanced.  The expression that
    should give the page count of the file just appended raises on every
    merger; so on every plan whose first file can be read, [merge_pdfs]
    appends that file, adds its bookmark at page 0, prints its line and then
    ends with [AttributeError] ([IndexError] when the file has no page):
    no later entry gets a bookmark, whatever the page counts, and no file
    is written.  The offsets of the claim, the sums of the page counts of
    the entries before, are never computed beyond the first, which is 0. *)
Theorem page_counter_update_raises
        (folder output : string) (f : string) (k : Z) (rest : list (string * Z))
        (titles : option (list string)) (w : World) (p : Z) :
  fs_pdf w (path_div folder f) = Some p ->
  (forall merger n, last_numPages merger <> Ok n) /\
  merge_entry folder titles 0 f (mkMerger [] []) 0%Z w =
  (Ok (mkMerger [(path_div folder f, p)]
                [(bookmark_title_of titles 0 (path_div folder f), 0%Z)]),
   with_stdout w (stdout w
                    ++ [adding_line f (bookmark_title_of titles 0
                                                         (path_div folder f))])) /\
  merge_pdfs folder output ((f, k) :: rest) titles w =
  (Raise (if (0 <? p)%Z then AttributeError else IndexError),
   with_stdout w (stdout w
                    ++ [adding_line f (bookmark_title_of titles 0
                                                         (path_div folder f))])).
Proof.
  intros Hf. split; [|split].
  - intros merger n H. destruct (last_numPages_raises merger) as [E | E];
      rewrite E in H; discriminate.
  - now rewrite (merge_entry_readable _ _ _ _ _ _ _ _ Hf).
  - now rewrite merge_pdfs_run, Hf.
Qed.

Lemma page_counter_update_raises_witness :
  (forall merger n, last_numPages merger <> Ok n) /\
  merge_entry "in" None 0 "doc_1.pdf" (mkMerger [] []) 0%Z example_world =
  (Ok (mkMerger [(mkPath "in" "doc_1.pdf", 3%Z)] [("doc_1", 0%Z)]),
   with_stdout example_world
     ["Adding doc_1.pdf to the merged PDF with bookmark title: 'doc_1'."]) /\
  merge_pdfs "in" "out.pdf"
             [("doc_1.pdf", 1%Z); ("doc_2.pdf", 2%Z); ("doc_10.pdf", 10%Z)]
             None example_world =
  (Raise AttributeError,
   with_stdout example_world
     ["Adding doc_1.pdf to the merged PDF with bookmark title: 'doc_1'."]).
Proof.
  apply (page_counter_update_raises
           "in" "out.pdf" "doc_1.pdf" 1%Z [("doc_2.pdf", 2%Z); ("doc_10.pdf", 10%Z)]
           None example_world 3%Z).
  reflexivity.
Defined.

(** C2: when a file of the plan cannot be read, [merge_pdfs] ends with an
    exception and writes no file; when it is the first file of the plan, the
    exception is the read error of that file and nothing at all is done;
    and whenever a run of [merge_pdfs] did write, it wrote the one output
    file, after the loop, every file of the plan had been read, and the
    written document holds one input and one bookmark per plan entry. *)
Theorem append_failure_writes_nothing
        (folder output : string) (plan : list (string * Z))
        (titles : option (list string)) (w : World) :
  (Exists (fun e => fs_pdf w (path_div folder (fst e)) = None) plan ->
   exists e w',
     merge_pdfs folder output plan titles w = (Raise e, w') /\
     fs_written w' = fs_written w) /\
  (forall f k rest,
      plan = (f, k) :: rest ->
      fs_pdf w (path_div folder f) = None ->
      merge_pdfs folder output plan titles w = (Raise (PdfReadError f), w)) /\
  (forall r w',
      merge_pdfs folder output plan titles w = (r, w') ->
      fs_written w' <> fs_written w ->
      Forall (fun e => fs_pdf w (path_div folder (fst e)) <> None) plan /\
      exists doc,
        r = Ok tt /\
        fs_written w' = fs_written w ++ [(output, doc)] /\
        List.length (inputs doc) = List.length plan /\
        List.length (outline doc) = List.length plan).
Proof.
  split; [|split].
  - intros H. apply merge_pdfs_nonempty. intros ->. inversion H.
  - intros f k rest -> Hf. now rewrite merge_pdfs_run, Hf.
  - intros r w' Hrun Hwritten.
    destruct plan as [|e plan].
    + rewrite merge_pdfs_run in Hrun. split; [constructor|].
      destruct (fs_writable w output); injection Hrun as <- <-.
      * exists (mkMerger [] []). repeat split.
      * exfalso. now apply Hwritten.
    + destruct (merge_pdfs_nonempty folder output (e :: plan) titles w)
        as (e' & w1 & Hrun1 & Hsame); [discriminate|].
      rewrite Hrun1 in Hrun. injection Hrun as <- <-. contradiction.
Qed.

Lemma append_failure_writes_nothing_witness :
  (exists e w',
      merge_pdfs "in" "out.pdf" [("doc_1.pdf", 1%Z); ("gone.pdf", 2%Z)]
                 None example_world = (Raise e, w') /\
      fs_written w' = fs_written example_world) /\
  merge_pdfs "in" "out.pdf" [("gone.pdf", 1%Z); ("doc_1.pdf", 2%Z)] None example_world
  = (Raise (PdfReadError "gone.pdf"), example_world) /\
  (Forall (fun e : string * Z => fs_pdf example_world (path_div "in" (fst e)) <> None)
          [] /\
   exists doc,
     Ok tt = Ok tt /\
     fs_written (with_stdout
                   (with_written example_world [("out.pdf", mkMerger [] [])])
                   [saved_line "out.pdf"])
     = fs_written example_world ++ [("out.pdf", doc)] /\
     List.length (inputs doc) = @List.length (string * Z) [] /\
     List.length (outline doc) = @List.length (string * Z) []).
Proof.
  split; [|split].
  - apply (proj1 (append_failure_writes_nothing
                    "in" "out.pdf" [("doc_1.pdf", 1%Z); ("gone.pdf", 2%Z)]
                    None example_world)).
    apply Exists_cons_tl. apply Exists_cons_hd. reflexivity.
  - apply (proj1 (proj2 (append_failure_writes_nothing
                    "in" "out.pdf" [("gone.pdf", 1%Z); ("doc_1.pdf", 2%Z)]
                    None example_world)) "gone.pdf" 1%Z [("doc_1.pdf", 2%Z)]).
    + reflexivity.
    + reflexivity.
  - apply (proj2 (proj2 (append_failure_writes_nothing
                    "in" "out.pdf" [] None example_world))
             (Ok tt)
             (with_stdout (with_written example_world [("out.pdf", mkMerger [] [])])
                          [saved_line "out.pdf"])).
    + reflexivity.
    + simpl. discriminate.
Defined.



(** ** Scenarios of the specification *)

Example scenario_explicit_order :
  get_sorted_pdfs_by_order ["file1.pdf"; "file2.pdf"; "file3.pdf"] [3%Z; 1%Z; 2%Z]
  = Ok [("file2.pdf", 1%Z); ("file3.pdf", 2%Z); ("file1.pdf", 3%Z)].
Proof. reflexivity. Qed.

Example scenario_parse_order : parse_custom_order "3,1,2" = Ok [3%Z; 1%Z; 2%Z].
Proof. reflexivity. Qed.

Example scenario_one_file_without_digits :
  get_sorted_pdfs_by_index ["doc_2.pdf"; "notes.pdf"; "doc_1.pdf"] "doc_"
                           default_index_pattern example_world
  = (Ok [("doc_1.pdf", 1%Z); ("doc_2.pdf", 2%Z)],
     with_stdout example_world [warning "notes.pdf"]).
Proof. reflexivity. Qed.

(** The run of the three-file scenario: the plan is made and confirmed,
    the first file is appended, and the update of the page counter ends the
    run; no file is written. *)
Example scenario_full_run :
  let args := Args.mk "in" "out.pdf" "doc_" default_index_pattern
                      (Some "One,Two") None false in
  let '(r, w') := main args example_world in
  r = Raise AttributeError /\
  fs_written w' = [] /\
  last (stdout w') "" = "Adding doc_1.pdf to the merged PDF with bookmark title: 'One'.".
Proof. split; [|split]; reflexivity. Qed.

Example scenario_declined :
  let args := Args.mk "in" "out.pdf" "doc_" default_index_pattern None None false in
  let '(r, w') := main args (with_stdin example_world ["no"]) in
  r = Ok tt /\ fs_written w' = [] /\
  last (stdout w') "" = "Merge operation aborted by the user.".
Proof. repeat split; reflexivity. Qed.

Example scenario_regex_groups :
  Re.search (Re.Seq (Re.Group (Re.Plus Re.Any))
                    (Re.Seq (Re.Chr "_") (Re.Group (Re.Star Re.Digit)))) "ab_c_12"
  = Some (Re.mkMatch 0 "ab_c_12" [Some "ab_c"; Some "12"]).
Proof. reflexivity. Qed.

(** * Further properties of the code *)

(** ** Listing the PDF files *)

Lemma take_drop (n : nat) (s : string) :
  (PyStr.take n s ++ PyStr.drop n s)%string = s.
Proof.
  revert s; induction n as [|n IH]; intros [|c s]; simpl; auto. now rewrite IH.
Qed.

Lemma endswith_iff (s suffix : string) :
  PyStr.endswith s suffix = true <-> exists base, s = (base ++ suffix)%string.
Proof.
  unfold PyStr.endswith. split.
  - destruct (Nat.leb_spec (String.length suffix) (String.length s)) as [Hle | Hgt];
      [|discriminate].
    intros H. apply String.eqb_eq in H.
    exists (PyStr.take (String.length s - String.length suffix) s).
    rewrite <- (take_drop (String.length s - String.length suffix) s) at 1.
    now rewrite H.
  - intros [base ->]. rewrite length_append.
    rewrite (proj2 (Nat.leb_le _ _)) by lia.
    replace (String.length base + String.length suffix - String.length suffix)
      with (String.length base) by lia.
    rewrite drop_app. apply String.eqb_refl.
Qed.

Lemma before_filter {A : Type} (p : A -> bool) (l : list A) (a b : A) :
  before (filter p l) a b -> before l a b.
Proof.
  induction l as [|x l IH]; simpl; intros H; [inversion H|].
  destruct (p x) eqn:Hx.
  - inversion H as [? ? ? Hin | ? ? ? ? Hb]; subst.
    + constructor. now apply filter_In in Hin.
    + apply before_later. auto.
  - apply before_later. auto.
Qed.

(** X1: [list_pdf_files] returns, without touching the world, exactly the
    entries of the directory whose name ends in [.pdf], in the order of the
    directory listing and as distinct as the listing is; it raises [OSError]
    when the directory cannot be listed. *)
Theorem list_pdf_files_spec (input_folder : string) (w : World) :
  (forall names,
      fs_listdir w input_folder = Some names ->
      exists files,
        list_pdf_files input_folder w = (Ok files, w) /\
        (forall f, In f files <->
                   In f names /\ exists base, f = (base ++ ".pdf")%string) /\
        (forall a b, before files a b -> before names a b) /\
        (NoDup names -> NoDup files)) /\
  (fs_listdir w input_folder = None ->
   list_pdf_files input_folder w = (Raise (OSError input_folder), w)).
Proof.
  split.
  - intros names H. exists (pdf_names names).
    unfold list_pdf_files, bind, listdir, ret. rewrite H.
    split; [reflexivity|]. split; [|split].
    + intros f. unfold pdf_names. rewrite filter_In, endswith_iff. tauto.
    + intros a b. apply before_filter.
    + apply NoDup_filter.
  - intros H. unfold list_pdf_files, bind, listdir. now rewrite H.
Qed.

Lemma list_pdf_files_spec_witness :
  (exists files,
      list_pdf_files "in" example_world = (Ok files, example_world) /\
      (forall f, In f files <->
                 In f ["doc_2.pdf"; "doc_10.pdf"; "notes.txt"; "doc_1.pdf"] /\
                 exists base, f = (base ++ ".pdf")%string) /\
      (forall a b, before files a b ->
                   before ["doc_2.pdf"; "doc_10.pdf"; "notes.txt"; "doc_1.pdf"] a b) /\
      (NoDup ["doc_2.pdf"; "doc_10.pdf"; "notes.txt"; "doc_1.pdf"] -> NoDup files)) /\
  list_pdf_files "out" example_world = (Raise (OSError "out"), example_world).
Proof.
  split.
  - apply (proj1 (list_pdf_files_spec "in" example_world)). reflexivity.
  - apply (proj2 (list_pdf_files_spec "out" example_world)). reflexivity.
Defined.

(** ** Invariants of the plans *)

Lemma NoDup_snoc {A : Type} (l : list A) (x : A) :
  NoDup l -> ~ In x l -> NoDup (l ++ [x]).
Proof.
  induction 1 as [|y l Hy Hl IH]; simpl; intros Hx.
  - constructor; [tauto | constructor].
  - constructor.
    + intros H. apply in_app_or in H as [H | [-> | []]]; tauto.
    + apply IH. tauto.
Qed.

Lemma dict_set_nodup (k : string) (v : Z) (d : dict) :
  NoDup (map fst d) -> NoDup (map fst (dict_set k v d)).
Proof.
  intros H. destruct (in_dec string_dec k (map fst d)) as [Hin | Hnin].
  - now rewrite dict_set_present.
  - rewrite dict_set_absent, map_app by assumption. now apply NoDup_snoc.
Qed.

(** The keys of a dictionary are pairwise distinct. *)
Lemma dict_update_nodup (l : list (string * Z)) :
  forall d, NoDup (map fst d) -> NoDup (map fst (dict_update d l)).
Proof.
  induction l as [|[k v] l IH]; intros d H; [exact H|].
  rewrite dict_update_cons. apply IH. now apply dict_set_nodup.
Qed.

Lemma get_sorted_pdfs_by_order_inv (files : list string) (orders : list Z)
      (plan : list (string * Z)) :
  get_sorted_pdfs_by_order files orders = Ok plan ->
  List.length files = List.length orders /\
  plan = sorted snd (dict_update [] (combine files orders)).
Proof.
  rewrite get_sorted_pdfs_by_order_eq.
  destruct (Nat.eqb_spec (List.length files) (List.length orders)); [|discriminate].
  intros H. injection H as <-. auto.
Qed.

(** X2: every plan, of either strategy, is in non-decreasing order of key,
    whatever the listing, the prefix and the pattern. *)
Theorem plans_are_sorted :
  (forall files prefix index_pattern w plan w',
      get_sorted_pdfs_by_index files prefix index_pattern w = (Ok plan, w') ->
      StronglySorted (le_by snd) plan) /\
  (forall files orders plan,
      get_sorted_pdfs_by_order files orders = Ok plan ->
      StronglySorted (le_by snd) plan).
Proof.
  split.
  - intros files prefix pat w plan w' H.
    apply get_sorted_pdfs_by_index_inv in H as [-> _]. apply sorted_sorted.
  - intros files orders plan H.
    apply get_sorted_pdfs_by_order_inv in H as [_ ->]. apply sorted_sorted.
Qed.

Lemma plans_are_sorted_witness :
  StronglySorted (le_by snd) [("a3.pdf", 3%Z); ("b7.pdf", 7%Z); ("a7.pdf", 7%Z)] /\
  StronglySorted (le_by snd) [("z.pdf", 1%Z); ("y.pdf", 2%Z); ("x.pdf", 2%Z)].
Proof.
  split.
  - apply (proj1 plans_are_sorted ["b7.pdf"; "a3.pdf"; "a7.pdf"] ""
                 default_index_pattern example_world _ example_world).
    reflexivity.
  - apply (proj2 plans_are_sorted ["y.pdf"; "x.pdf"; "z.pdf"] [2%Z; 2%Z; 1%Z]).
    reflexivity.
Defined.

(** X3: no plan, of either strategy, names a file twice, even when the
    listing does. *)
Theorem plans_name_each_file_once :
  (forall files prefix index_pattern w plan w',
      get_sorted_pdfs_by_index files prefix index_pattern w = (Ok plan, w') ->
      NoDup (map fst plan)) /\
  (forall files orders plan,
      get_sorted_pdfs_by_order files orders = Ok plan ->
      NoDup (map fst plan)).
Proof.
  assert (H : forall l, NoDup (map fst (sorted snd (dict_update [] l)))).
  { intros l.
    apply (Permutation_NoDup (l := map fst (dict_update [] l))).
    - apply Permutation_map, Permutation_sym, sorted_perm.
    - apply dict_update_nodup. constructor. }
  split.
  - intros files prefix pat w plan w' Hp.
    apply get_sorted_pdfs_by_index_inv in Hp as [-> _]. apply H.
  - intros files orders plan Hp.
    apply get_sorted_pdfs_by_order_inv in Hp as [_ ->]. apply H.
Qed.

Lemma plans_name_each_file_once_witness :
  NoDup (map fst [("a1.pdf", 1%Z); ("b2.pdf", 2%Z)]) /\
  NoDup (map fst [("b.pdf", 2%Z); ("a.pdf", 3%Z)]).
Proof.
  split.
  - apply (proj1 plans_name_each_file_once ["b2.pdf"; "a1.pdf"; "b2.pdf"] ""
                 default_index_pattern example_world _ example_world).
    reflexivity.
  - apply (proj2 plans_name_each_file_once ["a.pdf"; "b.pdf"; "a.pdf"]
                 [1%Z; 2%Z; 3%Z]).
    reflexivity.
Defined.

Lemma length_dict_update_le (l : list (string * Z)) :
  forall d, List.length (dict_update d l) <= List.length d + List.length l.
Proof.
  induction l as [|[k v] l IH]; intros d; [simpl; lia|].
  rewrite dict_update_cons. specialize (IH (dict_set k v d)).
  assert (List.length (dict_set k v d) <= S (List.length d)).
  { clear. induction d as [|[k' v'] d IH]; simpl; [lia|].
    destruct (String.eqb k k'); simpl; lia. }
  cbn [List.length]. lia.
Qed.

Lemma filter_partition_length (prefix : string) (pat : Re.regex) (files : list string) :
  (forall f, In f files -> exists k, extract_index_from_filename f prefix pat = Ok k) ->
  List.length (filter (has_key prefix pat) files)
  + List.length (filter (no_match prefix pat) files) = List.length files.
Proof.
  induction files as [|f files IH]; intros H; [reflexivity|].
  cbn [filter]. destruct (H f (or_introl eq_refl)) as [k Hk].
  pose proof (extract_none_iff f prefix pat) as Hn.
  unfold has_key at 1. rewrite Hk in *.
  specialize (IH (fun g Hg => H g (or_intror Hg))).
  destruct k as [i|].
  - destruct (no_match prefix pat f); [destruct Hn as [_ Hn]; discriminate (Hn eq_refl)|].
    simpl. lia.
  - destruct Hn as [Hn _]. rewrite (Hn eq_refl). simpl. lia.
Qed.

(** X4: a plan of the index strategy never has more entries than the
    listing has files left after the skipped ones: its length plus the
    number of files for which a warning is printed is at most the length of
    the listing, and exactly that when the listing names no file twice. *)
Theorem index_plan_length :
  forall files prefix index_pattern w plan w',
    get_sorted_pdfs_by_index files prefix index_pattern w = (Ok plan, w') ->
    List.length plan + List.length (filter (no_match prefix index_pattern) files)
    <= List.length files /\
    (NoDup files ->
     List.length plan + List.length (filter (no_match prefix index_pattern) files)
     = List.length files).
Proof.
  intros files prefix pat w plan w' H.
  assert (Hok : forall f, In f files ->
                  exists k, extract_index_from_filename f prefix pat = Ok k).
  { unfold get_sorted_pdfs_by_index, bind in H.
    destruct (index_loop files prefix pat [] w) as [[d|e] w1] eqn:E; [|discriminate].
    eapply index_loop_inv; eauto. }
  apply get_sorted_pdfs_by_index_inv in H as [-> _].
  pose proof (filter_partition_length prefix pat files Hok) as Hlen.
  pose proof (keyed_pairs_keys prefix pat files) as Hk.
  rewrite sorted_length. split.
  - pose proof (length_dict_update_le (keyed_pairs prefix pat files) []) as Hle.
    rewrite <- (length_map fst (keyed_pairs prefix pat files)), Hk in Hle.
    simpl in Hle. lia.
  - intros Hnd. rewrite dict_update_distinct.
    + simpl. rewrite <- (length_map fst), Hk. exact Hlen.
    + simpl. rewrite Hk. now apply NoDup_filter.
Qed.

Lemma index_plan_length_witness :
  List.length [("doc_1.pdf", 1%Z); ("doc_2.pdf", 2%Z)]
  + List.length (filter (no_match "doc_" default_index_pattern)
                        ["doc_2.pdf"; "notes.pdf"; "doc_1.pdf"])
  = List.length ["doc_2.pdf"; "notes.pdf"; "doc_1.pdf"].
Proof.
  apply (index_plan_length ["doc_2.pdf"; "notes.pdf"; "doc_1.pdf"] "doc_"
           default_index_pattern example_world
           [("doc_1.pdf", 1%Z); ("doc_2.pdf", 2%Z)]
           (with_stdout example_world [warning "notes.pdf"]) eq_refl).
  repeat constructor; simpl; intuition discriminate.
Defined.

(** X5: the explicit strategy drops no file and invents none: the files of
    its plan are exactly the files of the listing. *)
Theorem order_plan_covers_listing (files : list string) (orders : list Z)
        (plan : list (string * Z)) :
  get_sorted_pdfs_by_order files orders = Ok plan ->
  forall f, In f (map fst plan) <-> In f files.
Proof.
  intros H f. apply get_sorted_pdfs_by_order_inv in H as [Hlen ->].
  split; intros Hin.
  - apply (Permutation_in f (Permutation_map fst (sorted_perm snd _))) in Hin.
    apply dict_update_keys in Hin as [[] | Hin].
    now rewrite combine_fst in Hin.
  - apply (Permutation_in f
             (Permutation_map fst (Permutation_sym (sorted_perm snd _)))).
    apply dict_update_keys. right. now rewrite combine_fst.
Qed.

Lemma order_plan_covers_listing_witness :
  In "a.pdf" (map fst [("b.pdf", 2%Z); ("a.pdf", 3%Z)]) <->
  In "a.pdf" ["a.pdf"; "b.pdf"; "a.pdf"].
Proof.
  apply (order_plan_covers_listing ["a.pdf"; "b.pdf"; "a.pdf"] [1%Z; 2%Z; 3%Z]).
  reflexivity.
Defined.

(** X6: planning by index stops at the first file whose key extraction
    raises (a first group that is missing, did not take part, or is not an
    integer): the error is passed on, and only the warnings for the files
    before it have been printed. *)
Theorem index_planning_stops_at_first_error
        (prefix : string) (index_pattern : Re.regex)
        (pre : list string) (f : string) (post : list string) (e : exn) (w : World) :
  (forall g, In g pre ->
             exists k, extract_index_from_filename g prefix index_pattern = Ok k) ->
  extract_index_from_filename f prefix index_pattern = Raise e ->
  get_sorted_pdfs_by_index (pre ++ f :: post) prefix index_pattern w =
  (Raise e,
   with_stdout w (stdout w ++ map warning (filter (no_match prefix index_pattern) pre))).
Proof.
  intros Hpre Hf. unfold get_sorted_pdfs_by_index, bind.
  assert (Hloop : forall d w0,
             index_loop (pre ++ f :: post) prefix index_pattern d w0 =
             (Raise e,
              with_stdout w0 (stdout w0 ++
                 map warning (filter (no_match prefix index_pattern) pre)))).
  { induction pre as [|g pre IH]; intros d w0.
    - cbn [app index_loop filter map]. unfold bind, lift. rewrite Hf.
      now rewrite app_nil_r, with_stdout_same.
    - cbn [app index_loop filter]. unfold bind, lift.
      destruct (Hpre g (or_introl eq_refl)) as [k Hk].
      pose proof (extract_none_iff g prefix index_pattern) as Hnone.
      rewrite Hk in *.
      specialize (IH (fun g' Hg' => Hpre g' (or_intror Hg'))).
      destruct k as [i|].
      + destruct (no_match prefix index_pattern g).
        * destruct Hnone as [_ Hn]. discriminate (Hn eq_refl).
        * apply IH.
      + destruct Hnone as [Hn _]. rewrite (Hn eq_refl).
        unfold print. rewrite IH. cbn [map stdout with_stdout].
        now rewrite <- app_assoc. }
  now rewrite Hloop.
Qed.

Lemma index_planning_stops_at_first_error_witness :
  get_sorted_pdfs_by_index (["notes.pdf"; "doc_1.pdf"] ++ "doc_x2.pdf" :: ["doc_3.pdf"])
                           "doc_" (Re.Group (Re.Plus (Re.Alt Re.Digit (Re.Chr "x"))))
                           example_world =
  (Raise invalid_literal,
   with_stdout example_world
     (stdout example_world ++
      map warning (filter (no_match "doc_" (Re.Group (Re.Plus (Re.Alt Re.Digit (Re.Chr "x")))))
                          ["notes.pdf"; "doc_1.pdf"]))).
Proof.
  apply index_planning_stops_at_first_error.
  - intros g [<- | [<- | []]]; eexists; reflexivity.
  - reflexivity.
Defined.

Lemma dict_set_entries_distinct (k : string) (v : Z) (d : dict) (f : string) (x : Z) :
  NoDup (map fst d) ->
  In (f, x) (dict_set k v d) -> (f = k /\ x = v) \/ (f <> k /\ In (f, x) d).
Proof.
  induction d as [|[k' v'] d IH]; simpl; intros Hnd H.
  - destruct H as [H | []]. injection H as <- <-. auto.
  - inversion Hnd as [|? ? Hk' Hd]; subst.
    destruct (String.eqb_spec k k') as [-> | Hne]; simpl in H.
    + destruct H as [H | H]; [injection H as <- <-; auto|].
      right. split; [|auto]. intros ->. apply Hk'.
      apply in_map_iff. exists (k', x). auto.
    + destruct H as [H | H]; [injection H as <- <-; auto|].
      destruct (IH Hd H) as [? | [? ?]]; auto.
Qed.

(** The value stored under a key is the one given to it last. *)
Lemma dict_update_last (l : list (string * Z)) (f : string) (x : Z) :
  In (f, x) (dict_update [] l) ->
  exists l1 l2, l = l1 ++ (f, x) :: l2 /\ ~ In f (map fst l2).
Proof.
  induction l as [|[k v] l IH] using rev_ind; intros H; [destruct H|].
  rewrite dict_update_snoc in H.
  apply dict_set_entries_distinct in H;
    [|apply dict_update_nodup; constructor].
  destruct H as [[-> ->] | [Hne H]].
  - exists l, []. auto.
  - destruct (IH H) as (l1 & l2 & -> & Hl2).
    exists l1, (l2 ++ [(k, v)]). split.
    + now rewrite <- app_assoc.
    + rewrite map_app. intros Hin. apply in_app_or in Hin as [Hin | Hin]; [auto|].
      simpl in Hin. destruct Hin as [Hk | []]. congruence.
Qed.

(** X7: when the listing names a file more than once, the explicit
    strategy keeps for it the order value given at its last occurrence:
    every plan entry is a (file, order) pair of the listing after which the
    file is not listed again. *)
Theorem order_plan_last_value_wins (files : list string) (orders : list Z)
        (plan : list (string * Z)) (f : string) (x : Z) :
  get_sorted_pdfs_by_order files orders = Ok plan ->
  In (f, x) plan ->
  exists l1 l2, combine files orders = l1 ++ (f, x) :: l2 /\ ~ In f (map fst l2).
Proof.
  intros H Hin. apply get_sorted_pdfs_by_order_inv in H as [_ ->].
  apply sorted_in in Hin. now apply dict_update_last.
Qed.

Lemma order_plan_last_value_wins_witness :
  exists l1 l2,
    combine ["a.pdf"; "b.pdf"; "a.pdf"] [5%Z; 3%Z; 1%Z] = l1 ++ ("a.pdf", 1%Z) :: l2 /\
    ~ In "a.pdf" (map fst l2).
Proof.
  apply (order_plan_last_value_wins ["a.pdf"; "b.pdf"; "a.pdf"] [5%Z; 3%Z; 1%Z]
           [("a.pdf", 1%Z); ("b.pdf", 3%Z)]).
  - reflexivity.
  - simpl. auto.
Defined.

Lemma sorted_id {A : Type} (key : A -> Z) (l : list A) :
  StronglySorted (le_by key) l -> sorted key l = l.
Proof.
  induction 1 as [|x l Hs IH Hall]; [reflexivity|].
  change (sorted key (x :: l)) with (insert_by key x (sorted key l)).
  rewrite IH.
  destruct l as [|y l]; [reflexivity|]. simpl.
  inversion Hall as [|? ? Hxy _]; subst. unfold le_by in Hxy.
  now rewrite (proj2 (Z.leb_le _ _) Hxy).
Qed.

(** X8: a listing of distinct files that is already in non-decreasing order
    of the given order values is planned as it stands. *)
Theorem order_plan_of_sorted_listing (files : list string) (orders : list Z) :
  NoDup files ->
  List.length orders = List.length files ->
  StronglySorted Z.le orders ->
  get_sorted_pdfs_by_order files orders = Ok (combine files orders).
Proof.
  intros Hnd Hlen Hs. rewrite get_sorted_pdfs_by_order_eq.
  rewrite (proj2 (Nat.eqb_eq _ _)) by auto.
  rewrite dict_update_distinct by (simpl; now rewrite combine_fst by auto).
  simpl. f_equal. apply sorted_id.
  clear Hnd. revert files Hlen.
  induction Hs as [|z orders Hs IH Hall]; intros [|f files] Hlen;
    simpl in *; try discriminate; constructor.
  - apply IH. lia.
  - apply Forall_forall. intros [g y] Hin. unfold le_by. simpl.
    apply in_combine_r in Hin. rewrite Forall_forall in Hall. auto.
Qed.

Lemma order_plan_of_sorted_listing_witness :
  get_sorted_pdfs_by_order ["intro.pdf"; "body.pdf"; "end.pdf"] [1%Z; 1%Z; 4%Z]
  = Ok (combine ["intro.pdf"; "body.pdf"; "end.pdf"] [1%Z; 1%Z; 4%Z]).
Proof.
  apply order_plan_of_sorted_listing.
  - repeat constructor; simpl; intuition discriminate.
  - reflexivity.
  - repeat constructor; lia.
Defined.

(** ** Keys under the default pattern *)

Lemma drop_app_le (j : nat) (a b : string) :
  j <= String.length a -> PyStr.drop j (a ++ b)%string = (PyStr.drop j a ++ b)%string.
Proof.
  revert a; induction j as [|j IH]; intros a H; [reflexivity|].
  destruct a as [|c a]; simpl in *; [lia|]. apply IH. lia.
Qed.

Lemma no_digits_drop (j : nat) (s : string) :
  no_digits s = true -> j < String.length s ->
  exists c r, PyStr.drop j s = String c r /\ PyStr.is_digit c = false.
Proof.
  revert s; induction j as [|j IH]; intros [|c s] H Hj; simpl in *; try lia;
    apply andb_true_iff in H as [Hc Hs].
  - exists c, s. split; [reflexivity|]. now apply negb_true_iff.
  - apply IH; [assumption | lia].
Qed.

Lemma take_digits_app (ds post : string) :
  all_digits ds = true -> no_leading_digit post = true ->
  take_digits (ds ++ post) = ds.
Proof.
  intros Hds Hpost. induction ds as [|c ds IH]; simpl in *.
  - destruct post as [|c r]; [reflexivity|]. simpl in *.
    apply negb_true_iff in Hpost. now rewrite Hpost.
  - apply andb_true_iff in Hds as [Hc Hds]. rewrite Hc. f_equal. auto.
Qed.

(** X9: with the default pattern the key is the number written by the
    first run of decimal digits of the name after the prefix, the whole run
    and nothing after it, read as the standard library reads a decimal
    numeral (leading zeros count for nothing). *)
Theorem default_key_is_first_digit_run
        (prefix pre ds post : string) (u : Decimal.uint) :
  no_digits pre = true ->
  NilZero.uint_of_string ds = Some u ->
  no_leading_digit post = true ->
  extract_index_from_filename (prefix ++ pre ++ ds ++ post) prefix default_index_pattern
  = Ok (Some (Z.of_uint u)).
Proof.
  intros Hpre Hds Hpost.
  destruct (int_numeral ds u Hds) as (Hall & Hne & _ & Hint).
  destruct ds as [|a r]; [congruence|].
  pose proof Hall as Ha. simpl in Ha. apply andb_true_iff in Ha as [Ha Hr].
  assert (Hs : Re.search default_index_pattern
                 (clean_name (prefix ++ pre ++ String a r ++ post) prefix)
               = Some (Re.mkMatch (0 + String.length pre)
                         (PyStr.take
                            (String.length (String a r ++ post)
                             - String.length (skip_digits (r ++ post)))
                            (String a r ++ post))
                         [Some (String a r)])).
  { rewrite clean_name_prefix. unfold Re.search.
    rewrite (search_from_first default_index_pattern (String.length pre)
               (pre ++ String a r ++ post) 0
               (skip_digits (r ++ post)) [Some (String a r)]).
    - now rewrite drop_app.
    - rewrite length_append. lia.
    - rewrite drop_app.
      cbn [String.append]. rewrite match_here_default, Ha.
      now rewrite (take_digits_app r post Hr Hpost).
    - intros j Hj. rewrite drop_app_le by lia.
      destruct (no_digits_drop j pre Hpre Hj) as (c & r' & -> & Hc).
      cbn [String.append]. now rewrite match_here_default, Hc. }
  rewrite (extract_match _ _ _ _ Hs). cbn [Re.m_groups nth_error].
  now rewrite Hint.
Qed.

Lemma default_key_is_first_digit_run_witness :
  extract_index_from_filename ("doc_" ++ "v" ++ "007" ++ "b12.pdf") "doc_"
                              default_index_pattern
  = Ok (Some (Z.of_uint (Decimal.D0 (Decimal.D0 (Decimal.D7 Decimal.Nil))))).
Proof.
  apply default_key_is_first_digit_run; reflexivity.
Defined.

Lemma extract_default_key (filename prefix : string) (k : Z) :
  extract_index_from_filename filename prefix default_index_pattern = Ok (Some k) ->
  exists a r,
    PyStr.is_digit a = true /\ PyStr.int (String a (take_digits r)) = Some k.
Proof.
  intros H.
  destruct (Re.search default_index_pattern (clean_name filename prefix))
    as [m|] eqn:E.
  - rewrite (extract_match _ _ _ _ E) in H.
    destruct (search_from_inv _ _ _ _ E) as (i & rest & _ & Hm & _).
    rewrite match_here_default in Hm.
    destruct (PyStr.drop i (clean_name filename prefix)) as [|a r]; [discriminate|].
    destruct (PyStr.is_digit a) eqn:Ha; [|discriminate].
    injection Hm as _ Hg. rewrite <- Hg in H. cbn [nth_error] in H.
    exists a, r. split; [assumption|].
    destruct (PyStr.int (String a (take_digits r))); [|discriminate].
    now injection H as ->.
  - rewrite (extract_no_match _ _ _ E) in H. discriminate.
Qed.

(** X10: a key extracted with the default pattern is never negative. *)
Theorem default_key_nonnegative (filename prefix : string) (k : Z) :
  extract_index_from_filename filename prefix default_index_pattern = Ok (Some k) ->
  (0 <= k)%Z.
Proof.
  intros H. destruct (extract_default_key _ _ _ H) as (a & r & Ha & Hint).
  destruct (all_digits_numeral (String a (take_digits r))) as [u Hu].
  { simpl. now rewrite Ha, all_digits_take_digits. }
  destruct (int_numeral (String a (take_digits r)) u Hu) as (_ & _ & _ & Hint').
  rewrite Hint in Hint'. injection Hint' as ->.
  unfold Z.of_uint. apply N2Z.is_nonneg.
Qed.

Lemma default_key_nonnegative_witness : (0 <= 10)%Z.
Proof.
  apply (default_key_nonnegative "doc_10.pdf" "doc_" 10%Z). reflexivity.
Defined.

(** ** Comma-separated arguments *)

Lemma split_nonempty (c : ascii) (s : string) : PyStr.split c s <> [].
Proof.
  destruct s as [|a s]; simpl; [discriminate|].
  destruct (Ascii.eqb a c); [discriminate|].
  destruct (PyStr.split c s); discriminate.
Qed.

Lemma concat_split (c : ascii) (s : string) :
  String.concat (String c EmptyString) (PyStr.split c s) = s.
Proof.
  induction s as [|a s IH]; [reflexivity|].
  cbn [PyStr.split]. destruct (Ascii.eqb_spec a c) as [-> | Hne].
  - pose proof (split_nonempty c s) as Hs.
    destruct (PyStr.split c s) as [|x xs]; [congruence|].
    change (String.concat (String c "") ("" :: x :: xs))
      with ("" ++ String c "" ++ String.concat (String c "") (x :: xs))%string.
    now rewrite IH.
  - pose proof (split_nonempty c s) as Hs.
    destruct (PyStr.split c s) as [|x xs]; [congruence|].
    destruct xs as [|y ys].
    + simpl in *. now rewrite IH.
    + change (String.concat (String c "") (String a x :: y :: ys))
        with (String a (String.concat (String c "") (x :: y :: ys))).
      now rewrite IH.
Qed.

Lemma split_lacks (c : ascii) (s : string) :
  Forall (fun part => lacks c part = true) (PyStr.split c s).
Proof.
  induction s as [|a s IH]; [repeat constructor|].
  cbn [PyStr.split]. destruct (Ascii.eqb a c) eqn:E.
  - constructor; [reflexivity | assumption].
  - destruct (PyStr.split c s) as [|x xs]; [repeat constructor; simpl; now rewrite E|].
    inversion IH as [|? ? Hx Hxs]; subst.
    constructor; [simpl; now rewrite E, Hx | assumption].
Qed.

Lemma split_field (c : ascii) (x rest : string) :
  lacks c x = true ->
  PyStr.split c (x ++ String c rest) = x :: PyStr.split c rest.
Proof.
  induction x as [|a x IH]; simpl; intros H.
  - now rewrite Ascii.eqb_refl.
  - apply andb_true_iff in H as [Ha Hx]. apply negb_true_iff in Ha.
    rewrite Ha, (IH Hx). reflexivity.
Qed.

Lemma split_last_field (c : ascii) (x : string) :
  lacks c x = true -> PyStr.split c x = [x].
Proof.
  induction x as [|a x IH]; simpl; intros H; [reflexivity|].
  apply andb_true_iff in H as [Ha Hx]. apply negb_true_iff in Ha.
  rewrite Ha, (IH Hx). reflexivity.
Qed.

Lemma split_concat (c : ascii) (parts : list string) :
  parts <> [] ->
  Forall (fun part => lacks c part = true) parts ->
  PyStr.split c (String.concat (String c EmptyString) parts) = parts.
Proof.
  intros Hne H. induction H as [|x xs Hx Hxs IH]; [congruence|].
  destruct xs as [|y ys].
  - simpl. now apply split_last_field.
  - cbn [String.concat]. cbn [String.append].
    rewrite (split_field c x _ Hx). f_equal. apply IH. discriminate.
Qed.

(** X11: the comma-separated fields that [main] takes as custom titles, and
    [parse_custom_order] as order values, are at least one, contain no
    comma, and joined by commas give back the argument; so a title cannot
    contain a comma, and an empty argument part is an empty field. *)
Theorem comma_fields (s : string) :
  PyStr.split "," s <> [] /\
  Forall (fun part => lacks "," part = true) (PyStr.split "," s) /\
  String.concat "," (PyStr.split "," s) = s.
Proof.
  split; [apply split_nonempty|]. split; [apply split_lacks | apply concat_split].
Qed.

(** ** Parsing the explicit order *)

Lemma parse_ints_ok (parts : list string) :
  forall zs,
    parse_ints parts = Ok zs <->
    Forall2 (fun part z => PyStr.int part = Some z) parts zs.
Proof.
  induction parts as [|p parts IH]; intros zs; simpl.
  - split; [intros [= <-]; constructor | intros H; now inversion H].
  - destruct (PyStr.int p) as [z|] eqn:Ep; simpl.
    + destruct (parse_ints parts) as [zs'|e] eqn:E; simpl.
      * split.
        -- intros [= <-]. constructor; [assumption | now apply IH].
        -- intros H. inversion H as [|? z' ? zs'' Hz Hrest]; subst.
           apply IH in Hrest. congruence.
      * split; [discriminate|].
        intros H. inversion H as [|? z' ? zs'' Hz Hrest]; subst.
        apply IH in Hrest. discriminate.
    + split; [discriminate|].
      intros H. inversion H; subst. congruence.
Qed.

Lemma parse_ints_raise (parts : list string) :
  forall e,
    parse_ints parts = Raise e <->
    e = invalid_literal /\ Exists (fun part => PyStr.int part = None) parts.
Proof.
  induction parts as [|p parts IH]; intros e; simpl.
  - split; [discriminate | intros [_ H]; inversion H].
  - destruct (PyStr.int p) as [z|] eqn:Ep; simpl.
    + destruct (parse_ints parts) as [zs'|e'] eqn:E; simpl.
      * split; [discriminate|]. intros [He H].
        inversion H as [? ? Hp | ? ? Hrest]; subst; [congruence|].
        discriminate (proj2 (IH invalid_literal) (conj eq_refl Hrest)).
      * split.
        -- intros [= <-]. destruct (proj1 (IH e') eq_refl) as [-> Hex].
           split; [reflexivity | now apply Exists_cons_tl].
        -- intros [-> H]. destruct (proj1 (IH e') eq_refl) as [-> _]. reflexivity.
    + split.
      * intros [= <-]. split; [reflexivity | now apply Exists_cons_hd].
      * intros [-> _]. reflexivity.
Qed.

(** X12: [parse_custom_order] splits its argument at the commas and reads
    each field as an integer literal: optional white space, an optional
    sign, and decimal digits in groups joined by single underscores.  It
    returns the values of the fields, one per field and in order, exactly
    when every field is such a literal, and raises [ValueError] exactly
    when some field is not; a field with another character in it, were it
    a separator that [str.strip] removes, is not. *)
Theorem parse_custom_order_spec (order_str : string) :
  (forall zs,
      parse_custom_order order_str = Ok zs <->
      Forall2 int_literal (PyStr.split "," order_str) zs) /\
  (forall e,
      parse_custom_order order_str = Raise e <->
      e = invalid_literal /\
      Exists (fun part => forall z, ~ int_literal part z)
             (PyStr.split "," order_str)).
Proof.
  unfold parse_custom_order. split.
  - intros zs. rewrite parse_ints_ok. split; intros H.
    + eapply Forall2_impl; [|exact H]. intros part z Hz. now apply int_spec.
    + eapply Forall2_impl; [|exact H]. intros part z Hz. now apply int_spec.
  - intros e. rewrite parse_ints_raise. split; intros [He H]; (split; [exact He|]).
    + eapply Exists_impl; [|exact H]. intros part Hp z Hz.
      apply int_spec in Hz. congruence.
    + eapply Exists_impl; [|exact H]. intros part Hp.
      destruct (PyStr.int part) as [z|] eqn:E; [|reflexivity].
      apply int_spec in E. now apply Hp in E.
Qed.

Lemma parse_custom_order_spec_witness :
  parse_custom_order " 3,-1,+2_0 " = Ok [3%Z; (-1)%Z; 20%Z] /\
  parse_custom_order "1,,2" = Raise invalid_literal /\
  parse_custom_order (String "031" "5") = Raise invalid_literal.
Proof.
  split; [|split].
  - apply (proj1 (parse_custom_order_spec " 3,-1,+2_0 ")).
    constructor; [|constructor; [|constructor; [|constructor]]].
    + exists " "%string, ""%string, ["3"%string], ""%string, (Decimal.D3 Decimal.Nil).
      split; [reflexivity|]. split; [reflexivity|]. split; [reflexivity|].
      split; [discriminate|]. split; [constructor; [discriminate | constructor]|].
      split; [reflexivity|]. left. split; [now left | reflexivity].
    + exists ""%string, "-"%string, ["1"%string], ""%string, (Decimal.D1 Decimal.Nil).
      split; [reflexivity|]. split; [reflexivity|]. split; [reflexivity|].
      split; [discriminate|]. split; [constructor; [discriminate | constructor]|].
      split; [reflexivity|]. right. split; reflexivity.
    + exists ""%string, "+"%string, ["2"%string; "0"%string], " "%string,
        (Decimal.D2 (Decimal.D0 Decimal.Nil)).
      split; [reflexivity|]. split; [reflexivity|]. split; [reflexivity|].
      split; [discriminate|].
      split; [constructor; [discriminate | constructor; [discriminate | constructor]]|].
      split; [reflexivity|]. left. split; [now right | reflexivity].
  - apply (proj2 (parse_custom_order_spec "1,,2")).
    split; [reflexivity|]. apply Exists_cons_tl, Exists_cons_hd.
    intros z Hz. apply int_spec in Hz. discriminate Hz.
  - apply (proj2 (parse_custom_order_spec (String "031" "5"))).
    split; [reflexivity|]. apply Exists_cons_hd.
    intros z Hz. apply int_spec in Hz. discriminate Hz.
Defined.

Lemma digits_lack_comma (s : string) : all_digits s = true -> lacks "," s = true.
Proof.
  induction s as [|c s IH]; simpl; intros H; [reflexivity|].
  apply andb_true_iff in H as [Hc Hs]. rewrite (IH Hs), andb_true_r.
  apply negb_true_iff. destruct (Ascii.eqb_spec c ","); [subst; discriminate | reflexivity].
Qed.

Lemma of_int_lacks_comma (z : Z) : lacks "," (PyStr.of_int z) = true.
Proof.
  unfold PyStr.of_int. destruct z as [|p|p]; [reflexivity| |];
    cbn [Z.to_int NilZero.string_of_int];
    destruct (uint_string (Pos.to_uint p)) as (u & Hu & _);
    destruct (int_numeral _ _ Hu) as (Hall & _);
    [|cbn [lacks]; change (Ascii.eqb "-" ",") with false; cbn [negb andb]];
    now apply digits_lack_comma.
Qed.

(** X13: order values printed as [str] prints integers and joined by commas
    are parsed back to the same values by [parse_custom_order]; so the key
    shown for a file at the confirmation can be passed back as its explicit
    order. *)
Theorem parse_custom_order_round_trip (zs : list Z) :
  zs <> [] ->
  parse_custom_order (String.concat "," (map PyStr.of_int zs)) = Ok zs.
Proof.
  intros Hne. unfold parse_custom_order.
  rewrite split_concat.
  - clear Hne. induction zs as [|z zs IH]; [reflexivity|].
    cbn [map parse_ints py_int]. rewrite int_of_int. cbn [rbind].
    now rewrite IH.
  - destruct zs; [congruence | discriminate].
  - apply Forall_forall. intros part Hin.
    apply in_map_iff in Hin as (z & <- & _). apply of_int_lacks_comma.
Qed.

Lemma parse_custom_order_round_trip_witness :
  parse_custom_order (String.concat "," (map PyStr.of_int [3%Z; (-12)%Z; 0%Z]))
  = Ok [3%Z; (-12)%Z; 0%Z].
Proof.
  apply parse_custom_order_round_trip. discriminate.
Defined.

(** ** The confirmation *)

Lemma lstrip_spaces (pad t : string) :
  all_spaces pad = true -> PyStr.lstrip (pad ++ t) = PyStr.lstrip t.
Proof.
  induction pad as [|c pad IH]; simpl; intros H; [reflexivity|].
  apply andb_true_iff in H as [Hc Hp]. rewrite Hc. auto.
Qed.

Lemma rstrip_spaces (pad : string) : all_spaces pad = true -> PyStr.rstrip pad = "".
Proof.
  induction pad as [|c pad IH]; simpl; intros H; [reflexivity|].
  apply andb_true_iff in H as [Hc Hp]. now rewrite (IH Hp), Hc.
Qed.

Lemma rstrip_core (core pad : string) :
  no_spaces core = true -> all_spaces pad = true ->
  PyStr.rstrip (core ++ pad) = core.
Proof.
  intros Hcore Hpad. induction core as [|c core IH]; simpl in *.
  - now apply rstrip_spaces.
  - apply andb_true_iff in Hcore as [Hc Hcore]. apply negb_true_iff in Hc.
    rewrite (IH Hcore). destruct core; [now rewrite Hc | reflexivity].
Qed.

Lemma lstrip_all_spaces (pad : string) : all_spaces pad = true -> PyStr.lstrip pad = "".
Proof.
  induction pad as [|c pad IH]; simpl; intros H; [reflexivity|].
  apply andb_true_iff in H as [Hc Hp]. rewrite Hc. auto.
Qed.

Lemma strip_padded (pad1 core pad2 : string) :
  all_spaces pad1 = true -> no_spaces core = true -> all_spaces pad2 = true ->
  PyStr.strip (pad1 ++ core ++ pad2) = core.
Proof.
  intros H1 Hc H2. unfold PyStr.strip. rewrite (lstrip_spaces _ _ H1).
  destruct core as [|c core].
  - simpl. now rewrite (lstrip_all_spaces pad2 H2).
  - assert (Hl : PyStr.lstrip (String c core ++ pad2) = (String c core ++ pad2)%string).
    { simpl in *. apply andb_true_iff in Hc as [Hc _].
      apply negb_true_iff in Hc. now rewrite Hc. }
    rewrite Hl. now apply rstrip_core.
Qed.

Lemma lstrip_decompose (s : string) :
  exists pad, s = (pad ++ PyStr.lstrip s)%string /\ all_spaces pad = true.
Proof.
  induction s as [|c s (pad & Hs & Hpad)]; simpl.
  - exists "". auto.
  - destruct (PyStr.is_space c) eqn:Hc.
    + exists (String c pad). simpl. rewrite Hc, Hpad, <- Hs. auto.
    + exists "". auto.
Qed.

Lemma rstrip_decompose (s : string) :
  exists pad, s = (PyStr.rstrip s ++ pad)%string /\ all_spaces pad = true.
Proof.
  induction s as [|c s (pad & Hs & Hpad)]; simpl.
  - exists "". auto.
  - destruct (PyStr.rstrip s) as [|a r] eqn:Hr.
    + simpl in Hs. subst s. destruct (PyStr.is_space c) eqn:Hc.
      * exists (String c pad). simpl. now rewrite Hc, Hpad.
      * exists pad. auto.
    + exists pad. split; [|assumption]. simpl. f_equal. exact Hs.
Qed.

Lemma strip_decompose (s : string) :
  exists pad1 pad2,
    s = (pad1 ++ PyStr.strip s ++ pad2)%string /\
    all_spaces pad1 = true /\ all_spaces pad2 = true.
Proof.
  destruct (lstrip_decompose s) as (pad1 & Hs & H1).
  destruct (rstrip_decompose (PyStr.lstrip s)) as (pad2 & Hl & H2).
  exists pad1, pad2. unfold PyStr.strip. rewrite <- Hl. auto.
Qed.

Lemma is_space_lower_char (c : ascii) :
  PyStr.is_space (PyStr.lower_char c) = PyStr.is_space c.
Proof.
  unfold PyStr.lower_char.
  destruct ((65 <=? nat_of_ascii c) && (nat_of_ascii c <=? 90)) eqn:E; [|reflexivity].
  apply andb_true_iff in E as [E1 E2]. apply Nat.leb_le in E1, E2.
  unfold PyStr.is_space.
  rewrite nat_ascii_embedding by lia.
  repeat match goal with
         | |- context [?a <=? ?b] => destruct (Nat.leb_spec a b); try lia
         end; reflexivity.
Qed.

Lemma no_spaces_lower (s : string) : no_spaces (PyStr.lower s) = no_spaces s.
Proof.
  induction s as [|c s IH]; simpl; [reflexivity|].
  now rewrite is_space_lower_char, IH.
Qed.

Lemma print_plan_ok (sorted_pdfs : list (string * Z)) :
  forall w,
    print_plan sorted_pdfs w =
    (Ok tt, with_stdout w (stdout w ++ map plan_line sorted_pdfs)).
Proof.
  induction sorted_pdfs as [|[f k] rest IH]; intros w.
  - simpl. unfold ret. now rewrite app_nil_r, with_stdout_same.
  - cbn [print_plan]. unfold bind, print. rewrite IH.
    cbn [stdout with_stdout map]. now rewrite <- app_assoc.
Qed.

Lemma confirm_merge_run (sorted_pdfs : list (string * Z)) (w : World) :
  confirm_merge sorted_pdfs w =
  match stdin w with
  | [] => (Raise EOFError,
           with_stdout w (stdout w ++ confirmation_text sorted_pdfs))
  | answer :: rest =>
      (Ok (String.eqb (PyStr.lower (PyStr.strip answer)) "yes"),
       with_stdin (with_stdout w (stdout w ++ confirmation_text sorted_pdfs)) rest)
  end.
Proof.
  unfold confirm_merge, bind, print. rewrite print_plan_ok.
  unfold input, ret, confirmation_text.
  cbn [stdout with_stdout stdin with_stdin].
  rewrite <- !app_assoc. cbn [app].
  destruct (stdin w); reflexivity.
Qed.

(** X14: [confirm_merge] prints the heading, one line per plan entry and
    the question, reads one line and changes nothing else; it answers yes
    exactly when that line is the word yes, in any mix of upper and lower
    case, with nothing but white space around it; at the end of the input
    it raises [EOFError]. *)
Theorem confirm_merge_spec (sorted_pdfs : list (string * Z)) (w : World) :
  (forall answer rest,
      stdin w = answer :: rest ->
      exists b,
        confirm_merge sorted_pdfs w =
        (Ok b, with_stdin
                 (with_stdout w (stdout w ++ confirmation_text sorted_pdfs)) rest) /\
        (b = true <->
         exists pad1 core pad2,
           answer = (pad1 ++ core ++ pad2)%string /\
           all_spaces pad1 = true /\ all_spaces pad2 = true /\
           PyStr.lower core = "yes")) /\
  (stdin w = [] ->
   confirm_merge sorted_pdfs w =
   (Raise EOFError, with_stdout w (stdout w ++ confirmation_text sorted_pdfs))).
Proof.
  pose proof (confirm_merge_run sorted_pdfs w) as Hrun.
  split.
  - intros answer rest Hin. rewrite Hrun, Hin. eexists. split; [reflexivity|].
    rewrite String.eqb_eq. split.
    + intros Hyes. destruct (strip_decompose answer) as (pad1 & pad2 & Ha & H1 & H2).
      exists pad1, (PyStr.strip answer), pad2. auto.
    + intros (pad1 & core & pad2 & -> & H1 & H2 & Hyes).
      rewrite strip_padded; auto.
      rewrite <- no_spaces_lower, Hyes. reflexivity.
  - intros Hin. now rewrite Hrun, Hin.
Qed.

Lemma confirm_merge_spec_witness :
  (exists b,
      confirm_merge [("doc_1.pdf", 1%Z)] (with_stdin example_world [" Yes "; "x"]) =
      (Ok b, with_stdin
               (with_stdout (with_stdin example_world [" Yes "; "x"])
                  (stdout (with_stdin example_world [" Yes "; "x"])
                     ++ confirmation_text [("doc_1.pdf", 1%Z)])) ["x"]) /\
      (b = true <->
       exists pad1 core pad2,
         " Yes " = (pad1 ++ core ++ pad2)%string /\
         all_spaces pad1 = true /\ all_spaces pad2 = true /\
         PyStr.lower core = "yes")) /\
  confirm_merge [("doc_1.pdf", 1%Z)] (with_stdin example_world []) =
  (Raise EOFError,
   with_stdout (with_stdin example_world [])
     (stdout (with_stdin example_world []) ++ confirmation_text [("doc_1.pdf", 1%Z)])).
Proof.
  split.
  - apply (proj1 (confirm_merge_spec [("doc_1.pdf", 1%Z)]
                    (with_stdin example_world [" Yes "; "x"]))).
    reflexivity.
  - apply (proj2 (confirm_merge_spec [("doc_1.pdf", 1%Z)]
                    (with_stdin example_world []))).
    reflexivity.
Defined.

(** ** More on the assembler *)

(** X15: how [merge_pdfs] ends is decided by the first file of the plan
    alone.  The empty plan is written as an empty document, or raises
    [OSError] when the output path cannot be opened.  A plan whose first
    file cannot be read raises the read error of that file and nothing is
    done.  Any other plan raises [AttributeError] once its first file is
    appended ([IndexError] when that file has no page).  So no plan with a
    file in it is written, the files after the first play no part, and the
    standard input is never read. *)
Theorem merge_pdfs_outcome (folder output : string) (plan : list (string * Z))
        (titles : option (list string)) (w : World) :
  (exists w',
      merge_pdfs folder output plan titles w =
      (match plan with
       | [] => if fs_writable w output then Ok tt else Raise (OSError output)
       | (f, _) :: _ =>
           match fs_pdf w (path_div folder f) with
           | None => Raise (PdfReadError f)
           | Some p => if (0 <? p)%Z then Raise AttributeError else Raise IndexError
           end
       end, w') /\
      stdin w' = stdin w /\
      match plan with
      | [] => if fs_writable w output
              then fs_written w' = fs_written w ++ [(output, mkMerger [] [])]
              else w' = w
      | (f, _) :: _ =>
          fs_written w' = fs_written w /\
          (fs_pdf w (path_div folder f) = None -> w' = w)
      end) /\
  (forall e rest rest',
      plan = e :: rest ->
      merge_pdfs folder output plan titles w
      = merge_pdfs folder output (e :: rest') titles w).
Proof.
  split.
  - rewrite merge_pdfs_run. destruct plan as [|[f k] plan].
    + destruct (fs_writable w output); eexists; repeat split.
    + destruct (fs_pdf w (path_div folder f)) as [p|].
      * destruct (0 <? p)%Z; eexists; repeat split; discriminate.
      * eexists; repeat split.
  - intros [f k] rest rest' ->. now rewrite !merge_pdfs_run.
Qed.

Lemma merge_pdfs_outcome_witness :
  merge_pdfs "in" "out.pdf" [("doc_1.pdf", 1%Z); ("doc_2.pdf", 2%Z)] None example_world
  = merge_pdfs "in" "out.pdf" [("doc_1.pdf", 1%Z); ("gone.pdf", 7%Z)] None example_world.
Proof.
  apply (proj2 (merge_pdfs_outcome "in" "out.pdf"
                  [("doc_1.pdf", 1%Z); ("doc_2.pdf", 2%Z)] None example_world)
           ("doc_1.pdf", 1%Z) [("doc_2.pdf", 2%Z)] [("gone.pdf", 7%Z)]).
  reflexivity.
Defined.

Lemma merge_loop_ext (folder : string) (titles titles' : option (list string)) :
  forall plan plan' start merger cur w,
    map fst plan = map fst plan' ->
    (forall i p, start <= i < start + List.length plan ->
                 bookmark_title_of titles i p = bookmark_title_of titles' i p) ->
    merge_loop folder titles (combine (seq start (List.length plan)) plan)
               merger cur w =
    merge_loop folder titles' (combine (seq start (List.length plan')) plan')
               merger cur w.
Proof.
  intros [|[f k] plan] [|[f' k'] plan'] start merger cur w Hf Ht;
    try discriminate; [reflexivity|].
  simpl in Hf. injection Hf as <- Hf.
  cbn [List.length seq combine].
  destruct (fs_pdf w (path_div folder f)) as [p|] eqn:E.
  - rewrite (merge_loop_readable folder titles start f k _ merger cur w p E).
    rewrite (merge_loop_readable folder titles' start f k' _ merger cur w p E).
    rewrite (Ht start (path_div folder f)) by (simpl; lia). reflexivity.
  - rewrite (merge_loop_unreadable folder titles start f k _ merger cur w E).
    now rewrite (merge_loop_unreadable folder titles' start f k' _ merger cur w E).
Qed.

(** X16: [merge_pdfs] uses the plan for its order only: two plans that name
    the same files in the same order give the same run, whatever their
    keys. *)
Theorem merge_pdfs_ignores_keys (folder output : string)
        (plan plan' : list (string * Z)) (titles : option (list string)) (w : World) :
  map fst plan = map fst plan' ->
  merge_pdfs folder output plan titles w = merge_pdfs folder output plan' titles w.
Proof.
  intros H. unfold merge_pdfs, enumerate, bind.
  now rewrite (merge_loop_ext folder titles titles plan plan' 0 _ _ w H).
Qed.

Lemma merge_pdfs_ignores_keys_witness :
  merge_pdfs "in" "out.pdf" [("doc_1.pdf", 1%Z); ("doc_2.pdf", 2%Z)] None example_world
  = merge_pdfs "in" "out.pdf" [("doc_1.pdf", 7%Z); ("doc_2.pdf", (-3)%Z)] None
               example_world.
Proof.
  apply merge_pdfs_ignores_keys. reflexivity.
Defined.

(** X17: custom titles beyond the length of the plan are ignored: when
    there is a title for every plan entry, further titles change nothing. *)
Theorem merge_pdfs_ignores_surplus_titles (folder output : string)
        (plan : list (string * Z)) (titles surplus : list string) (w : World) :
  List.length plan <= List.length titles ->
  merge_pdfs folder output plan (Some (titles ++ surplus)) w
  = merge_pdfs folder output plan (Some titles) w.
Proof.
  intros H. unfold merge_pdfs, enumerate, bind.
  rewrite (merge_loop_ext folder (Some (titles ++ surplus)) (Some titles)
                          plan plan 0 _ _ w eq_refl); [reflexivity|].
  intros i p Hi.
  destruct (nth_error titles i) as [t|] eqn:E.
  - rewrite (bookmark_title_in_range titles i p t E).
    apply bookmark_title_in_range. rewrite nth_error_app1; [assumption|].
    apply nth_error_Some. congruence.
  - apply nth_error_None in E. lia.
Qed.

Lemma merge_pdfs_ignores_surplus_titles_witness :
  merge_pdfs "in" "out.pdf" [("doc_1.pdf", 1%Z); ("doc_2.pdf", 2%Z)]
             (Some (["One"; "Two"] ++ ["Three"; "Four"])) example_world
  = merge_pdfs "in" "out.pdf" [("doc_1.pdf", 1%Z); ("doc_2.pdf", 2%Z)]
               (Some ["One"; "Two"]) example_world.
Proof.
  apply merge_pdfs_ignores_surplus_titles. simpl. lia.
Defined.

(** X18: [merge_pdfs] succeeds on the empty plan only: a run that succeeds
    was given no file, the output path could be opened, and all it did was
    to write one document without inputs and bookmarks to that path and to
    print the closing line. *)
Theorem merge_pdfs_success (folder output : string) (plan : list (string * Z))
        (titles : option (list string)) (w w' : World) :
  merge_pdfs folder output plan titles w = (Ok tt, w') ->
  plan = [] /\
  fs_writable w output = true /\
  w' = with_stdout (with_written w (fs_written w ++ [(output, mkMerger [] [])]))
                   (stdout w ++ [saved_line output]).
Proof.
  intros H. rewrite merge_pdfs_run in H.
  destruct plan as [|[f k] plan].
  - destruct (fs_writable w output); [|discriminate].
    injection H as <-. repeat split.
  - destruct (fs_pdf w (path_div folder f)); discriminate.
Qed.

Lemma merge_pdfs_success_witness :
  @nil (string * Z) = [] /\
  fs_writable example_world "out.pdf" = true /\
  with_stdout (with_written example_world [("out.pdf", mkMerger [] [])])
              [saved_line "out.pdf"]
  = with_stdout
      (with_written example_world
                    (fs_written example_world ++ [("out.pdf", mkMerger [] [])]))
      (stdout example_world ++ [saved_line "out.pdf"]).
Proof.
  apply (merge_pdfs_success "in" "out.pdf" [] None example_world).
  reflexivity.
Defined.

(** ** Runs of the main program *)

Lemma main_unfold (args : Args.t) :
  main args =
  (pdf_files <- list_pdf_files (Args.input_folder args) ;;
   match pdf_files with
   | [] => print ("No PDF files found in the directory: " ++ Args.input_folder args)
   | _ :: _ =>
       sorted_pdfs <- plan_of args pdf_files ;;
       match sorted_pdfs with
       | [] => print "No valid PDFs with index found. Exiting."
       | _ :: _ =>
           proceed <- (if Args.force_merge args then ret true
                       else confirm_merge sorted_pdfs) ;;
           if proceed
           then merge_pdfs (Args.input_folder args) (Args.output_file args)
                           sorted_pdfs (titles_of args)
           else print "Merge operation aborted by the user."
       end
   end).
Proof. reflexivity. Qed.

Lemma prints_refl (w : World) : prints w w.
Proof. exists []. now rewrite app_nil_r, with_stdout_same. Qed.

Lemma prints_trans (w1 w2 w3 : World) : prints w1 w2 -> prints w2 w3 -> prints w1 w3.
Proof.
  intros [o1 ->] [o2 ->]. exists (o1 ++ o2).
  cbn [stdout with_stdout]. now rewrite app_assoc.
Qed.

Lemma prints_frame (w w' : World) :
  prints w w' -> only_console w w' /\ stdin w' = stdin w.
Proof. intros [out ->]. repeat split. Qed.

Lemma index_loop_prints (prefix : string) (pat : Re.regex) (files : list string) :
  forall d w r w', index_loop files prefix pat d w = (r, w') -> prints w w'.
Proof.
  induction files as [|f files IH]; intros d w r w' H.
  - injection H as _ <-. apply prints_refl.
  - cbn [index_loop] in H. unfold bind, lift in H.
    destruct (extract_index_from_filename f prefix pat) as [[i|]|e].
    + eapply IH; eauto.
    + unfold print in H. apply IH in H.
      eapply prints_trans; [|exact H]. eexists. reflexivity.
    + injection H as _ <-. apply prints_refl.
Qed.

Lemma plan_of_prints (args : Args.t) (files : list string) (w w' : World)
      (r : Result (list (string * Z))) :
  plan_of args files w = (r, w') -> prints w w'.
Proof.
  assert (Hindex : forall prefix pat,
             get_sorted_pdfs_by_index files prefix pat w = (r, w') -> prints w w').
  { intros prefix pat H. unfold get_sorted_pdfs_by_index, bind in H.
    destruct (index_loop files prefix pat [] w) as [[d|e] w1] eqn:E;
      apply index_loop_prints in E; unfold ret in H; injection H as _ <-; exact E. }
  unfold plan_of. destruct (Args.custom_order args) as [order_str|]; [|apply Hindex].
  destruct (PyStr.truthy order_str); [|apply Hindex].
  unfold bind, lift. intros H.
  destruct (parse_custom_order order_str); injection H as _ <-; apply prints_refl.
Qed.

Lemma list_pdf_files_run (folder : string) (w : World) :
  list_pdf_files folder w =
  match fs_listdir w folder with
  | Some names => (Ok (pdf_names names), w)
  | None => (Raise (OSError folder), w)
  end.
Proof.
  unfold list_pdf_files, bind, listdir, ret. now destruct (fs_listdir w folder).
Qed.

(** Every run of [merge_pdfs] prints, and writes the output when it
    succeeds, and does nothing else to the world. *)
Lemma merge_pdfs_frame (folder output : string) (plan : list (string * Z))
      (titles : option (list string)) (w w' : World) (r : Result unit) :
  merge_pdfs folder output plan titles w = (r, w') ->
  (prints w w') \/
  (r = Ok tt /\
   exists doc, prints (with_written w (fs_written w ++ [(output, doc)])) w').
Proof.
  intros H. rewrite merge_pdfs_run in H.
  destruct plan as [|[f k] plan].
  - destruct (fs_writable w output); injection H as <- <-.
    + right. split; [reflexivity|]. eexists. eexists. reflexivity.
    + left. apply prints_refl.
  - destruct (fs_pdf w (path_div folder f)); injection H as <- <-; left.
    + eexists. reflexivity.
    + apply prints_refl.
Qed.

(** X20: when the directory holds no file ending in [.pdf], [main] says so
    and ends: nothing is planned, asked or written. *)
Theorem main_without_pdfs (args : Args.t) (w : World) (names : list string) :
  fs_listdir w (Args.input_folder args) = Some names ->
  pdf_names names = [] ->
  main args w =
  (Ok tt,
   with_stdout w (stdout w ++ [("No PDF files found in the directory: "
                                  ++ Args.input_folder args)%string])).
Proof.
  intros Hdir Hnone. rewrite main_unfold. unfold bind.
  rewrite list_pdf_files_run, Hdir, Hnone. reflexivity.
Qed.

Lemma main_without_pdfs_witness :
  main (Args.mk "docs" "out.pdf" "" default_index_pattern None (Some "1,2") false)
       (mkWorld (fun _ => Some ["a.txt"; "b.PDF"]) (fun _ => None) (fun _ => true)
                [] [] [])
  = (Ok tt,
     with_stdout
       (mkWorld (fun _ => Some ["a.txt"; "b.PDF"]) (fun _ => None) (fun _ => true)
                [] [] [])
       ([] ++ [("No PDF files found in the directory: " ++ "docs")%string])).
Proof.
  apply (main_without_pdfs
           (Args.mk "docs" "out.pdf" "" default_index_pattern None (Some "1,2") false)
           (mkWorld (fun _ => Some ["a.txt"; "b.PDF"]) (fun _ => None) (fun _ => true)
                    [] [] [])
           ["a.txt"; "b.PDF"]); reflexivity.
Defined.



(** X22: without the force flag a plan is merged only on the answer yes:
    on any other answer [main] reads that one line, says that the merge was
    aborted, and writes nothing; at the end of the input it raises
    [EOFError], again without writing. *)
Theorem main_needs_consent (args : Args.t) (w w1 : World) (names : list string)
        (plan : list (string * Z)) :
  fs_listdir w (Args.input_folder args) = Some names ->
  pdf_names names <> [] ->
  plan_of args (pdf_names names) w = (Ok plan, w1) ->
  plan <> [] ->
  Args.force_merge args = false ->
  (forall answer rest,
      stdin w = answer :: rest ->
      PyStr.lower (PyStr.strip answer) <> "yes" ->
      exists w',
        main args w = (Ok tt, w') /\
        fs_written w' = fs_written w /\
        stdin w' = rest /\
        last (stdout w') "" = "Merge operation aborted by the user.") /\
  (stdin w = [] ->
   exists w', main args w = (Raise EOFError, w') /\ fs_written w' = fs_written w).
Proof.
  intros Hdir Hne Hplan Hnonempty Hforce.
  destruct (prints_frame _ _ (plan_of_prints _ _ _ _ _ Hplan))
    as [(_ & _ & _ & Hwr) Hin].
  assert (Hrun : main args w =
                 bind (confirm_merge plan)
                      (fun proceed =>
                         if proceed
                         then merge_pdfs (Args.input_folder args) (Args.output_file args)
                                         plan (titles_of args)
                         else print "Merge operation aborted by the user.") w1).
  { rewrite main_unfold. unfold bind at 1. rewrite list_pdf_files_run, Hdir.
    destruct (pdf_names names) as [|f0 files]; [congruence|].
    unfold bind at 1. rewrite Hplan.
    destruct plan as [|e plan]; [congruence|]. now rewrite Hforce. }
  rewrite Hrun. unfold bind. rewrite confirm_merge_run, Hin. split.
  - intros answer rest Hstdin Hno. rewrite Hstdin.
    apply String.eqb_neq in Hno. rewrite Hno. unfold print.
    eexists. split; [reflexivity|].
    cbn [fs_written stdin stdout with_stdin with_stdout].
    repeat split; [assumption|]. apply last_last.
  - intros Hstdin. rewrite Hstdin. eexists. split; [reflexivity|]. exact Hwr.
Qed.

Lemma main_needs_consent_witness :
  (exists w',
      main (Args.mk "in" "out.pdf" "doc_" default_index_pattern None None false)
           (with_stdin example_world ["y"; "yes"]) = (Ok tt, w') /\
      fs_written w' = fs_written (with_stdin example_world ["y"; "yes"]) /\
      stdin w' = ["yes"] /\
      last (stdout w') "" = "Merge operation aborted by the user.") /\
  (exists w',
      main (Args.mk "in" "out.pdf" "doc_" default_index_pattern None None false)
           (with_stdin example_world []) = (Raise EOFError, w') /\
      fs_written w' = fs_written (with_stdin example_world [])).
Proof.
  split.
  - apply (proj1 (main_needs_consent
                    (Args.mk "in" "out.pdf" "doc_" default_index_pattern None None false)
                    (with_stdin example_world ["y"; "yes"])
                    (with_stdin example_world ["y"; "yes"])
                    ["doc_2.pdf"; "doc_10.pdf"; "notes.txt"; "doc_1.pdf"]
                    [("doc_1.pdf", 1%Z); ("doc_2.pdf", 2%Z); ("doc_10.pdf", 10%Z)]
                    eq_refl ltac:(discriminate) eq_refl ltac:(discriminate) eq_refl)
                 "y" ["yes"]).
    + reflexivity.
    + discriminate.
  - apply (proj2 (main_needs_consent
                    (Args.mk "in" "out.pdf" "doc_" default_index_pattern None None false)
                    (with_stdin example_world [])
                    (with_stdin example_world [])
                    ["doc_2.pdf"; "doc_10.pdf"; "notes.txt"; "doc_1.pdf"]
                    [("doc_1.pdf", 1%Z); ("doc_2.pdf", 2%Z); ("doc_10.pdf", 10%Z)]
                    eq_refl ltac:(discriminate) eq_refl ltac:(discriminate) eq_refl)).
    reflexivity.
Defined.

Lemma only_console_trans (w1 w2 w3 : World) :
  only_console w1 w2 -> only_console w2 w3 -> only_console w1 w3.
Proof.
  unfold only_console. intros (A1 & B1 & C1 & D1) (A2 & B2 & C2 & D2).
  repeat split; congruence.
Qed.

Lemma confirm_merge_frame (plan : list (string * Z)) (w w' : World) (r : Result bool) :
  confirm_merge plan w = (r, w') -> only_console w w'.
Proof.
  rewrite confirm_merge_run. destruct (stdin w); intros H; injection H as _ <-;
    repeat split.
Qed.

Lemma merge_pdfs_effects (folder output : string) (plan : list (string * Z))
      (titles : option (list string)) (w w' : World) (r : Result unit) :
  merge_pdfs folder output plan titles w = (r, w') ->
  fs_listdir w' = fs_listdir w /\ fs_pdf w' = fs_pdf w /\
  fs_writable w' = fs_writable w /\ stdin w' = stdin w /\
  (fs_written w' = fs_written w \/
   (r = Ok tt /\ exists doc, fs_written w' = fs_written w ++ [(output, doc)])).
Proof.
  intros H. apply merge_pdfs_frame in H as [[out ->] | [-> [doc [out ->]]]].
  - repeat split. left. reflexivity.
  - repeat split. right. split; [reflexivity|]. exists doc. reflexivity.
Qed.

(** X23: with the force flag [main] never reads the standard input,
    however the run ends. *)
Theorem main_forced_reads_nothing (args : Args.t) (w w' : World) (r : Result unit) :
  Args.force_merge args = true ->
  main args w = (r, w') ->
  stdin w' = stdin w.
Proof.
  intros Hforce H. rewrite main_unfold in H. unfold bind in H.
  rewrite list_pdf_files_run in H.
  destruct (fs_listdir w (Args.input_folder args)) as [names|];
    [|injection H as _ <-; reflexivity].
  destruct (pdf_names names) as [|f0 files];
    [unfold print in H; injection H as _ <-; reflexivity|].
  destruct (plan_of args (f0 :: files) w) as [[plan|e] w1] eqn:E;
    destruct (prints_frame _ _ (plan_of_prints _ _ _ _ _ E)) as [_ Hin];
    [|injection H as _ <-; exact Hin].
  destruct plan as [|e0 plan];
    [unfold print in H; injection H as _ <-; exact Hin|].
  rewrite Hforce in H. unfold ret in H.
  apply merge_pdfs_effects in H as (_ & _ & _ & Hs & _). congruence.
Qed.

Lemma main_forced_reads_nothing_witness :
  stdin (snd (main (Args.mk "in" "out.pdf" "doc_" default_index_pattern None None true)
                   example_world))
  = stdin example_world.
Proof.
  apply (main_forced_reads_nothing
           (Args.mk "in" "out.pdf" "doc_" default_index_pattern None None true)
           example_world _ (Raise AttributeError)).
  - reflexivity.
  - reflexivity.
Defined.

(** X24: whatever the arguments and however the run ends, [main] leaves
    the directories and the PDFs as they were and writes at most one file,
    the output file, and that only in a run that ends without error. *)
Theorem main_writes_only_the_output (args : Args.t) (w w' : World) (r : Result unit) :
  main args w = (r, w') ->
  fs_listdir w' = fs_listdir w /\ fs_pdf w' = fs_pdf w /\
  fs_writable w' = fs_writable w /\
  (fs_written w' = fs_written w \/
   (r = Ok tt /\
    exists doc, fs_written w' = fs_written w ++ [(Args.output_file args, doc)])).
Proof.
  intros H. rewrite main_unfold in H. unfold bind in H.
  rewrite list_pdf_files_run in H.
  destruct (fs_listdir w (Args.input_folder args)) as [names|];
    [|injection H as _ <-; repeat split; auto].
  destruct (pdf_names names) as [|f0 files];
    [unfold print in H; injection H as _ <-; repeat split; auto|].
  destruct (plan_of args (f0 :: files) w) as [[plan|e] w1] eqn:E;
    destruct (prints_frame _ _ (plan_of_prints _ _ _ _ _ E))
      as [(A1 & B1 & C1 & D1) _];
    [|injection H as _ <-; repeat split; auto].
  destruct plan as [|e0 plan];
    [unfold print in H; injection H as _ <-; repeat split; auto|].
  assert (Hmerge : forall w2 : World,
             only_console w w2 ->
             merge_pdfs (Args.input_folder args) (Args.output_file args)
                        (e0 :: plan) (titles_of args) w2 = (r, w') ->
             fs_listdir w' = fs_listdir w /\ fs_pdf w' = fs_pdf w /\
             fs_writable w' = fs_writable w /\
             (fs_written w' = fs_written w \/
              (r = Ok tt /\
               exists doc,
                 fs_written w' = fs_written w ++ [(Args.output_file args, doc)]))).
  { intros w2 (A2 & B2 & C2 & D2) Hm.
    apply merge_pdfs_effects in Hm as (A3 & B3 & C3 & _ & Hw).
    repeat split; try congruence.
    destruct Hw as [Hw | [-> [doc Hw]]]; [left; congruence|].
    right. split; [reflexivity|]. exists doc. congruence. }
  destruct (Args.force_merge args).
  - unfold ret in H. apply (Hmerge w1); [repeat split; assumption | exact H].
  - destruct (confirm_merge (e0 :: plan) w1) as [[proceed|e] w2] eqn:Ec;
      pose proof (confirm_merge_frame _ _ _ _ Ec) as Hc;
      pose proof (only_console_trans w w1 w2
                    (conj A1 (conj B1 (conj C1 D1))) Hc) as Hw2.
    + destruct proceed.
      * apply (Hmerge w2); assumption.
      * unfold print in H. injection H as _ <-.
        destruct Hw2 as (A2 & B2 & C2 & D2). repeat split; auto.
    + injection H as _ <-. destruct Hw2 as (A2 & B2 & C2 & D2). repeat split; auto.
Qed.

Lemma main_writes_only_the_output_witness :
  let args := Args.mk "in" "out.pdf" "doc_" default_index_pattern None None true in
  let w' := snd (main args example_world) in
  fs_listdir w' = fs_listdir example_world /\ fs_pdf w' = fs_pdf example_world /\
  fs_writable w' = fs_writable example_world /\
  (fs_written w' = fs_written example_world \/
   (Raise AttributeError = Ok tt /\
    exists doc, fs_written w' = fs_written example_world ++ [("out.pdf", doc)])).
Proof.
  apply (main_writes_only_the_output
           (Args.mk "in" "out.pdf" "doc_" default_index_pattern None None true)
           example_world _ (Raise AttributeError)).
  reflexivity.
Defined.

(** X25: the whole run never produces the output.  No run of [main] writes
    a file, and none merges: when the plan is not empty, the user consents
    (or the force flag is set) and the first file of the plan can be read
    and has a page, [main] appends that file, prints its line and ends with
    [AttributeError]; the files written are as before. *)
Theorem main_merge_fails (args : Args.t) (w : World) :
  (forall r w', main args w = (r, w') -> fs_written w' = fs_written w) /\
  (forall w1 names f k rest p,
      fs_listdir w (Args.input_folder args) = Some names ->
      pdf_names names <> [] ->
      plan_of args (pdf_names names) w = (Ok ((f, k) :: rest), w1) ->
      (Args.force_merge args = true \/
       exists answer more,
         stdin w = answer :: more /\ PyStr.lower (PyStr.strip answer) = "yes") ->
      fs_pdf w (path_div (Args.input_folder args) f) = Some p ->
      (0 < p)%Z ->
      exists w',
        main args w = (Raise AttributeError, w') /\
        fs_written w' = fs_written w /\
        last (stdout w') ""
        = adding_line f (bookmark_title_of (titles_of args) 0
                           (path_div (Args.input_folder args) f))).
Proof.
  split.
  - intros r w' H. rewrite main_unfold in H. unfold bind in H.
    rewrite list_pdf_files_run in H.
    destruct (fs_listdir w (Args.input_folder args)) as [names|];
      [|injection H as _ <-; reflexivity].
    destruct (pdf_names names) as [|f0 files];
      [unfold print in H; injection H as _ <-; reflexivity|].
    destruct (plan_of args (f0 :: files) w) as [[plan|e] w1] eqn:E;
      destruct (prints_frame _ _ (plan_of_prints _ _ _ _ _ E))
        as [(_ & _ & _ & D1) _];
      [|injection H as _ <-; exact D1].
    destruct plan as [|e0 plan];
      [unfold print in H; injection H as _ <-; exact D1|].
    assert (Hmerge : forall w2 : World,
               fs_written w2 = fs_written w ->
               merge_pdfs (Args.input_folder args) (Args.output_file args)
                          (e0 :: plan) (titles_of args) w2 = (r, w') ->
               fs_written w' = fs_written w).
    { intros w2 Hw2 Hm.
      destruct (merge_pdfs_nonempty (Args.input_folder args) (Args.output_file args)
                                    (e0 :: plan) (titles_of args) w2)
        as (e' & w3 & Hrun & Hsame); [discriminate|].
      rewrite Hrun in Hm. injection Hm as _ <-. congruence. }
    destruct (Args.force_merge args).
    + unfold ret in H. now apply (Hmerge w1).
    + destruct (confirm_merge (e0 :: plan) w1) as [[proceed|e] w2] eqn:Ec;
        destruct (confirm_merge_frame _ _ _ _ Ec) as (_ & _ & _ & D2).
      * destruct proceed.
        -- apply (Hmerge w2); [congruence | assumption].
        -- unfold print in H. injection H as _ <-.
           cbn [fs_written with_stdout]. congruence.
      * injection H as _ <-. congruence.
  - intros w1 names f k rest p Hdir Hne Hplan Hconsent Hread Hpos.
    destruct (plan_of_prints _ _ _ _ _ Hplan) as [out1 ->].
    assert (Hmerge : forall w2 : World,
               fs_pdf w2 = fs_pdf w -> fs_written w2 = fs_written w ->
               exists w',
                 merge_pdfs (Args.input_folder args) (Args.output_file args)
                            ((f, k) :: rest) (titles_of args) w2
                 = (Raise AttributeError, w') /\
                 fs_written w' = fs_written w /\
                 last (stdout w') ""
                 = adding_line f (bookmark_title_of (titles_of args) 0
                                    (path_div (Args.input_folder args) f))).
    { intros w2 Hpdf Hwn. rewrite merge_pdfs_run, Hpdf, Hread.
      rewrite (proj2 (Z.ltb_lt 0 p) Hpos).
      eexists. split; [reflexivity|]. split; [exact Hwn|].
      cbn [stdout with_stdout]. apply last_last. }
    assert (Hrun : main args w =
                   bind (if Args.force_merge args then ret true
                         else confirm_merge ((f, k) :: rest))
                        (fun proceed =>
                           if proceed
                           then merge_pdfs (Args.input_folder args)
                                           (Args.output_file args)
                                           ((f, k) :: rest) (titles_of args)
                           else print "Merge operation aborted by the user.")
                        (with_stdout w (stdout w ++ out1))).
    { rewrite main_unfold. unfold bind at 1. rewrite list_pdf_files_run, Hdir.
      destruct (pdf_names names) as [|f0 files]; [congruence|].
      unfold bind at 1. rewrite Hplan. reflexivity. }
    rewrite Hrun. unfold bind.
    destruct (Args.force_merge args) eqn:Hforce.
    + unfold ret. apply Hmerge; reflexivity.
    + destruct Hconsent as [Hc | (answer & more & Hin & Hyes)]; [discriminate|].
      rewrite confirm_merge_run. cbn [stdin with_stdout]. rewrite Hin.
      apply String.eqb_eq in Hyes. rewrite Hyes.
      apply Hmerge; reflexivity.
Qed.

Lemma main_merge_fails_witness :
  exists w',
    main (Args.mk "in" "out.pdf" "doc_" default_index_pattern (Some "One,Two") None false)
         example_world = (Raise AttributeError, w') /\
    fs_written w' = fs_written example_world /\
    last (stdout w') ""
    = adding_line "doc_1.pdf"
        (bookmark_title_of (Some ["One"; "Two"]) 0 (path_div "in" "doc_1.pdf")).
Proof.
  apply (proj2 (main_merge_fails
           (Args.mk "in" "out.pdf" "doc_" default_index_pattern (Some "One,Two")
                    None false)
           example_world)
           example_world
           ["doc_2.pdf"; "doc_10.pdf"; "notes.txt"; "doc_1.pdf"]
           "doc_1.pdf" 1%Z [("doc_2.pdf", 2%Z); ("doc_10.pdf", 10%Z)] 3%Z).
  - reflexivity.
  - discriminate.
  - reflexivity.
  - right. exists "yes", []. split; reflexivity.
  - reflexivity.
  - reflexivity.
Defined.
